(** * The train / validate loops of [trojanzoo/utils/train.py]

    A shallow embedding of [train] and [validate] as programs of a small
    monad that records, in order, every call the loops make on their
    collaborators (model, optimizer, scheduler, scaler, EMA tracker, hooks,
    metrics sink).  Tensor computations are owned by the tensor library and
    appear only as such calls; the control flow, the arithmetic on epoch and
    batch counters and the metric bookkeeping are those of the source.

    The file goes on with [compare] of the same module, with the image
    folders of [trojanvision/datasets/imageset.py] and with the version
    string of [docs/source/conf.py]. *)

From Stdlib Require Import ZArith List Bool Lia String QArith.
From Stdlib Require Import Ascii DecimalString DecimalZ.
Import ListNotations.
Local Open Scope Z_scope.

Set Implicit Arguments.

(** ** Python floats

    The loops add, multiply, divide and compare floats.  The operations are
    kept abstract, so no law of real arithmetic (associativity, reflexivity
    of [>=], ...) is used where IEEE arithmetic does not have it. *)

Class FloatOps (F : Type) : Type := {
  fzero : F;                       (* 0.0 *)
  fadd : F -> F -> F;              (* x + y *)
  fmul : F -> F -> F;              (* x * y *)
  fdiv : F -> F -> F;              (* x / y, for y <> 0 *)
  of_int : Z -> F;                 (* float(n) *)
  fge : F -> F -> bool             (* x >= y *)
}.

(** Exact rationals, used to run the loops on concrete numbers. *)
#[export] Instance Q_FloatOps : FloatOps Q := {
  fzero := 0%Q;
  fadd := Qplus;
  fmul := Qmult;
  fdiv := Qdiv;
  of_int := inject_Z;
  fge := fun x y => Qle_bool y x
}.

(** ** Exceptions and the loop monad *)

Inductive exn : Type :=
| ZeroDivisionError
| UnboundLocalError.

Inductive result (A : Type) : Type :=
| Ok (a : A)
| Raise (e : exn).
Arguments Ok {A} a.
Arguments Raise {A} e.

Section Monad.
(** [St] is the state of the collaborators the program reads back, [Ev]
    the type of the calls it makes on them.  A computation returns its
    result (or the exception it raised), the calls it made, in order, and
    the final state. *)
Variables St Ev : Type.

Definition M (A : Type) : Type := St -> result A * list Ev * St.

Definition ret {A} (a : A) : M A := fun s => (Ok a, [], s).

Definition bind {A B} (m : M A) (f : A -> M B) : M B :=
  fun s =>
    match m s with
    | (Ok a, t1, s1) =>
        match f a s1 with
        | (r, t2, s2) => (r, t1 ++ t2, s2)
        end
    | (Raise e, t1, s1) => (Raise e, t1, s1)
    end.

Definition emit (ev : Ev) : M unit := fun s => (Ok tt, [ev], s).

Definition raise {A} (e : exn) : M A := fun s => (Raise e, [], s).

Definition lift {A} (r : result A) : M A := fun s => (r, [], s).

(** [if b: m] *)
Definition whenM (b : bool) (m : M unit) : M unit :=
  if b then m else ret tt.

(** [for a in l: s = body(s, a)], the loop-carried locals being [s]. *)
Fixpoint foldM {A S} (body : S -> A -> M S) (l : list A) (s : S) : M S :=
  match l with
  | [] => ret s
  | a :: l' => bind (body s a) (foldM body l')
  end.

Definition res {A} (m : M A) (s : St) : result A := fst (fst (m s)).
Definition trace {A} (m : M A) (s : St) : list Ev := snd (fst (m s)).
Definition final {A} (m : M A) (s : St) : St := snd (m s).
End Monad.

Arguments ret {St Ev A} a.
Arguments emit {St Ev} ev.
Arguments raise {St Ev A} e.
Arguments lift {St Ev A} r.

Declare Scope py_scope.
Delimit Scope py_scope with py.
Notation "x <- m ;; k" := (bind m (fun x => k))
  (at level 100, m at next level, right associativity) : py_scope.
Notation "' p <- m ;; k" := (bind m (fun p => k))
  (at level 100, p pattern, m at next level, right associativity) : py_scope.
Notation "m ;; k" := (bind m (fun _ => k))
  (at level 100, right associativity) : py_scope.
Local Open Scope py_scope.

(** [range(lo, hi)] *)
Definition range (lo hi : Z) : list Z :=
  map (fun n => lo + Z.of_nat n) (seq 0 (Z.to_nat (hi - lo))).

(** [enumerate(l)], counting from [i] *)
Fixpoint enumerate_from {A} (i : Z) (l : list A) : list (Z * A) :=
  match l with
  | [] => []
  | a :: l' => (i, a) :: enumerate_from (i + 1) l'
  end.

Definition enumerate {A} (l : list A) : list (Z * A) := enumerate_from 0 l.

(** ** Metrics ([trojanzoo.utils.logger]) *)

Section Metrics.
Context {F : Type} `{FloatOps F}.

(** Modelled from the spec: the class [SmoothedValue] of
    [trojanzoo/utils/logger.py], which is not among the sources.  Spec 3
    and 4.1: a metric has a window deque of fixed maximal length, a
    running total and a count; [update(value, weight)] folds the
    observation into the deque and into the unbounded accumulators;
    [global_avg] is total / count and fails when the count is 0. *)
Record SmoothedValue : Type := {
  window_size : option nat;      (* maxlen of the deque, None: unbounded *)
  deque : list F;
  total : F;
  count : Z
}.

Definition new_SmoothedValue (ws : option nat) : SmoothedValue :=
  {| window_size := ws; deque := []; total := fzero; count := 0 |}.

(** [deque.append(value)] on a deque of maximal length [ws]: the oldest
    entries fall out on the left. *)
Definition deque_append (ws : option nat) (d : list F) (value : F) : list F :=
  let d' := d ++ [value] in
  match ws with
  | None => d'
  | Some n => skipn (List.length d' - n)%nat d'
  end.

Definition update (m : SmoothedValue) (value : F) (n : Z) : SmoothedValue :=
  {| window_size := window_size m;
     deque := deque_append (window_size m) (deque m) value;
     total := fadd (total m) (fmul value (of_int n));
     count := count m + n |}.

Definition global_avg (m : SmoothedValue) : result F :=
  if count m =? 0 then Raise ZeroDivisionError
  else Ok (fdiv (total m) (of_int (count m))).

(** [logger = MetricLogger()] with the three meters [loss], [top1] and
    [top5] that both loops install in [logger.meters]. *)
Record MetricLogger : Type := {
  meter_loss : SmoothedValue;
  meter_top1 : SmoothedValue;
  meter_top5 : SmoothedValue
}.

Definition new_MetricLogger (ws : option nat) : MetricLogger :=
  {| meter_loss := new_SmoothedValue ws;
     meter_top1 := new_SmoothedValue ws;
     meter_top5 := new_SmoothedValue ws |}.

(** The three [update] calls that close a batch, in both loops. *)
Definition log_batch (lg : MetricLogger) (loss acc1 acc5 : F) (batch_size : Z)
  : MetricLogger :=
  {| meter_loss := update (meter_loss lg) loss batch_size;
     meter_top1 := update (meter_top1 lg) acc1 batch_size;
     meter_top5 := update (meter_top5 lg) acc5 batch_size |}.
End Metrics.

Arguments SmoothedValue F : clear implicits.
Arguments MetricLogger F : clear implicits.

(** ** The train loop *)

Inductive ScalarKind : Type := Loss | Acc.

(** The calls [train] makes on its collaborators. *)
Inductive Event (F : Type) : Type :=
| EvGradScaler                                   (* torch.cuda.amp.GradScaler() *)
| EvValidate (with_module with_writer : bool) (_epoch : Z)   (* validate_fn(...) *)
| EvSchedulerStep                                (* lr_scheduler.step() *)
| EvActivateParams (all : bool)                  (* activate_params(module, params) / (module, []) *)
| EvEpochFn (_epoch : Z)                         (* epoch_fn(..., _epoch=_epoch, ...) *)
| EvModuleTrain                                  (* module.train() *)
| EvModuleEval                                   (* module.eval() *)
| EvGetData                                      (* get_data_fn(data, mode='train') *)
| EvTrackEnable                                  (* pre_conditioner.track.enable() *)
| EvForward (amp : bool)                         (* forward_fn(_input, amp=amp) *)
| EvLoss (amp : bool)                            (* loss_fn(..., amp=amp) *)
| EvOptimizerZeroGrad                            (* optimizer.zero_grad() *)
| EvBackward (scaled : bool)                     (* loss.backward() / scaler.scale(loss).backward() *)
| EvUnscale                                      (* scaler.unscale_(optimizer) *)
| EvAfterLoss (amp : bool) (_iter total_iter : Z)  (* after_loss_fn(..., _iter=, total_iter=) *)
| EvTrackDisable                                 (* pre_conditioner.track.disable() *)
| EvPreconditionerStep                           (* pre_conditioner.step() *)
| EvClipGrad                                     (* nn.utils.clip_grad_norm_(params, grad_clip) *)
| EvScalerStep                                   (* scaler.step(optimizer) *)
| EvScalerUpdate                                 (* scaler.update() *)
| EvOptimizerStep                                (* optimizer.step() *)
| EvEmaUpdate                                    (* model_ema.update_parameters(module) *)
| EvEmaReset                                     (* model_ema.n_averaged.fill_(0) *)
| EvAccuracy                                     (* accuracy_fn(_output, _label, ...) *)
| EvEmptyCache                                   (* empty_cache() *)
| EvAddScalars (kind : ScalarKind) (value : F) (global_step : Z)  (* writer.add_scalars(...) *)
| EvPrintBest (cur_acc best_acc : F)             (* the two prints of a best-result update *)
| EvPrintRule                                    (* prints('-' * 50) *)
| EvSave                                         (* save_fn(file_path=..., ...) *)
| EvModuleZeroGrad.                              (* module.zero_grad() *)

Arguments EvGradScaler {F}.
Arguments EvValidate {F} with_module with_writer _epoch.
Arguments EvSchedulerStep {F}.
Arguments EvActivateParams {F} all.
Arguments EvEpochFn {F} _epoch.
Arguments EvModuleTrain {F}.
Arguments EvModuleEval {F}.
Arguments EvGetData {F}.
Arguments EvTrackEnable {F}.
Arguments EvForward {F} amp.
Arguments EvLoss {F} amp.
Arguments EvOptimizerZeroGrad {F}.
Arguments EvBackward {F} scaled.
Arguments EvUnscale {F}.
Arguments EvAfterLoss {F} amp _iter total_iter.
Arguments EvTrackDisable {F}.
Arguments EvPreconditionerStep {F}.
Arguments EvClipGrad {F}.
Arguments EvScalerStep {F}.
Arguments EvScalerUpdate {F}.
Arguments EvOptimizerStep {F}.
Arguments EvEmaUpdate {F}.
Arguments EvEmaReset {F}.
Arguments EvAccuracy {F}.
Arguments EvEmptyCache {F}.
Arguments EvPrintRule {F}.
Arguments EvSave {F}.
Arguments EvModuleZeroGrad {F}.

(** The arguments of [train] the control flow reads, together with the one
    entry of the global [env] it consults.  An optional collaborator is the
    flag that says whether it was passed; the training data source is the
    list of the sizes of its batches, [int(_label.size(0))]. *)
Record Config : Type := {
  epochs : Z;
  lr_scheduler : bool;             (* lr_scheduler is not None *)
  lr_warmup_epochs : Z;
  model_ema : bool;                (* model_ema is not None *)
  model_ema_steps : Z;
  grad_clip : bool;                (* grad_clip is not None *)
  pre_conditioner : bool;          (* pre_conditioner is not None *)
  start_epoch : Z;
  resume : Z;
  validate_interval : Z;
  save : bool;
  amp : bool;
  loader_train : list Z;
  epoch_fn : bool;                 (* callable(epoch_fn) *)
  after_loss_fn : bool;            (* callable(after_loss_fn) *)
  writer : bool;                   (* writer is not None *)
  verbose : bool;
  change_train_eval : bool;
  lr_scheduler_freq : string;
  num_gpus : Z                     (* env['num_gpus'] *)
}.

(** What the hooks hand back to the loop.  Their values depend on tensors
    the loop never inspects: the pair returned by the [n]-th call of
    [validate_fn], and the loss and top-1 / top-5 accuracy of batch [i] of
    epoch [_epoch].  [validate_fn] is the callable left by line 53; it has
    to take the keyword arguments of both of its call sites, of which the
    first passes neither [module] nor [num_classes]. *)
Record Hooks (F : Type) : Type := {
  validate_fn : nat -> F * F;
  batch_stats : Z -> Z -> F * F * F
}.

Section Train.
Context {F : Type} `{FloatOps F}.

(** The window length [SmoothedValue()] takes by default. *)
Variable default_window : option nat.

Variable h : Hooks F.

(** The state threaded through [train]: how often [validate_fn] has been
    called so far. *)
Definition T : Type -> Type := M nat (Event F).

(** [validate_fn(...)]: one call, its answer taken from the hooks. *)
Definition call_validate_fn (with_module with_writer : bool) (_epoch : Z)
  : T (F * F) :=
  fun n => (Ok (validate_fn h n), [EvValidate with_module with_writer _epoch], S n).

(** [a % b] on Python integers; [Z.modulo] rounds the same way. *)
Definition py_mod (a b : Z) : T Z :=
  if b =? 0 then raise ZeroDivisionError else ret (a mod b).

(** Reading a local that may not have been assigned. *)
Definition read_local {A} (v : option A) : T A :=
  match v with
  | Some a => ret a
  | None => raise UnboundLocalError
  end.

Section Loop.
Variable c : Config.
(** [amp] after the accelerator check, [len(loader_train)] and
    [total_iter], the locals of [train] the loops read. *)
Variables (amp_on : bool) (len_loader_train total_iter : Z).

(** Lines 100-156: the body of the batch loop, for batch [i] of epoch
    [_epoch], whose label holds [batch_size] samples. *)
Definition train_batch (_epoch : Z) (logger : MetricLogger F) (ib : Z * Z)
  : T (MetricLogger F) :=
  let '(i, batch_size) := ib in
  let _iter := _epoch * len_loader_train + i in
  emit EvGetData ;;
  whenM (pre_conditioner c && negb amp_on) (emit EvTrackEnable) ;;
  emit (EvForward amp_on) ;;
  emit (EvLoss amp_on) ;;
  emit EvOptimizerZeroGrad ;;
  (if amp_on then
     emit (EvBackward true) ;;
     whenM (after_loss_fn c)
       (emit EvUnscale ;;
        emit (EvAfterLoss amp_on _iter total_iter)) ;;
     whenM (grad_clip c)
       (emit EvUnscale ;;
        emit EvClipGrad) ;;
     emit EvScalerStep ;;
     emit EvScalerUpdate
   else
     emit (EvBackward false) ;;
     whenM (after_loss_fn c)
       (emit (EvAfterLoss amp_on _iter total_iter)) ;;
     whenM (pre_conditioner c)
       (emit EvTrackDisable ;;
        emit EvPreconditionerStep) ;;
     whenM (grad_clip c) (emit EvClipGrad) ;;
     emit EvOptimizerStep) ;;
  (if model_ema c then
     r <- py_mod i (model_ema_steps c) ;;
     whenM (r =? 0)
       (emit EvEmaUpdate ;;
        whenM (_epoch <=? lr_warmup_epochs c) (emit EvEmaReset))
   else ret tt) ;;
  whenM (lr_scheduler c && String.eqb (lr_scheduler_freq c) "step")
    (emit EvSchedulerStep) ;;
  emit EvAccuracy ;;
  let '(loss, acc1, acc5) := batch_stats h _epoch i in
  let logger := log_batch logger loss acc1 acc5 batch_size in
  emit EvEmptyCache ;;
  ret logger.

(** Lines 78-98: the head of an epoch.  The progress header and
    [log_every] only print and hand the batches on unchanged. *)
Definition epoch_begin (_epoch : Z) : T unit :=
  whenM (epoch_fn c)
    (emit (EvActivateParams false) ;;
     emit (EvEpochFn _epoch)) ;;
  whenM (change_train_eval c) (emit EvModuleTrain) ;;
  emit (EvActivateParams true).

(** Lines 157-173: what follows the batch loop, up to the metrics
    sink. *)
Definition epoch_end (_epoch : Z) (logger : MetricLogger F) : T unit :=
  emit EvOptimizerZeroGrad ;;
  whenM (lr_scheduler c && String.eqb (lr_scheduler_freq c) "epochs")
    (emit EvSchedulerStep) ;;
  whenM (change_train_eval c) (emit EvModuleEval) ;;
  emit (EvActivateParams false) ;;
  loss <- lift (global_avg (meter_loss logger)) ;;
  acc <- lift (global_avg (meter_top1 logger)) ;;
  whenM (writer c)
    (emit (EvAddScalars Loss loss (_epoch + start_epoch c)) ;;
     emit (EvAddScalars Acc acc (_epoch + start_epoch c))).

(** Lines 78-173: everything an epoch does before the validation
    checkpoint. *)
Definition train_epoch_work (_epoch : Z) : T unit :=
  epoch_begin _epoch ;;
  logger <- foldM (train_batch _epoch) (enumerate (loader_train c))
              (new_MetricLogger default_window) ;;
  epoch_end _epoch logger.

(** Lines 174-197: the validation checkpoint that closes epoch
    [_epoch]; returns the new value of the local [best_acc]. *)
Definition checkpoint (_epoch : Z) (best_acc : option F) : T (option F) :=
  if negb (validate_interval c =? 0) then
    if (_epoch mod validate_interval c =? 0) || (_epoch =? epochs c) then
      '(_, cur_acc) <- call_validate_fn true (writer c) (_epoch + start_epoch c) ;;
      best <- read_local best_acc ;;
      best_acc <-
        (if fge cur_acc best then
           whenM (verbose c) (emit (EvPrintBest cur_acc best)) ;;
           whenM (save c) (emit EvSave) ;;
           ret (Some cur_acc)
         else ret (Some best)) ;;
      whenM (verbose c) (emit EvPrintRule) ;;
      ret best_acc
    else ret best_acc
  else ret best_acc.

(** Lines 76-197: the body of the epoch loop; [_epoch += 1] first. *)
Definition train_epoch (best_acc : option F) (_epoch : Z) : T (option F) :=
  let _epoch := _epoch + 1 in
  train_epoch_work _epoch ;;
  checkpoint _epoch best_acc.
End Loop.

(** Lines 57-58: [amp] once [env['num_gpus']] has been consulted. *)
Definition amp_enabled (c : Config) : bool :=
  if num_gpus c =? 0 then false else amp c.

(** Lines 73-75: the schedule is stepped [resume] times. *)
Definition resume_walk (c : Config) : T unit :=
  whenM (negb (resume c =? 0) && lr_scheduler c)
    (foldM (fun _ _ => emit EvSchedulerStep) (range 0 (resume c)) tt).

(** [train].  Python returns [None]; the model returns the last value of
    the local [best_acc] ([None] while it is unassigned), so that it can
    be named in statements. *)
Definition train (c : Config) : T (option F) :=
  if epochs c <=? 0 then ret None
  else
    let amp_on := amp_enabled c in
    whenM amp_on (emit EvGradScaler) ;;
    best_acc <-
      (if negb (validate_interval c =? 0) then
         '(_, best_acc) <- call_validate_fn false false (start_epoch c) ;;
         ret (Some best_acc)
       else ret None) ;;
    let len_loader_train := Z.of_nat (List.length (loader_train c)) in
    let total_iter := (epochs c - resume c) * len_loader_train in
    resume_walk c ;;
    best_acc <-
      foldM (train_epoch c amp_on len_loader_train total_iter)
        (range (resume c) (epochs c)) best_acc ;;
    emit EvModuleZeroGrad ;;
    ret best_acc.
End Train.

(** ** The validate loop *)

Section Validate.
Context {F : Type} `{FloatOps F}.

(** Batches, inputs, labels, outputs and parameter tensors belong to the
    tensor library. *)
Variables Data Input Label Output Params : Type.

(** What [validate] can change of the model: its parameters and the
    train / eval mode flag. *)
Record Module : Type := {
  params : Params;
  training : bool
}.

(** The hooks, after their defaults are filled in.  The model is
    deterministic: the forward pass is a function of the model state and
    the input, and runs under [torch.no_grad()]. *)
Variable get_data_fn : Data -> Input * Label.          (* get_data_fn(data, mode='valid') *)
Variable forward_fn : Module -> Input -> Output.       (* forward_fn(_input) *)
Variable loss_fn : Input -> Label -> Output -> F.      (* float(loss_fn(_input, _label, _output=_output)) *)
Variable accuracy_fn : Output -> Label -> F * F.       (* accuracy_fn(_output, _label, topk=(1, 5)) *)
Variable label_size : Label -> Z.                      (* int(_label.size(0)) *)

Variable default_window : option nat.

Inductive VEvent : Type :=
| VModuleEval                                          (* module.eval() *)
| VGetData (data : Data)
| VForward (_input : Input)
| VLoss
| VAccuracy
| VAddScalars (kind : ScalarKind) (value : F) (global_step : Z).

Definition V : Type -> Type := M Module VEvent.

(** [module.eval()] clears the mode flag and touches nothing else. *)
Definition eval_mode (m : Module) : Module :=
  {| params := params m; training := false |}.

Definition module_eval : V unit :=
  fun m => (Ok tt, [VModuleEval], eval_mode m).

Definition call_forward (_input : Input) : V Output :=
  fun m => (Ok (forward_fn m _input), [VForward _input], m).

(** Lines 235-244: the body of the loop over the data source. *)
Definition validate_batch (logger : MetricLogger F) (data : Data)
  : V (MetricLogger F) :=
  emit (VGetData data) ;;
  let '(_input, _label) := get_data_fn data in
  _output <- call_forward _input ;;
  emit VLoss ;;
  let loss := loss_fn _input _label _output in
  emit VAccuracy ;;
  let '(acc1, acc5) := accuracy_fn _output _label in
  let batch_size := label_size _label in
  ret (log_batch logger loss acc1 acc5 batch_size).

(** [validate].  The progress header and [log_every] only print. *)
Definition validate (loader : list Data) (writer : bool) (main_tag : string)
    (_epoch : option Z) : V (F * F) :=
  module_eval ;;
  logger <- foldM validate_batch loader (new_MetricLogger default_window) ;;
  loss <- lift (global_avg (meter_loss logger)) ;;
  acc <- lift (global_avg (meter_top1 logger)) ;;
  match _epoch with
  | Some global_step =>
      whenM (writer && negb (String.eqb main_tag ""))
        (emit (VAddScalars Loss loss global_step) ;;
         emit (VAddScalars Acc acc global_step))
  | None => ret tt
  end ;;
  ret (loss, acc).

(** *** The lifetime averages, in the words of the specification *)

(** Loss, top-1 accuracy and size of a batch, as the model [m] sees
    it. *)
Definition batch_summary (m : Module) (data : Data) : F * F * Z :=
  let '(_input, _label) := get_data_fn data in
  let _output := forward_fn m _input in
  (loss_fn _input _label _output, fst (accuracy_fn _output _label),
   label_size _label).

Definition is_VGetData (ev : VEvent) : bool :=
  match ev with VGetData _ => true | _ => false end.
End Validate.

Arguments VModuleEval {F Data Input}.
Arguments VGetData {F Data Input} data.
Arguments VForward {F Data Input} _input.
Arguments VLoss {F Data Input}.
Arguments VAccuracy {F Data Input}.
Arguments VAddScalars {F Data Input} kind value global_step.
Arguments is_VGetData {F Data Input} ev.

Section Averages.
Context {F : Type} `{FloatOps F}.

(** One more batch in the sum of value * size, and in the number of
    samples. *)
Definition add_value (acc : F) (vw : F * Z) : F :=
  fadd acc (fmul (fst vw) (of_int (snd vw))).

Definition add_weight (acc : Z) (vw : F * Z) : Z := acc + snd vw.

(** Sum over the batches of value * size. *)
Definition weighted_sum (l : list (F * Z)) : F := fold_left add_value l fzero.

(** Total number of samples. *)
Definition total_samples (l : list (F * Z)) : Z := fold_left add_weight l 0.

(** Weighted sum / total samples; no value when there is no sample. *)
Definition weighted_average (l : list (F * Z)) : result F :=
  if total_samples l =? 0 then Raise ZeroDivisionError
  else Ok (fdiv (weighted_sum l) (of_int (total_samples l))).

(** The losses, and the top-1 accuracies, of batches summarised as
    (loss, top-1 accuracy, size), each with the size of its batch. *)
Definition losses (l : list (F * F * Z)) : list (F * Z) :=
  map (fun b => (fst (fst b), snd b)) l.

Definition top1s (l : list (F * F * Z)) : list (F * Z) :=
  map (fun b => (snd (fst b), snd b)) l.

Definition lifetime_averages (l : list (F * F * Z)) : result (F * F) :=
  match weighted_average (losses l) with
  | Ok loss =>
      match weighted_average (top1s l) with
      | Ok acc => Ok (loss, acc)
      | Raise e => Raise e
      end
  | Raise e => Raise e
  end.
End Averages.

(** ** The calls of the pieces of an epoch

    Each piece of an epoch makes calls that do not depend on the state it
    is started in; they are named here. *)

Section Pieces.
Context {F : Type} `{FloatOps F}.
Variable default_window : option nat.
Variable h : Hooks F.
Variable c : Config.
Variables (amp_on : bool) (len_loader_train total_iter : Z).

Definition batch_events (_epoch i : Z) : list (Event F) :=
  trace (train_batch h c amp_on len_loader_train total_iter _epoch
           (new_MetricLogger None) (i, 0)) 0%nat.

Definition begin_events (_epoch : Z) : list (Event F) :=
  trace (epoch_begin c _epoch) 0%nat.

Definition end_events (_epoch : Z) (logger : MetricLogger F) : list (Event F) :=
  trace (epoch_end c _epoch logger) 0%nat.

(** The metrics after batch [fst ib], of size [snd ib]. *)
Definition log_step (_epoch : Z) (logger : MetricLogger F) (ib : Z * Z)
  : MetricLogger F :=
  let '(loss, acc1, acc5) := batch_stats h _epoch (fst ib) in
  log_batch logger loss acc1 acc5 (snd ib).

(** The metrics at the end of the batch loop of an epoch. *)
Definition epoch_logger (_epoch : Z) : MetricLogger F :=
  fold_left (log_step _epoch) (enumerate (loader_train c))
    (new_MetricLogger default_window).

Definition work_events (_epoch : Z) : list (Event F) :=
  begin_events _epoch ++
  flat_map (fun ib => batch_events _epoch (fst ib)) (enumerate (loader_train c)) ++
  end_events _epoch (epoch_logger _epoch).
End Pieces.

(** ** Views of a run of [train] *)

Section Views.
Context {F : Type}.

Definition is_validate (ev : Event F) : bool :=
  match ev with EvValidate _ _ _ => true | _ => false end.

Definition is_save (ev : Event F) : bool :=
  match ev with EvSave => true | _ => false end.

(** The calls of [validate_fn] and [save_fn]. *)
Definition is_checkpoint_event (ev : Event F) : bool :=
  is_validate ev || is_save ev.

(** The calls on the EMA tracker. *)
Definition is_ema_event (ev : Event F) : bool :=
  match ev with EvEmaUpdate | EvEmaReset => true | _ => false end.

Definition is_after_loss (ev : Event F) : bool :=
  match ev with EvAfterLoss _ _ _ => true | _ => false end.

Definition is_scheduler_step (ev : Event F) : bool :=
  match ev with EvSchedulerStep => true | _ => false end.

(** The call that opens a batch. *)
Definition is_get_data (ev : Event F) : bool :=
  match ev with EvGetData => true | _ => false end.

(** The calls only a training epoch makes before its first batch: the
    epoch hook and [activate_params(module, params)]. *)
Definition is_epoch_head (ev : Event F) : bool :=
  match ev with EvEpochFn _ | EvActivateParams true => true | _ => false end.

(** The landmarks of the batch loop and what it does at them: the head
    of an epoch, the start of a batch, the calls on the EMA tracker and
    of the post-loss hook. *)
Definition is_batch_view (ev : Event F) : bool :=
  is_ema_event ev || is_after_loss ev || is_epoch_head ev || is_get_data ev.

(** What places the calls on the EMA tracker in a run: the head of each
    epoch, the start of each batch and those calls. *)
Definition is_ema_view (ev : Event F) : bool :=
  is_epoch_head ev || is_get_data ev || is_ema_event ev.

(** The calls made from inside the epoch loop, or on the schedule: all
    but the creation of the loss scaler, the validation that precedes
    training and the last [module.zero_grad()]. *)
Definition is_epoch_event (ev : Event F) : bool :=
  match ev with
  | EvGradScaler | EvModuleZeroGrad => false
  | EvValidate with_module _ _ => with_module
  | _ => true
  end.

(** The calls that exist only under mixed precision: on the loss scaler,
    or with [amp=True]. *)
Definition is_amp_event (ev : Event F) : bool :=
  match ev with
  | EvGradScaler | EvUnscale | EvScalerStep | EvScalerUpdate => true
  | EvBackward scaled => scaled
  | EvForward amp | EvLoss amp | EvAfterLoss amp _ _ => amp
  | _ => false
  end.
End Views.

(** The training source holds a sample, and a configured EMA tracker has
    a stride: what a run needs to get past [global_avg] and
    [i % model_ema_steps]. *)
Definition sum_sizes (l : list Z) : Z := fold_left Z.add l 0.

Definition well_formed (c : Config) : Prop :=
  sum_sizes (loader_train c) <> 0 /\
  (model_ema c = true -> model_ema_steps c <> 0).

(** The epochs of a run, [resume + 1 .. epochs]. *)
Definition epochs_run (c : Config) : list Z := range (resume c + 1) (epochs c + 1).

(** Spec 4.4, step 8: the epochs that close with a validation. *)
Definition validates_after (c : Config) (e : Z) : bool :=
  negb (validate_interval c =? 0) &&
  ((e mod validate_interval c =? 0) || (e =? epochs c)).

(** ** The calls [train] makes before its first epoch *)

Section Prelude.
Context {F : Type}.

(** Lines 56-65: the loss scaler and the validation that precedes
    training. *)
Definition prelude_events (c : Config) : list (Event F) :=
  (if amp_enabled c then [EvGradScaler] else []) ++
  (if validate_interval c =? 0 then []
   else [EvValidate false false (start_epoch c)]).

(** Lines 73-75. *)
Definition resume_events (c : Config) : list (Event F) :=
  if negb (resume c =? 0) && lr_scheduler c
  then repeat EvSchedulerStep (Z.to_nat (resume c))
  else [].

(** The local [best_acc] is assigned whenever a checkpoint reads it. *)
Definition best_bound (c : Config) (best_acc : option F) : Prop :=
  validate_interval c <> 0 -> best_acc <> None.
End Prelude.

(** ** The locals of [train] when the epoch loop starts *)

(** [len_loader_train] and [total_iter], lines 70-71. *)
Definition len_train (c : Config) : Z := Z.of_nat (List.length (loader_train c)).

Definition total_iterations (c : Config) : Z := (epochs c - resume c) * len_train c.

(** [best_acc] after lines 61-65, when [validate_fn] had been called [n]
    times before, and the number of its calls then. *)
Definition first_best {F : Type} (h : Hooks F) (c : Config) (n : nat) : option F :=
  if validate_interval c =? 0 then None else Some (snd (validate_fn h n)).

Definition first_calls (c : Config) (n : nat) : nat :=
  if validate_interval c =? 0 then n else S n.

(** ** The checkpoint policy, in the words of the specification *)

Section Policy.
Context {F : Type} `{FloatOps F}.
Variable h : Hooks F.
Variable c : Config.

(** Spec 4.4, step 8, over the epochs [es]: an epoch that validates
    calls [validate_fn]; when the accuracy it returns is [>=] the best so
    far, it becomes the best so far and, if saving is on, [save_fn] is
    called.  Returns the calls, the last best and the number of calls of
    [validate_fn]. *)
Fixpoint checkpoint_policy (es : list Z) (best : F) (n : nat)
  : list (Event F) * F * nat :=
  match es with
  | [] => ([], best, n)
  | e :: es' =>
      if validates_after c e then
        let cur := snd (validate_fn h n) in
        let improved := fge cur best in
        let '(t, b, n') :=
          checkpoint_policy es' (if improved then cur else best) (S n) in
        (EvValidate true (writer c) (e + start_epoch c) ::
         (if improved && save c then [EvSave] else []) ++ t, b, n')
      else checkpoint_policy es' best n
  end.
End Policy.

(** The periodic checkpoints, counted from [k + 1], at which [save_fn] was
    called. *)
Fixpoint saved_at {F : Type} (t : list (Event F)) (k : nat) : list nat :=
  match t with
  | [] => []
  | EvValidate true _ _ :: t' => saved_at t' (S k)
  | EvSave :: t' => k :: saved_at t' k
  | _ :: t' => saved_at t' k
  end.

(** The validation that precedes training. *)
Definition is_first_validate {F : Type} (ev : Event F) : bool :=
  match ev with EvValidate false _ _ => true | _ => false end.

(** The validations that close an epoch. *)
Definition is_periodic_validate {F : Type} (ev : Event F) : bool :=
  match ev with EvValidate true _ _ => true | _ => false end.

(** The same call with another value for [amp]. *)
Definition with_amp (c : Config) (b : bool) : Config :=
  {| epochs := epochs c;
     lr_scheduler := lr_scheduler c;
     lr_warmup_epochs := lr_warmup_epochs c;
     model_ema := model_ema c;
     model_ema_steps := model_ema_steps c;
     grad_clip := grad_clip c;
     pre_conditioner := pre_conditioner c;
     start_epoch := start_epoch c;
     resume := resume c;
     validate_interval := validate_interval c;
     save := save c;
     amp := b;
     loader_train := loader_train c;
     epoch_fn := epoch_fn c;
     after_loss_fn := after_loss_fn c;
     writer := writer c;
     verbose := verbose c;
     change_train_eval := change_train_eval c;
     lr_scheduler_freq := lr_scheduler_freq c;
     num_gpus := num_gpus c |}.

(** ** Concrete calls *)

Module Demo.
(** Four epochs over three batches, validated and saved after every
    epoch; mixed precision asked for on a machine without GPU. *)
Definition config : Config :=
  {| epochs := 4;
     lr_scheduler := true;
     lr_warmup_epochs := 1;
     model_ema := true;
     model_ema_steps := 2;
     grad_clip := false;
     pre_conditioner := false;
     start_epoch := 0;
     resume := 0;
     validate_interval := 1;
     save := true;
     amp := true;
     loader_train := [8; 8; 4];
     epoch_fn := true;
     after_loss_fn := true;
     writer := false;
     verbose := true;
     change_train_eval := true;
     lr_scheduler_freq := "epochs";
     num_gpus := 0 |}.

(** [validate_fn] answers with the accuracies of [accs], in turn. *)
Definition hooks (accs : list Q) : Hooks Q :=
  {| validate_fn := fun n => (1#2, nth n accs 0)%Q;
     batch_stats := fun _ _ => (1#2, 50#1, 90#1)%Q |}.

(** The model is worse before training than after the first epoch. *)
Definition improving : Hooks Q := hooks [10#1; 70#1; 65#1; 80#1; 75#1]%Q.

(** A pretrained model: better before training than ever after. *)
Definition pretrained : Hooks Q := hooks [90#1; 70#1; 65#1; 80#1; 75#1]%Q.

(** One epoch over a source of one batch. *)
Definition single_batch : Config :=
  {| epochs := 1;
     lr_scheduler := false;
     lr_warmup_epochs := 0;
     model_ema := false;
     model_ema_steps := 32;
     grad_clip := false;
     pre_conditioner := false;
     start_epoch := 0;
     resume := 0;
     validate_interval := 10;
     save := false;
     amp := false;
     loader_train := [16];
     epoch_fn := false;
     after_loss_fn := true;
     writer := false;
     verbose := false;
     change_train_eval := true;
     lr_scheduler_freq := "epochs";
     num_gpus := 1 |}.

(** Two epochs over seventy batches with an EMA tracker of stride 32 and
    one epoch of warmup. *)
Definition ema_config : Config :=
  {| epochs := 2;
     lr_scheduler := true;
     lr_warmup_epochs := 1;
     model_ema := true;
     model_ema_steps := 32;
     grad_clip := true;
     pre_conditioner := false;
     start_epoch := 0;
     resume := 0;
     validate_interval := 0;
     save := false;
     amp := true;
     loader_train := repeat 16 70;
     epoch_fn := false;
     after_loss_fn := false;
     writer := true;
     verbose := false;
     change_train_eval := true;
     lr_scheduler_freq := "step";
     num_gpus := 2 |}.

(** Training resumed after epoch 2 of 5. *)
Definition resumed : Config :=
  {| epochs := 5;
     lr_scheduler := true;
     lr_warmup_epochs := 0;
     model_ema := false;
     model_ema_steps := 32;
     grad_clip := false;
     pre_conditioner := true;
     start_epoch := 0;
     resume := 2;
     validate_interval := 2;
     save := true;
     amp := false;
     loader_train := [32; 32];
     epoch_fn := true;
     after_loss_fn := false;
     writer := true;
     verbose := false;
     change_train_eval := true;
     lr_scheduler_freq := "epochs";
     num_gpus := 1 |}.

(** A call that asks for no epoch. *)
Definition idle : Config :=
  {| epochs := 0;
     lr_scheduler := true;
     lr_warmup_epochs := 0;
     model_ema := true;
     model_ema_steps := 32;
     grad_clip := true;
     pre_conditioner := false;
     start_epoch := 0;
     resume := 0;
     validate_interval := 10;
     save := true;
     amp := true;
     loader_train := [8; 8; 4];
     epoch_fn := true;
     after_loss_fn := true;
     writer := true;
     verbose := true;
     change_train_eval := true;
     lr_scheduler_freq := "epochs";
     num_gpus := 1 |}.

(** One epoch over a source without batches. *)
Definition empty_source : Config :=
  {| epochs := 1;
     lr_scheduler := false;
     lr_warmup_epochs := 0;
     model_ema := false;
     model_ema_steps := 32;
     grad_clip := false;
     pre_conditioner := false;
     start_epoch := 0;
     resume := 0;
     validate_interval := 1;
     save := true;
     amp := false;
     loader_train := [];
     epoch_fn := false;
     after_loss_fn := false;
     writer := false;
     verbose := false;
     change_train_eval := true;
     lr_scheduler_freq := "epochs";
     num_gpus := 1 |}.

(** One epoch with an EMA tracker of stride 0. *)
Definition zero_stride : Config :=
  {| epochs := 1;
     lr_scheduler := false;
     lr_warmup_epochs := 0;
     model_ema := true;
     model_ema_steps := 0;
     grad_clip := false;
     pre_conditioner := false;
     start_epoch := 0;
     resume := 0;
     validate_interval := 1;
     save := true;
     amp := false;
     loader_train := [8; 8];
     epoch_fn := false;
     after_loss_fn := false;
     writer := false;
     verbose := false;
     change_train_eval := true;
     lr_scheduler_freq := "epochs";
     num_gpus := 1 |}.
End Demo.

Module DemoValidate.
(** A model of one parameter over batches of numbers: a batch is the
    list of its samples, the loss is the parameter, the accuracies are
    constants. *)
Definition get_data_fn (data : list Z) : list Z * list Z := (data, data).
Definition forward_fn (m : Module Q) (_input : list Z) : Q := params m.
Definition loss_fn (_input _label : list Z) (_output : Q) : Q := _output.
Definition accuracy_fn (_output : Q) (_label : list Z) : Q * Q := (50#1, 90#1)%Q.
Definition label_size (_label : list Z) : Z := Z.of_nat (List.length _label).

Definition model : Module Q := {| params := (1#4)%Q; training := true |}.
Definition loader : list (list Z) := [[1; 2; 3]; [4; 5]].

Definition run (window : option nat) :=
  validate get_data_fn forward_fn loss_fn accuracy_fn label_size window
    loader false "valid" None.

(** The batches of [loader] as [model] sees them in inference mode. *)
Definition summaries : list (Q * Q * Z) :=
  map (batch_summary get_data_fn forward_fn loss_fn accuracy_fn label_size
         (eval_mode model)) loader.
End DemoValidate.

(** ** Further views of a run of [train] *)

Section MoreViews.
Context {F : Type}.

(** What a validation checkpoint can call. *)
Definition is_checkpoint_call (ev : Event F) : bool :=
  match ev with
  | EvValidate _ _ _ | EvSave | EvPrintBest _ _ | EvPrintRule => true
  | _ => false
  end.

(** The updates of the parameters: [optimizer.step()], or
    [scaler.step(optimizer)] under mixed precision. *)
Definition is_param_update (ev : Event F) : bool :=
  match ev with EvOptimizerStep | EvScalerStep => true | _ => false end.

(** The calls on the curvature estimator. *)
Definition is_preconditioner_call (ev : Event F) : bool :=
  match ev with
  | EvTrackEnable | EvTrackDisable | EvPreconditionerStep => true
  | _ => false
  end.

(** What a batch does between its loss and the update of the parameters
    under mixed precision. *)
Definition is_scaler_protocol (ev : Event F) : bool :=
  match ev with
  | EvBackward _ | EvUnscale | EvAfterLoss _ _ _ | EvClipGrad
  | EvScalerStep | EvScalerUpdate | EvOptimizerStep => true
  | _ => false
  end.


Definition is_add_scalars (ev : Event F) : bool :=
  match ev with EvAddScalars _ _ _ => true | _ => false end.
End MoreViews.

(** Loss, top-1 accuracy and size of the batches of epoch [_epoch]. *)
Definition epoch_stats {F : Type} (h : Hooks F) (c : Config) (_epoch : Z)
  : list (F * F * Z) :=
  map (fun ib => (fst (fst (batch_stats h _epoch (fst ib))),
                  snd (fst (batch_stats h _epoch (fst ib))),
                  snd ib))
    (enumerate (loader_train c)).

(** ** The compare loop *)

Section Compare.
Context {F : Type} `{FloatOps F}.
Variables Data Input Label Output Params : Type.

Variable get_data_fn : Data -> Input * Label.            (* get_data_fn(data, **kwargs) *)
Variable forward1 : Module Params -> Input -> Output.    (* module1(_input) *)
Variable forward2 : Module Params -> Input -> Output.    (* module2(_input) *)
(** [_output2.softmax()] is called without a dimension; whether the
    tensor library accepts that is left open: the call returns or
    raises. *)
Variable softmax : Output -> result Output.
Variable criterion : Output -> Output -> F.              (* criterion(_output1, ...).item() *)
Variable label_size : Label -> Z.                        (* int(_label.size(0)) *)

Variable default_window : option nat.

Inductive CEvent : Type :=
| CModuleEval (second : bool)                            (* module1.eval() / module2.eval() *)
| CGetData (data : Data)
| CForward (second : bool) (_input : Input)
| CSoftmax
| CCriterion.

(** The state [compare] can change: the two models. *)
Definition C : Type -> Type := M (Module Params * Module Params) CEvent.

Definition module1_eval : C unit :=
  fun s => (Ok tt, [CModuleEval false], (eval_mode (fst s), snd s)).

Definition module2_eval : C unit :=
  fun s => (Ok tt, [CModuleEval true], (fst s, eval_mode (snd s))).

Definition call_module1 (_input : Input) : C Output :=
  fun s => (Ok (forward1 (fst s) _input), [CForward false _input], s).

Definition call_module2 (_input : Input) : C Output :=
  fun s => (Ok (forward2 (snd s) _input), [CForward true _input], s).

Definition call_softmax (_output : Output) : C Output :=
  fun s => (softmax _output, [CSoftmax], s).

(** Lines 282-287: the body of the loop over the data source. *)
Definition compare_batch (meter : SmoothedValue F) (data : Data)
  : C (SmoothedValue F) :=
  emit (CGetData data) ;;
  let '(_input, _label) := get_data_fn data in
  _output1 <- call_module1 _input ;;
  _output2 <- call_module2 _input ;;
  target <- call_softmax _output2 ;;
  emit CCriterion ;;
  let loss := criterion _output1 target in
  let batch_size := label_size _label in
  ret (update meter loss batch_size).

(** [compare].  Its logger has the one meter [loss]; the progress header
    and [log_every] only print. *)
Definition compare (loader : list Data) : C F :=
  module1_eval ;;
  module2_eval ;;
  meter <- foldM compare_batch loader (new_SmoothedValue default_window) ;;
  lift (global_avg meter).

Definition is_CCriterion (ev : CEvent) : bool :=
  match ev with CCriterion => true | _ => false end.
End Compare.

Arguments CModuleEval {Data Input} second.
Arguments CGetData {Data Input} data.
Arguments CForward {Data Input} second _input.
Arguments CSoftmax {Data Input}.
Arguments CCriterion {Data Input}.
Arguments is_CCriterion {Data Input} ev.

Section Divergence.
Context {F : Type} `{FloatOps F}.
Variables Data Input Label Output Params : Type.
Variable get_data_fn : Data -> Input * Label.
Variable forward1 : Module Params -> Input -> Output.
Variable forward2 : Module Params -> Input -> Output.
Variable criterion : Output -> Output -> F.
Variable label_size : Label -> Z.

(** The criterion between the output of the first model and the
    normalised output [soft] of the second on a batch, with the size of
    the batch. *)
Definition batch_divergence (soft : Output -> Output)
    (s : Module Params * Module Params) (data : Data) : F * Z :=
  let '(_input, _label) := get_data_fn data in
  (criterion (forward1 (fst s) _input) (soft (forward2 (snd s) _input)),
   label_size _label).
End Divergence.

(** * Image folders ([trojanvision/datasets/imageset.py]) *)

(** ** Python dictionaries, lists and strings

    A [dict] keeps its items in insertion order; assigning to a key that
    is present replaces its value in place. *)

Section Dict.
Variables K V : Type.
Variable eqb : K -> K -> bool.

Definition dict : Type := list (K * V).

Fixpoint dict_set (d : dict) (k : K) (v : V) : dict :=
  match d with
  | [] => [(k, v)]
  | (k', v') :: r =>
      if eqb k' k then (k', v) :: r else (k', v') :: dict_set r k v
  end.

(** [d[k]]; [None] stands for [KeyError]. *)
Fixpoint dict_get (d : dict) (k : K) : option V :=
  match d with
  | [] => None
  | (k', v) :: r => if eqb k' k then Some v else dict_get r k
  end.

(** [{k: v for k, v in items}] *)
Definition dict_of_items (items : list (K * V)) : dict :=
  fold_left (fun d kv => dict_set d (fst kv) (snd kv)) items [].
End Dict.

(** [str(i)] of an integer: its decimal numeral, with a sign when negative *)
Definition str (i : Z) : string := NilZero.string_of_int (Z.to_int i).

(** The position [l[i]] names in a list: negative indices count from the
    end; [None] stands for [IndexError]. *)
Definition py_index {A} (l : list A) (i : Z) : option nat :=
  let n := Z.of_nat (List.length l) in
  if (0 <=? i) && (i <? n) then Some (Z.to_nat i)
  else if (- n <=? i) && (i <? 0) then Some (Z.to_nat (n + i))
  else None.

(** [l[k] = x] at a position of the list *)
Fixpoint set_nth {A} (k : nat) (x : A) (l : list A) : list A :=
  match l, k with
  | [], _ => []
  | _ :: r, O => x :: r
  | a :: r, S k' => a :: set_nth k' x r
  end.

(** ** [ImageSet.get_class_to_idx] and [ImageSet.make_folder]

    A path is kept as the list of the components handed to
    [os.path.join], which is not evaluated.  The file system is the
    operating system's: [os.path.exists], [os.makedirs] and [Image.save]
    are its operations and are taken to return. *)

Definition path : Type := list string.

Inductive lookup_error : Type :=
| KeyError (key : Z)
| IndexError (index : Z).

Section MakeFolder.
Variables Image FS : Type.
Variable path_exists : FS -> path -> bool.
Variable makedirs : FS -> path -> FS.
Variable image_save : FS -> Image -> path -> FS.

(** The attributes of the data set that [make_folder] reads.
    [class_to_idx] is [None] when the object has no such attribute. *)
Record ImageSet : Type := {
  name : string;
  folder_path : string;
  num_classes : Z;
  valid_set : bool;
  class_to_idx : option (dict string Z);
  get_org_dataset : string -> list (Image * Z)
}.

Inductive FEvent : Type :=
| FMakedirs (_dir : path)
| FSave (image : Image) (file : path).

Variable self : ImageSet.

Definition get_class_to_idx : dict string Z :=
  match class_to_idx self with
  | Some d => d
  | None =>
      dict_of_items String.eqb
        (map (fun i => (str i, i)) (range 0 (num_classes self)))
  end.

(** The body of the loop over one data set, from its counters
    [class_counters] and file system [w] on: the error that stopped it, if
    any, the calls on the file system, and the file system reached. *)
Fixpoint save_images (img_type mode : string) (idx_to_class : dict Z string)
    (dataset : list (Image * Z)) (class_counters : list Z) (w : FS)
    : option lookup_error * list FEvent * FS :=
  match dataset with
  | [] => (None, [], w)
  | (image, target_class) :: rest =>
      match dict_get Z.eqb idx_to_class target_class with
      | None => (Some (KeyError target_class), [], w)
      | Some class_name =>
          let _dir := [folder_path self; name self; mode; class_name] in
          let '(t1, w1) :=
            if path_exists w _dir then ([], w)
            else ([FMakedirs _dir], makedirs w _dir) in
          match py_index class_counters target_class with
          | None => (Some (IndexError target_class), t1, w1)
          | Some k =>
              let counter := nth k class_counters 0 in
              let file := _dir ++ [(str counter ++ img_type)%string] in
              let '(e, t2, w2) :=
                save_images img_type mode idx_to_class rest
                  (set_nth k (counter + 1) class_counters)
                  (image_save w1 image file) in
              (e, t1 ++ FSave image file :: t2, w2)
          end
      end
  end.

Fixpoint save_modes (img_type : string) (idx_to_class : dict Z string)
    (mode_list : list string) (w : FS)
    : option lookup_error * list FEvent * FS :=
  match mode_list with
  | [] => (None, [], w)
  | mode :: rest =>
      let dataset := get_org_dataset self mode in
      let class_counters := repeat 0 (Z.to_nat (num_classes self)) in
      match save_images img_type mode idx_to_class dataset class_counters w with
      | (Some e, t, w1) => (Some e, t, w1)
      | (None, t, w1) =>
          let '(e, t2, w2) := save_modes img_type idx_to_class rest w1 in
          (e, t ++ t2, w2)
      end
  end.

Definition mode_list : list string :=
  if valid_set self then ["train"; "valid"]%string else ["train"]%string.

Definition idx_to_class : dict Z string :=
  dict_of_items Z.eqb (map (fun kv => (snd kv, fst kv)) get_class_to_idx).

Definition make_folder (img_type : string) (w : FS)
    : option lookup_error * list FEvent * FS :=
  save_modes img_type idx_to_class mode_list w.

(** The files written, in order. *)
Definition saved_files (t : list FEvent) : list path :=
  flat_map (fun ev => match ev with FSave _ file => [file] | _ => [] end) t.

(** The images written with their files, in order. *)
Definition saved_images (t : list FEvent) : list (Image * path) :=
  flat_map (fun ev => match ev with FSave image file => [(image, file)] | _ => [] end) t.

(** What the numbering of [make_folder] comes to: every image goes to the
    directory named after its class, under the number of images of that
    class before it in the data set. *)
Fixpoint numbered (img_type mode : string) (seen : list Z)
    (dataset : list (Image * Z)) : list (Image * path) :=
  match dataset with
  | [] => []
  | (image, target_class) :: rest =>
      (image,
       [folder_path self; name self; mode; str target_class;
        (str (Z.of_nat (count_occ Z.eq_dec seen target_class)) ++ img_type)%string])
      :: numbered img_type mode (target_class :: seen) rest
  end.
End MakeFolder.

(** * The documented version ([docs/source/conf.py]) *)

(** [s.find(sub)]: the least index at which [sub] occurs in [s], or -1 *)
Definition str_find (s sub : string) : Z :=
  match index 0 sub s with
  | Some k => Z.of_nat k
  | None => -1
  end.

(** [s[:stop]]: a negative [stop] counts from the end, and the bound is
    clipped to the string. *)
Definition slice_to (s : string) (stop : Z) : string :=
  let n := Z.of_nat (String.length s) in
  let stop' := if stop <? 0 then Z.max 0 (stop + n) else Z.min stop n in
  substring 0 (Z.to_nat stop') s.

Definition version (release : string) : string :=
  if str_find release "a" =? -1 then release
  else slice_to release (str_find release "a").

Module DemoFolder.
(** A file system that is the list of the paths made so far; images are
    known by their names. *)
Definition FS : Type := list path.
Definition path_eqb (p q : path) : bool :=
  if list_eq_dec string_dec p q then true else false.
Definition path_exists (w : FS) (p : path) : bool := existsb (path_eqb p) w.
Definition makedirs (w : FS) (_dir : path) : FS := _dir :: w.
Definition image_save (w : FS) (image : string) (file : path) : FS := file :: w.

(** Three classes without names, four images. *)
Definition digits : ImageSet string :=
  {| name := "digits";
     folder_path := "/data";
     num_classes := 3;
     valid_set := true;
     class_to_idx := None;
     get_org_dataset := fun mode =>
       if String.eqb mode "train"
       then [("a", 1); ("b", 0); ("c", 1)]%string
       else [("d", 2)]%string |}.

(** The same, with the second training image of a class that does not
    exist. *)
Definition mislabelled : ImageSet string :=
  {| name := "digits";
     folder_path := "/data";
     num_classes := 3;
     valid_set := true;
     class_to_idx := None;
     get_org_dataset := fun mode =>
       if String.eqb mode "train"
       then [("a", 1); ("b", 7); ("c", 1)]%string
       else [("d", 2)]%string |}.

(** Two named classes, no validation set. *)
Definition pets : ImageSet string :=
  {| name := "pets";
     folder_path := "/data";
     num_classes := 2;
     valid_set := false;
     class_to_idx := Some [("cat", 0); ("dog", 1)]%string;
     get_org_dataset := fun _ => [("a", 1); ("b", 0); ("c", 1)]%string |}.
End DemoFolder.

Module DemoCompare.
(** Two models of one parameter: the first answers with its parameter,
    the second with the square of its own; the criterion is their
    difference. *)
Definition forward1 (m : Module Q) (_input : list Z) : Q := params m.
Definition forward2 (m : Module Q) (_input : list Z) : Q := (params m * params m)%Q.
Definition criterion (_output1 _output2 : Q) : Q := (_output1 - _output2)%Q.

(** A normalisation that returns its argument, and one that fails. *)
Definition softmax (_output : Q) : result Q := Ok _output.
Definition failing (_output : Q) : result Q := Raise ZeroDivisionError.

Definition models : Module Q * Module Q :=
  ({| params := (3#4)%Q; training := true |},
   {| params := (1#2)%Q; training := true |}).
End DemoCompare.

(** * Properties *)

(** ** Facts about the monad *)

Section MonadFacts.
Variables St Ev : Type.

Lemma bind_ok {A B} (m : M St Ev A) (f : A -> M St Ev B) s a t1 s1 :
  m s = (Ok a, t1, s1) ->
  bind m f s = (let '(r, t2, s2) := f a s1 in (r, t1 ++ t2, s2)).
Proof. intros E. unfold bind. rewrite E. reflexivity. Qed.

Lemma trace_bind {A B} (m : M St Ev A) (f : A -> M St Ev B) s :
  trace (bind m f) s =
  trace m s ++ match res m s with
               | Ok a => trace (f a) (final m s)
               | Raise _ => []
               end.
Proof.
  unfold trace, res, final, bind.
  destruct (m s) as [[[a|e] t1] s1]; simpl.
  - destruct (f a s1) as [[r t2] s2]; reflexivity.
  - symmetry; apply app_nil_r.
Qed.

(** Whatever holds of every call a loop body makes holds of every call
    the loop makes, whether or not it runs to its end. *)
Lemma foldM_trace_Forall {A S} (Q : Ev -> Prop) (body : S -> A -> M St Ev S) :
  (forall s a st, Forall Q (trace (body s a) st)) ->
  forall l s st, Forall Q (trace (foldM body l s) st).
Proof.
  intros Hb l. induction l as [|a l IH]; intros s st; simpl.
  - constructor.
  - rewrite trace_bind. apply Forall_app. split; [apply Hb|].
    destruct (res (body s a) st); [apply IH | constructor].
Qed.

(** A loop whose body returns, keeps an invariant [I] of the
    loop-carried locals and shows the calls [spec a] through the filter
    [p], returns and shows the calls of its rounds, in order. *)
Lemma foldM_filter {A S} (p : Ev -> bool) (I : S -> Prop) (spec : A -> list Ev)
    (body : S -> A -> M St Ev S) :
  (forall s a st, I s ->
     exists s' t st', body s a st = (Ok s', t, st') /\ I s' /\ filter p t = spec a) ->
  forall l s st, I s ->
    exists s' t st', foldM body l s st = (Ok s', t, st') /\ I s' /\
                     filter p t = flat_map spec l.
Proof.
  intros Hb l. induction l as [|a l IH]; intros s st Hs; simpl.
  - exists s, [], st. auto.
  - destruct (Hb s a st Hs) as (s1 & t1 & st1 & E1 & I1 & F1).
    destruct (IH s1 st1 I1) as (s2 & t2 & st2 & E2 & I2 & F2).
    exists s2, (t1 ++ t2), st2. erewrite bind_ok by eassumption. rewrite E2.
    rewrite filter_app, F1, F2. auto.
Qed.
End MonadFacts.

(** ** Lists, ranges and sums *)

Lemma filter_flat_map {A B} (p : B -> bool) (f : A -> list B) (l : list A) :
  filter p (flat_map f l) = flat_map (fun a => filter p (f a)) l.
Proof.
  induction l as [|a l IH]; simpl; [reflexivity|].
  now rewrite filter_app, IH.
Qed.

Lemma flat_map_nil {A B} (f : A -> list B) (l : list A) :
  (forall a, f a = []) -> flat_map f l = [].
Proof. intros Hf. induction l as [|a l IH]; simpl; [|rewrite Hf, IH]; reflexivity. Qed.

Lemma filter_nil_Forall {A} (p : A -> bool) (l : list A) :
  Forall (fun a => p a = false) l -> filter p l = [].
Proof.
  induction 1 as [|a l Ha _ IH]; simpl; [reflexivity|]. now rewrite Ha.
Qed.

Lemma range_length lo hi : List.length (range lo hi) = Z.to_nat (hi - lo).
Proof. unfold range. now rewrite length_map, length_seq. Qed.

Lemma range_shift lo hi : map (fun e => e + 1) (range lo hi) = range (lo + 1) (hi + 1).
Proof.
  unfold range. rewrite map_map.
  replace (hi + 1 - (lo + 1)) with (hi - lo) by lia.
  apply map_ext. intros n. lia.
Qed.

Lemma range_nil lo hi : hi <= lo -> range lo hi = [].
Proof.
  intros Hle. unfold range. replace (Z.to_nat (hi - lo)) with 0%nat by lia. reflexivity.
Qed.

Lemma range_cons lo hi : lo < hi -> range lo hi = lo :: range (lo + 1) hi.
Proof.
  intros Hlt. unfold range.
  replace (Z.to_nat (hi - lo)) with (S (Z.to_nat (hi - (lo + 1)))) by lia.
  simpl. f_equal; [lia|].
  rewrite <- seq_shift, map_map. apply map_ext. intros n. lia.
Qed.

Lemma range_In lo hi e : In e (range lo hi) <-> lo <= e < hi.
Proof.
  unfold range. rewrite in_map_iff. split.
  - intros (n & <- & Hn). apply in_seq in Hn. lia.
  - intros He. exists (Z.to_nat (e - lo)). split; [lia|]. apply in_seq. lia.
Qed.

Lemma enumerate_from_fst {A} (l : list A) i :
  map fst (enumerate_from i l) = range i (i + Z.of_nat (List.length l)).
Proof.
  revert i. induction l as [|a l IH]; intros i; simpl.
  - rewrite range_nil by lia. reflexivity.
  - rewrite range_cons by lia. f_equal. rewrite IH. f_equal. lia.
Qed.

Lemma enumerate_from_snd {A} (l : list A) i : map snd (enumerate_from i l) = l.
Proof. revert i. induction l as [|a l IH]; intros i; simpl; [|rewrite IH]; reflexivity. Qed.

Lemma fold_add_shift (l : list Z) a : fold_left Z.add l a = a + sum_sizes l.
Proof.
  unfold sum_sizes. revert a. induction l as [|x l IH]; intros a; simpl; [lia|].
  rewrite (IH (a + x)), (IH x). lia.
Qed.

(** ** The pieces of an epoch *)

(** Unfolds a straight-line piece down to its cases. *)
Ltac unfold_piece :=
  cbv beta iota delta
    [trace res final bind ret emit whenM raise lift fst snd
     train_batch epoch_begin epoch_end checkpoint call_validate_fn
     read_local py_mod batch_events begin_events end_events global_avg].

Section PieceFacts.
Context {F : Type} `{FloatOps F}.
Variable default_window : option nat.
Variable h : Hooks F.
Variable c : Config.
Variables (amp_on : bool) (len ti : Z).

Ltac batch_cases e i :=
  destruct (batch_stats h e i) as [[? ?] ?];
  destruct (model_ema c);
  [ destruct (model_ema_steps c =? 0);
    [ | cbv beta iota;
        destruct (i mod model_ema_steps c =? 0), (e <=? lr_warmup_epochs c) ]
  | ];
  destruct (pre_conditioner c), amp_on, (after_loss_fn c), (grad_clip c),
    (lr_scheduler c), (String.eqb (lr_scheduler_freq c) "step").

Lemma train_batch_run e lg i bs n :
  (model_ema c = true -> model_ema_steps c <> 0) ->
  train_batch h c amp_on len ti e lg (i, bs) n =
  (Ok (log_step h e lg (i, bs)), batch_events h c amp_on len ti e i, n).
Proof.
  intros He. unfold log_step. unfold_piece. simpl fst; simpl snd.
  destruct (Z.eqb_spec (model_ema_steps c) 0) as [E|E].
  - destruct (model_ema c) eqn:Em; [now exfalso; apply He|].
    destruct (batch_stats h e i) as [[? ?] ?].
    destruct (pre_conditioner c), amp_on, (after_loss_fn c), (grad_clip c),
      (lr_scheduler c), (String.eqb (lr_scheduler_freq c) "step"); reflexivity.
  - destruct (batch_stats h e i) as [[? ?] ?].
    destruct (model_ema c), (i mod model_ema_steps c =? 0), (e <=? lr_warmup_epochs c),
      (pre_conditioner c), amp_on, (after_loss_fn c), (grad_clip c),
      (lr_scheduler c), (String.eqb (lr_scheduler_freq c) "step"); reflexivity.
Qed.

Lemma batch_no_checkpoint e i :
  filter is_checkpoint_event (batch_events h c amp_on len ti e i) = [].
Proof. unfold_piece. batch_cases e i; reflexivity. Qed.

Lemma batch_no_head e i :
  filter is_epoch_head (batch_events h c amp_on len ti e i) = [].
Proof. unfold_piece. batch_cases e i; reflexivity. Qed.

Lemma batch_after_loss e i :
  filter is_after_loss (batch_events h c amp_on len ti e i) =
  if after_loss_fn c then [EvAfterLoss amp_on (e * len + i) ti] else [].
Proof. unfold_piece. batch_cases e i; reflexivity. Qed.

Lemma batch_ema_view e i :
  model_ema_steps c <> 0 ->
  filter is_ema_view (batch_events h c amp_on len ti e i) =
  EvGetData ::
  (if model_ema c && (i mod model_ema_steps c =? 0)
   then EvEmaUpdate :: (if e <=? lr_warmup_epochs c then [EvEmaReset] else [])
   else []).
Proof.
  intros Hs. apply Z.eqb_neq in Hs. unfold_piece. rewrite Hs.
  destruct (batch_stats h e i) as [[? ?] ?].
  destruct (model_ema c), (i mod model_ema_steps c =? 0), (e <=? lr_warmup_epochs c),
      (pre_conditioner c), amp_on, (after_loss_fn c), (grad_clip c),
      (lr_scheduler c), (String.eqb (lr_scheduler_freq c) "step"); reflexivity.
Qed.

Lemma batch_epoch_events e lg ib n :
  Forall (fun ev => is_epoch_event ev = true)
    (trace (train_batch h c amp_on len ti e lg ib) n).
Proof.
  destruct ib as [i bs]. unfold_piece. batch_cases e i; repeat constructor.
Qed.

Lemma batch_no_amp e lg ib n :
  amp_on = false ->
  Forall (fun ev => is_amp_event ev = false)
    (trace (train_batch h c amp_on len ti e lg ib) n).
Proof.
  intros ->. destruct ib as [i bs]. unfold_piece.
  destruct (batch_stats h e i) as [[? ?] ?].
  destruct (model_ema c);
    [ destruct (model_ema_steps c =? 0);
      [ | cbv beta iota;
          destruct (i mod model_ema_steps c =? 0), (e <=? lr_warmup_epochs c) ]
    | ];
    destruct (pre_conditioner c), (after_loss_fn c), (grad_clip c),
      (lr_scheduler c), (String.eqb (lr_scheduler_freq c) "step");
    repeat constructor.
Qed.

(** *** Head and tail of an epoch *)

Lemma epoch_begin_run e n :
  epoch_begin (F:=F) c e n = (Ok tt, begin_events c e, n).
Proof.
  unfold_piece. destruct (epoch_fn c), (change_train_eval c); reflexivity.
Qed.

Lemma begin_filter (p : Event F -> bool) e :
  p (EvActivateParams false) = false -> p EvModuleTrain = false ->
  filter p (begin_events c e) =
  filter p ((if epoch_fn c then [EvEpochFn e] else []) ++ [EvActivateParams true]).
Proof.
  intros H1 H2. unfold_piece.
  destruct (epoch_fn c), (change_train_eval c); simpl; rewrite ?H1, ?H2; reflexivity.
Qed.

Lemma begin_epoch_events e :
  Forall (fun ev => is_epoch_event ev = true) (begin_events (F:=F) c e).
Proof.
  unfold_piece. destruct (epoch_fn c), (change_train_eval c); repeat constructor.
Qed.

Lemma begin_no_amp e :
  Forall (fun ev => is_amp_event ev = false) (begin_events (F:=F) c e).
Proof.
  unfold_piece. destruct (epoch_fn c), (change_train_eval c); repeat constructor.
Qed.

Ltac end_cases lg :=
  destruct (count (meter_loss lg) =? 0), (count (meter_top1 lg) =? 0),
    (lr_scheduler c), (String.eqb (lr_scheduler_freq c) "epochs"),
    (change_train_eval c), (writer c).

Lemma epoch_end_run e lg n :
  count (meter_loss lg) <> 0 -> count (meter_top1 lg) <> 0 ->
  epoch_end c e lg n = (Ok tt, end_events c e lg, n).
Proof.
  intros H1 H2. apply Z.eqb_neq in H1, H2. unfold_piece. rewrite H1, H2.
  destruct (lr_scheduler c), (String.eqb (lr_scheduler_freq c) "epochs"),
    (change_train_eval c), (writer c); reflexivity.
Qed.

(** The tail of an epoch calls neither [validate_fn], [save_fn], the EMA
    tracker, the post-loss hook nor what heads an epoch. *)
Lemma end_filter (p : Event F -> bool) e lg n :
  (forall ev, p ev = true ->
     is_checkpoint_event ev || is_batch_view ev = true) ->
  filter p (trace (epoch_end c e lg) n) = [].
Proof.
  intros Hp. apply filter_nil_Forall. unfold_piece.
  end_cases lg; repeat constructor;
    match goal with
    | |- p ?ev = false =>
        destruct (p ev) eqn:E; [apply Hp in E; discriminate E | reflexivity]
    end.
Qed.

Lemma end_epoch_events e lg n :
  Forall (fun ev => is_epoch_event ev = true) (trace (epoch_end c e lg) n).
Proof. unfold_piece. end_cases lg; repeat constructor. Qed.

Lemma end_no_amp e lg n :
  Forall (fun ev => is_amp_event ev = false) (trace (epoch_end c e lg) n).
Proof. unfold_piece. end_cases lg; repeat constructor. Qed.
End PieceFacts.

(** ** The validation checkpoint *)

Section CheckpointFacts.
Context {F : Type} `{FloatOps F}.
Variable h : Hooks F.
Variable c : Config.

Lemma checkpoint_skip e best n :
  validates_after c e = false -> checkpoint h c e best n = (Ok best, [], n).
Proof.
  unfold validates_after, checkpoint. intros E.
  destruct (negb (validate_interval c =? 0)); [|reflexivity].
  simpl in E. rewrite E. reflexivity.
Qed.

(** A checkpoint that validates: the accuracy of this call replaces the
    best so far when it is [>=] it, and [save_fn] is then called if
    saving is on. *)
Lemma checkpoint_run e b n :
  validates_after c e = true ->
  let cur := snd (validate_fn h n) in
  exists t,
    checkpoint h c e (Some b) n =
      (Ok (Some (if fge cur b then cur else b)), t, S n) /\
    filter is_checkpoint_event t =
      EvValidate true (writer c) (e + start_epoch c) ::
      (if fge cur b && save c then [EvSave] else []).
Proof.
  intros E. cbv zeta. unfold validates_after in E. unfold_piece.
  destruct (negb (validate_interval c =? 0)); [|discriminate E].
  simpl in E. rewrite E.
  destruct (validate_fn h n) as [l cur]. cbv beta iota.
  destruct (fge cur b), (verbose c), (save c); eexists; split; reflexivity.
Qed.

Lemma checkpoint_filter (p : Event F -> bool) e best n :
  (forall ev, p ev = true ->
     is_batch_view ev = true) ->
  filter p (trace (checkpoint h c e best) n) = [].
Proof.
  intros Hp. apply filter_nil_Forall. unfold_piece.
  destruct (negb (validate_interval c =? 0)),
    ((e mod validate_interval c =? 0) || (e =? epochs c)); cbv beta iota;
    try (constructor; fail).
  destruct (validate_fn h n) as [l cur].
  destruct best as [b|]; cbv beta iota;
    [destruct (fge cur b), (verbose c), (save c)|];
    repeat constructor;
    match goal with
    | |- p ?ev = false =>
        destruct (p ev) eqn:E; [apply Hp in E; discriminate E | reflexivity]
    end.
Qed.

Lemma checkpoint_epoch_events e best n :
  Forall (fun ev => is_epoch_event ev = true) (trace (checkpoint h c e best) n).
Proof.
  unfold_piece.
  destruct (negb (validate_interval c =? 0)),
    ((e mod validate_interval c =? 0) || (e =? epochs c)); cbv beta iota;
    try (constructor; fail).
  destruct (validate_fn h n) as [l cur].
  destruct best as [b|]; cbv beta iota;
    [destruct (fge cur b), (verbose c), (save c)|]; repeat constructor.
Qed.

Lemma checkpoint_no_amp e best n :
  Forall (fun ev => is_amp_event ev = false) (trace (checkpoint h c e best) n).
Proof.
  unfold_piece.
  destruct (negb (validate_interval c =? 0)),
    ((e mod validate_interval c =? 0) || (e =? epochs c)); cbv beta iota;
    try (constructor; fail).
  destruct (validate_fn h n) as [l cur].
  destruct best as [b|]; cbv beta iota;
    [destruct (fge cur b), (verbose c), (save c)|]; repeat constructor.
Qed.
End CheckpointFacts.

(** ** The loops *)

Lemma flat_map_through {A B C} (f : A -> B) (g : B -> list C) (l : list A) :
  flat_map g (map f l) = flat_map (fun a => g (f a)) l.
Proof. induction l as [|a l IH]; simpl; [|rewrite IH]; reflexivity. Qed.

Section LoopFacts.
Context {F : Type} `{FloatOps F}.
Variable default_window : option nat.
Variable h : Hooks F.
Variable c : Config.
Variables (amp_on : bool) (len ti : Z).

Hypothesis Hwf : well_formed c.

Lemma batch_loop_run e l i0 lg n :
  foldM (train_batch h c amp_on len ti e) (enumerate_from i0 l) lg n =
  (Ok (fold_left (log_step h e) (enumerate_from i0 l) lg),
   flat_map (fun ib => batch_events h c amp_on len ti e (fst ib))
     (enumerate_from i0 l),
   n).
Proof.
  revert i0 lg. induction l as [|bs l IH]; intros i0 lg; simpl; [reflexivity|].
  erewrite bind_ok by (apply train_batch_run, Hwf).
  rewrite IH. reflexivity.
Qed.

Lemma log_step_counts e (l : list (Z * Z)) lg :
  count (meter_loss (fold_left (log_step h e) l lg)) =
    count (meter_loss lg) + sum_sizes (map snd l) /\
  count (meter_top1 (fold_left (log_step h e) l lg)) =
    count (meter_top1 lg) + sum_sizes (map snd l).
Proof.
  revert lg. induction l as [|ib l IH]; intros lg; simpl.
  - unfold sum_sizes; simpl; lia.
  - destruct (IH (log_step h e lg ib)) as [-> ->].
    unfold sum_sizes at 2 4. simpl. rewrite (fold_add_shift (map snd l) (snd ib)).
    unfold log_step. destruct (batch_stats h e (fst ib)) as [[? ?] ?].
    simpl. lia.
Qed.

Lemma epoch_logger_counts e :
  count (meter_loss (epoch_logger default_window h c e)) <> 0 /\
  count (meter_top1 (epoch_logger default_window h c e)) <> 0.
Proof.
  unfold epoch_logger, enumerate.
  destruct (log_step_counts e (enumerate_from 0 (loader_train c))
              (new_MetricLogger default_window)) as [-> ->].
  rewrite enumerate_from_snd. simpl. destruct Hwf as [Hs _]. lia.
Qed.

(** An epoch of a well-formed run gets to its checkpoint. *)
Lemma train_epoch_work_run e n :
  train_epoch_work default_window h c amp_on len ti e n =
  (Ok tt, work_events default_window h c amp_on len ti e, n).
Proof.
  unfold train_epoch_work, work_events.
  erewrite bind_ok by apply epoch_begin_run.
  unfold enumerate.
  erewrite bind_ok by apply batch_loop_run.
  destruct (epoch_logger_counts e) as [H1 H2].
  unfold epoch_logger, enumerate in H1, H2 |- *.
  rewrite (epoch_end_run c e _ n H1 H2). reflexivity.
Qed.

Lemma train_epoch_run best e0 n :
  train_epoch default_window h c amp_on len ti best e0 n =
  let '(r, t, n') := checkpoint h c (e0 + 1) best n in
  (r, work_events default_window h c amp_on len ti (e0 + 1) ++ t, n').
Proof.
  unfold train_epoch. erewrite bind_ok by apply train_epoch_work_run.
  reflexivity.
Qed.

(** What an epoch shows, before its checkpoint, through a filter that
    lets pass only calls on the EMA tracker, of the post-loss hook or
    at the head of an epoch. *)
Lemma work_filter (p : Event F -> bool) e :
  (forall ev, p ev = true ->
     is_batch_view ev = true) ->
  filter p (work_events default_window h c amp_on len ti e) =
  filter p ((if epoch_fn c then [EvEpochFn e] else []) ++ [EvActivateParams true]) ++
  flat_map (fun i => filter p (batch_events h c amp_on len ti e i))
    (range 0 (Z.of_nat (List.length (loader_train c)))).
Proof.
  intros Hp. unfold work_events. rewrite !filter_app.
  assert (Hn : forall ev, is_batch_view ev = false ->
                          p ev = false).
  { intros ev E. destruct (p ev) eqn:Ep; [apply Hp in Ep; congruence | reflexivity]. }
  rewrite begin_filter by (apply Hn; reflexivity).
  unfold end_events. rewrite end_filter, app_nil_r.
  - f_equal; [apply filter_app|].
    rewrite filter_flat_map. unfold enumerate.
    change (Z.of_nat (List.length (loader_train c)))
      with (0 + Z.of_nat (List.length (loader_train c))).
    rewrite <- (enumerate_from_fst (loader_train c) 0).
    symmetry.
    apply (@flat_map_through _ _ _ fst
             (fun i => filter p (batch_events h c amp_on len ti e i))).
  - intros ev Ep. apply Hp in Ep.
    destruct (is_ema_event ev), (is_after_loss ev), (is_epoch_head ev),
      (is_checkpoint_event ev); simpl in *; congruence.
Qed.

Lemma work_no_checkpoint e :
  filter is_checkpoint_event (work_events default_window h c amp_on len ti e) = [].
Proof.
  unfold work_events. rewrite !filter_app.
  rewrite begin_filter by reflexivity.
  unfold end_events. rewrite end_filter.
  - rewrite filter_flat_map, flat_map_nil; [|intros ib; apply batch_no_checkpoint].
    destruct (epoch_fn c); reflexivity.
  - intros ev ->. reflexivity.
Qed.
End LoopFacts.

(** ** A run of [train] *)

Lemma Forall_filter_nil {A} (p : A -> bool) (l : list A) :
  filter p l = [] -> Forall (fun a => p a = false) l.
Proof.
  induction l as [|a l IH]; simpl; [constructor|].
  destruct (p a) eqn:E; [discriminate|]. intros Hl. constructor; auto.
Qed.

Section TraceFacts.
Variables St Ev : Type.

Lemma trace_bind_Forall {A B} (Q : Ev -> Prop) (m : M St Ev A)
    (f : A -> M St Ev B) s :
  Forall Q (trace m s) -> (forall a s', Forall Q (trace (f a) s')) ->
  Forall Q (trace (bind m f) s).
Proof.
  intros Hm Hf. rewrite trace_bind. apply Forall_app. split; [exact Hm|].
  destruct (res m s); [apply Hf | constructor].
Qed.

Lemma foldM_emit {A} (ev : Ev) (l : list A) (s : St) :
  foldM (fun _ _ => emit ev) l tt s = (Ok tt, repeat ev (List.length l), s).
Proof.
  induction l as [|a l IH]; simpl; [reflexivity|].
  unfold bind, emit at 1. rewrite IH. reflexivity.
Qed.
End TraceFacts.

Section RunFacts.
Context {F : Type} `{FloatOps F}.
Variable default_window : option nat.
Variable h : Hooks F.
Variable c : Config.

Lemma batch_trace amp_on len ti e lg ib n :
  trace (train_batch h c amp_on len ti e lg ib) n =
  batch_events h c amp_on len ti e (fst ib).
Proof.
  destruct ib as [i bs]. unfold_piece.
  destruct (batch_stats h e i) as [[? ?] ?].
  destruct (model_ema c);
    [ destruct (model_ema_steps c =? 0);
      [ | cbv beta iota;
          destruct (i mod model_ema_steps c =? 0), (e <=? lr_warmup_epochs c) ]
    | ];
    destruct (pre_conditioner c), amp_on, (after_loss_fn c), (grad_clip c),
      (lr_scheduler c), (String.eqb (lr_scheduler_freq c) "step");
    reflexivity.
Qed.

(** What holds of every call of every piece of an epoch holds of every
    call of the epoch loop, however far it gets. *)
Lemma epochs_trace_Forall (Q : Event F -> Prop) amp_on len ti :
  (forall e, Forall Q (begin_events c e)) ->
  (forall e i, Forall Q (batch_events h c amp_on len ti e i)) ->
  (forall e lg n, Forall Q (trace (epoch_end c e lg) n)) ->
  (forall e best n, Forall Q (trace (checkpoint h c e best) n)) ->
  forall l best n,
    Forall Q (trace (foldM (train_epoch default_window h c amp_on len ti) l best) n).
Proof.
  intros Hb Ht He Hc. apply foldM_trace_Forall. intros best e0 n.
  unfold train_epoch. apply trace_bind_Forall; [|intros; apply Hc].
  unfold train_epoch_work. apply trace_bind_Forall.
  - unfold trace. rewrite epoch_begin_run. apply Hb.
  - intros _ n1. apply trace_bind_Forall; [|intros; apply He].
    apply foldM_trace_Forall. intros lg ib n2. rewrite batch_trace. apply Ht.
Qed.

Lemma resume_walk_run n :
  resume_walk (F:=F) c n = (Ok tt, resume_events c, n).
Proof.
  unfold resume_walk, resume_events, whenM.
  destruct (negb (resume c =? 0) && lr_scheduler c); [|reflexivity].
  rewrite foldM_emit, range_length. do 3 f_equal. lia.
Qed.

Lemma first_best_bound n : best_bound c (first_best h c n).
Proof.
  unfold best_bound, first_best. intros Hv. apply Z.eqb_neq in Hv. rewrite Hv. discriminate.
Qed.

(** [train] is its prelude, the resume walk, the epoch loop and the
    last [module.zero_grad()]. *)
Lemma train_run n best t n' :
  0 < epochs c ->
  foldM (train_epoch default_window h c (amp_enabled c) (len_train c)
           (total_iterations c))
    (range (resume c) (epochs c)) (first_best h c n) (first_calls c n) = (Ok best, t, n') ->
  train default_window h c n =
  (Ok best, prelude_events c ++ resume_events c ++ t ++ [EvModuleZeroGrad], n').
Proof.
  intros Hpos Hloop. unfold train. apply Z.leb_gt in Hpos. rewrite Hpos.
  unfold first_best, first_calls, total_iterations, len_train in Hloop. unfold prelude_events.
  unfold bind, whenM, call_validate_fn, emit, ret.
  destruct (amp_enabled c), (validate_interval c =? 0); simpl;
    try destruct (validate_fn h n) as [l a];
    rewrite resume_walk_run; simpl in Hloop |- *; rewrite Hloop;
    rewrite ?app_nil_r; reflexivity.
Qed.

Lemma train_trace_Forall (Q : Event F -> Prop) n :
  Forall Q (prelude_events c) -> Forall Q (resume_events c) ->
  Q EvModuleZeroGrad ->
  (forall l best n1,
     Forall Q (trace (foldM (train_epoch default_window h c (amp_enabled c) (len_train c)
           (total_iterations c))
                        l best) n1)) ->
  Forall Q (trace (train default_window h c) n).
Proof.
  intros Hp Hr Hz Hl. unfold train.
  destruct (epochs c <=? 0); [constructor|].
  unfold prelude_events in Hp. apply Forall_app in Hp. destruct Hp as [Hp1 Hp2].
  apply trace_bind_Forall.
  { unfold whenM. destruct (amp_enabled c); [exact Hp1 | constructor]. }
  intros _ n1. apply trace_bind_Forall.
  { destruct (validate_interval c =? 0); simpl; [constructor|].
    apply trace_bind_Forall; [exact Hp2|].
    intros [l a] n2. constructor. }
  intros b n2. apply trace_bind_Forall.
  { unfold trace. rewrite resume_walk_run. exact Hr. }
  intros _ n3. apply trace_bind_Forall; [apply Hl|].
  intros b' n4. apply trace_bind_Forall; [repeat constructor; exact Hz|].
  intros. constructor.
Qed.
End RunFacts.

(** ** The epoch loop of a well-formed run *)

Section EpochLoop.
Context {F : Type} `{FloatOps F}.
Variable default_window : option nat.
Variable h : Hooks F.
Variable c : Config.
Variables (amp_on : bool) (len ti : Z).

Hypothesis Hwf : well_formed c.

Lemma validates_after_interval e :
  validates_after c e = true -> validate_interval c <> 0.
Proof.
  unfold validates_after. intros E Hv. rewrite Hv in E. discriminate E.
Qed.

Lemma checkpoint_ok e best n :
  best_bound c best ->
  exists best' t n',
    checkpoint h c e best n = (Ok best', t, n') /\ best_bound c best'.
Proof.
  intros Hb. destruct (validates_after c e) eqn:E.
  - destruct best as [b|]; [|exfalso; apply (Hb (validates_after_interval e E)); reflexivity].
    destruct (checkpoint_run h c e b n E) as (t & Ht & _).
    do 3 eexists. split; [exact Ht|]. intros _. discriminate.
  - exists best, [], n. split; [apply checkpoint_skip; exact E | exact Hb].
Qed.

(** The epoch loop of a well-formed run returns, and shows, through a
    filter that lets pass no checkpoint call, what its epochs show
    before their checkpoints. *)
Lemma epochs_filter (p : Event F -> bool) :
  (forall ev, p ev = true ->
     is_batch_view ev = true) ->
  forall l best n, best_bound c best ->
    exists best' t n',
      foldM (train_epoch default_window h c amp_on len ti) l best n =
        (Ok best', t, n') /\
      best_bound c best' /\
      filter p t =
        flat_map (fun e0 =>
                    filter p (work_events default_window h c amp_on len ti (e0 + 1))) l.
Proof.
  intros Hp. apply foldM_filter. intros best e0 n Hb.
  rewrite train_epoch_run by exact Hwf.
  destruct (checkpoint_ok (e0 + 1) n Hb) as (best' & t & n' & Ht & Hb1).
  pose proof (checkpoint_filter h c p (e0 + 1) best n Hp) as Hf.
  unfold trace in Hf. rewrite Ht in *. simpl in Hf.
  exists best', (work_events default_window h c amp_on len ti (e0 + 1) ++ t), n'.
  split; [reflexivity|]. split; [exact Hb1|].
  rewrite filter_app, Hf, app_nil_r. reflexivity.
Qed.

(** The checkpoint calls of the epoch loop are those of the policy. *)
Lemma epochs_checkpoints l b n :
  exists t,
    foldM (train_epoch default_window h c amp_on len ti) l (Some b) n =
      (Ok (Some (snd (fst (checkpoint_policy h c (map (fun e => e + 1) l) b n)))),
       t,
       snd (checkpoint_policy h c (map (fun e => e + 1) l) b n)) /\
    filter is_checkpoint_event t =
      fst (fst (checkpoint_policy h c (map (fun e => e + 1) l) b n)).
Proof.
  revert b n. induction l as [|e0 l IH]; intros b n; simpl.
  - exists []. split; reflexivity.
  - pose proof (train_epoch_run default_window h amp_on len ti Hwf (Some b) e0 n) as He.
    destruct (validates_after c (e0 + 1)) eqn:E.
    + destruct (checkpoint_run h c (e0 + 1) b n E) as (t1 & Ht1 & Hf1).
      cbv zeta in Ht1, Hf1. rewrite Ht1 in He.
      erewrite bind_ok by exact He.
      set (b1 := if fge (snd (validate_fn h n)) b then snd (validate_fn h n) else b) in *.
      destruct (IH b1 (S n)) as (t2 & Ht2 & Hf2). rewrite Ht2.
      destruct (checkpoint_policy h c (map (fun e => e + 1) l) b1 (S n)) as [[ts bs] ns].
      simpl in *.
      eexists. split; [reflexivity|].
      rewrite !filter_app, work_no_checkpoint, Hf1, Hf2 by exact Hwf. reflexivity.
    + rewrite checkpoint_skip in He by exact E.
      erewrite bind_ok by exact He.
      destruct (IH b n) as (t2 & Ht2 & Hf2). rewrite Ht2.
      eexists. split; [reflexivity|].
      rewrite app_nil_r, filter_app, work_no_checkpoint, Hf2 by exact Hwf. reflexivity.
Qed.
End EpochLoop.

(** ** Whole runs of a well-formed call *)

Section WholeRun.
Context {F : Type} `{FloatOps F}.
Variable default_window : option nat.
Variable h : Hooks F.
Variable c : Config.

Hypothesis Hpos : 0 < epochs c.
Hypothesis Hwf : well_formed c.

Lemma epochs_run_shift :
  map (fun e => e + 1) (range (resume c) (epochs c)) = epochs_run c.
Proof. apply range_shift. Qed.

Lemma filter_repeat_false (p : Event F -> bool) ev k :
  p ev = false -> filter p (repeat ev k) = [].
Proof. intros E. induction k as [|k IH]; simpl; [|rewrite E]; auto. Qed.

(** A well-formed run returns; through a filter that lets pass only
    calls on the EMA tracker, of the post-loss hook or at the head of an
    epoch, it shows what its epochs [resume + 1 .. epochs] show. *)
Lemma train_filter (p : Event F -> bool) n :
  (forall ev, p ev = true ->
     is_batch_view ev = true) ->
  exists best t_epochs n',
    train default_window h c n =
      (Ok best,
       prelude_events c ++ resume_events c ++ t_epochs ++ [EvModuleZeroGrad], n') /\
    trace (foldM (train_epoch default_window h c (amp_enabled c) (len_train c)
                    (total_iterations c))
             (range (resume c) (epochs c)) (first_best h c n)) (first_calls c n)
      = t_epochs /\
    filter p (trace (train default_window h c) n) = filter p t_epochs /\
    filter p t_epochs =
      flat_map
        (fun e =>
           filter p ((if epoch_fn c then [EvEpochFn e] else []) ++
                     [EvActivateParams true]) ++
           flat_map
             (fun i => filter p (batch_events h c (amp_enabled c) (len_train c)
                                   (total_iterations c) e i))
             (range 0 (len_train c)))
        (epochs_run c).
Proof.
  intros Hp.
  assert (Hn : forall ev, is_batch_view ev = false ->
                          p ev = false).
  { intros ev E. destruct (p ev) eqn:Ep; [apply Hp in Ep; congruence | reflexivity]. }
  destruct (epochs_filter default_window h (amp_enabled c) (len_train c)
              (total_iterations c) Hwf p Hp (range (resume c) (epochs c))
              (first_calls c n) (first_best_bound h c n))
    as (best & t & n' & Hrun & _ & Hf).
  exists best, t, n'.
  pose proof (train_run default_window h c n Hpos Hrun) as Ht.
  split; [exact Ht|]. split; [unfold trace; rewrite Hrun; reflexivity|].
  split.
  2:{ rewrite Hf, <- epochs_run_shift, flat_map_through.
      apply flat_map_ext. intros e0.
      rewrite work_filter by assumption. reflexivity. }
  unfold trace. rewrite Ht. simpl. rewrite !filter_app.
  replace (filter p (prelude_events c)) with (@nil (Event F)).
  2:{ unfold prelude_events.
      destruct (amp_enabled c), (validate_interval c =? 0); simpl;
        rewrite ?Hn by reflexivity; reflexivity. }
  replace (filter p (resume_events c)) with (@nil (Event F)).
  2:{ unfold resume_events.
      destruct (negb (resume c =? 0) && lr_scheduler c); [|reflexivity].
      symmetry. apply filter_repeat_false, Hn. reflexivity. }
  simpl. rewrite (Hn EvModuleZeroGrad) by reflexivity. apply app_nil_r.
Qed.

(** The checkpoint calls of a well-formed run that validates: the
    validation that precedes training, then the policy over the epochs
    [resume + 1 .. epochs], started from the accuracy of that
    validation. *)
Lemma train_checkpoints n :
  validate_interval c <> 0 ->
  exists t,
    train default_window h c n =
      (Ok (Some (snd (fst (checkpoint_policy h c (epochs_run c)
                             (snd (validate_fn h n)) (S n))))),
       t,
       snd (checkpoint_policy h c (epochs_run c) (snd (validate_fn h n)) (S n))) /\
    filter is_checkpoint_event t =
      EvValidate false false (start_epoch c) ::
      fst (fst (checkpoint_policy h c (epochs_run c) (snd (validate_fn h n)) (S n))).
Proof.
  intros Hv. apply Z.eqb_neq in Hv.
  destruct (epochs_checkpoints default_window h (amp_enabled c) (len_train c)
              (total_iterations c) Hwf (range (resume c) (epochs c))
              (snd (validate_fn h n)) (S n)) as (t & Hrun & Hf).
  rewrite epochs_run_shift in Hrun, Hf.
  assert (Hrun' : foldM (train_epoch default_window h c (amp_enabled c) (len_train c)
                           (total_iterations c))
                    (range (resume c) (epochs c)) (first_best h c n) (first_calls c n) =
                  (Ok (Some (snd (fst (checkpoint_policy h c (epochs_run c)
                                         (snd (validate_fn h n)) (S n))))),
                   t,
                   snd (checkpoint_policy h c (epochs_run c) (snd (validate_fn h n)) (S n)))).
  { unfold first_best, first_calls. rewrite Hv. exact Hrun. }
  eexists. split; [apply (train_run default_window h c n Hpos Hrun')|].
  rewrite !filter_app, Hf.
  unfold prelude_events, resume_events. rewrite Hv.
  destruct (amp_enabled c), (negb (resume c =? 0) && lr_scheduler c); simpl;
    rewrite ?filter_repeat_false by reflexivity; simpl; rewrite ?app_nil_r; reflexivity.
Qed.
End WholeRun.

(** ** Calls that are not well formed

    Without a sample in the training source the first epoch ends on the
    division of [global_avg]; with an EMA tracker of stride 0 the first
    batch ends on [i % model_ema_steps].  Neither run gets to a
    checkpoint. *)

Example empty_source_raises :
  res (train None Demo.improving Demo.empty_source) 0%nat = Raise ZeroDivisionError /\
  filter is_periodic_validate
    (trace (train None Demo.improving Demo.empty_source) 0%nat) = [].
Proof. split; reflexivity. Qed.

Example zero_stride_raises :
  res (train None Demo.improving Demo.zero_stride) 0%nat = Raise ZeroDivisionError /\
  filter is_get_data (trace (train None Demo.improving Demo.zero_stride) 0%nat) =
    [EvGetData].
Proof. split; reflexivity. Qed.

(** * The claims about [train] *)

(** A filter named in a claim lets pass only calls of the batch view. *)
Ltac view_subset :=
  intros [] E; repeat match goal with b : bool |- _ => destruct b end;
  try discriminate E; reflexivity.

Section TrainClaims.
Context {F : Type} `{FloatOps F}.
Variable default_window : option nat.
Variable h : Hooks F.

(** C3.  A call of [train] with [epochs <= 0] returns at once and is not
    an error: it calls nothing (no hook, no optimizer step, no
    validation, no save) and leaves the state as it was. *)
Theorem train_no_epochs_is_noop (c : Config) (n : nat) :
  epochs c <= 0 ->
  train default_window h c n = (Ok None, [], n).
Proof.
  intros Hle. unfold train. apply Z.leb_le in Hle. rewrite Hle. reflexivity.
Qed.

(** C8.  With no GPU available, a call of [train] that asks for mixed
    precision runs exactly as the same call with [amp=False] does, no
    exception raised for it: no loss scaler is created and no call is
    made on a scaler or with [amp=True]. *)
Theorem amp_disabled_without_gpu (c : Config) (n : nat) :
  num_gpus c = 0 ->
  train default_window h c n = train default_window h (with_amp c false) n /\
  Forall (fun ev => is_amp_event ev = false) (trace (train default_window h c) n).
Proof.
  intros Hg.
  assert (Ha : amp_enabled c = false) by (unfold amp_enabled; rewrite Hg; reflexivity).
  split.
  - unfold train, amp_enabled.
    change (num_gpus (with_amp c false)) with (num_gpus c).
    rewrite Hg. reflexivity.
  - apply train_trace_Forall.
    + unfold prelude_events. rewrite Ha.
      destruct (validate_interval c =? 0); repeat constructor.
    + unfold resume_events.
      destruct (negb (resume c =? 0) && lr_scheduler c); [|constructor].
      apply Forall_forall. intros ev Hev. apply repeat_spec in Hev. now subst.
    + reflexivity.
    + rewrite Ha. apply epochs_trace_Forall.
      * apply begin_no_amp.
      * intros e i. unfold batch_events. now apply batch_no_amp.
      * apply end_no_amp.
      * apply checkpoint_no_amp.
Qed.

(** C4.  With an EMA tracker of stride [model_ema_steps], a run updates
    the shadow weights, in every epoch [resume + 1 .. epochs], after
    exactly the batches [i] with [i % model_ema_steps == 0], and resets
    the averaging counter after each such update of an epoch
    [<= lr_warmup_epochs]; it makes no other call on the tracker.  The
    run is seen through the heads of its epochs, the starts of its batches
    and the calls on the tracker. *)
Theorem ema_update_schedule (c : Config) (n : nat) :
0 < epochs c -> well_formed c -> model_ema c = true ->
(exists best, res (train default_window h c) n = Ok best) /\
filter is_ema_view (trace (train default_window h c) n) =
flat_map
  (fun e =>
     ((if epoch_fn c then [EvEpochFn e] else []) ++ [EvActivateParams true]) ++
     flat_map
       (fun i =>
          EvGetData ::
          (if i mod model_ema_steps c =? 0
           then EvEmaUpdate ::
                (if e <=? lr_warmup_epochs c then [EvEmaReset] else [])
           else []))
       (range 0 (len_train c)))
  (epochs_run c).
Proof.
  intros Hpos Hwf Hema.
  destruct (train_filter default_window h Hpos Hwf is_ema_view n)
    as (best & t & n' & Hrun & _ & Hall & Hf).
  { view_subset. }
  split; [exists best; unfold res; rewrite Hrun; reflexivity|].
  rewrite Hall, Hf. apply flat_map_ext. intros e. f_equal.
  - destruct (epoch_fn c); reflexivity.
  - apply flat_map_ext. intros i.
    rewrite batch_ema_view by (apply Hwf, Hema). rewrite Hema. reflexivity.
Qed.
End TrainClaims.

Lemma amp_disabled_without_gpu_witness :
  num_gpus Demo.config = 0 /\
  amp Demo.config = true /\
  train None Demo.improving Demo.config 0%nat =
    train None Demo.improving (with_amp Demo.config false) 0%nat /\
  Forall (fun ev => is_amp_event ev = false)
    (trace (train None Demo.improving Demo.config) 0%nat).
Proof.
  split; [reflexivity|]. split; [reflexivity|].
  apply (@amp_disabled_without_gpu _ _ None Demo.improving Demo.config 0%nat).
  reflexivity.
Defined.

Lemma train_no_epochs_is_noop_witness :
  epochs Demo.idle <= 0 /\
  train None Demo.improving Demo.idle 0%nat = (Ok None, [], 0%nat).
Proof.
  split; [simpl; lia|].
  apply (@train_no_epochs_is_noop _ _ None Demo.improving Demo.idle 0%nat).
  simpl; lia.
Defined.

Lemma ema_update_schedule_witness :
0 < epochs Demo.ema_config /\ well_formed Demo.ema_config /\
model_ema Demo.ema_config = true /\
model_ema_steps Demo.ema_config = 32 /\
filter is_ema_view (trace (train None Demo.improving Demo.ema_config) 0%nat) =
flat_map
  (fun e =>
     [EvActivateParams true] ++
     flat_map
       (fun i =>
          EvGetData ::
          (if i mod 32 =? 0
           then EvEmaUpdate :: (if e <=? 1 then [EvEmaReset] else [])
           else []))
       (range 0 70))
  [1; 2].
Proof.
  assert (Hwf : well_formed Demo.ema_config).
  { split; [vm_compute; discriminate | intros _; vm_compute; discriminate]. }
  split; [reflexivity|]. split; [exact Hwf|]. split; [reflexivity|].
  split; [reflexivity|].
  apply (proj2 (@ema_update_schedule _ _ None Demo.improving Demo.ema_config 0%nat
                  eq_refl Hwf eq_refl)).
Defined.

Lemma range_snoc lo hi : lo < hi -> range lo hi = range lo (hi - 1) ++ [hi - 1].
Proof.
  intros Hlt. unfold range.
  replace (Z.to_nat (hi - lo)) with (Z.to_nat (hi - 1 - lo) + 1)%nat by lia.
  rewrite seq_app, map_app. simpl. do 2 f_equal. lia.
Qed.

Lemma sum_sizes_nonempty (l : list Z) : sum_sizes l <> 0 -> 0 < Z.of_nat (List.length l).
Proof. destruct l; simpl; [intros Hn; now elim Hn | lia]. Qed.

Lemma flat_map_singleton {A B} (f : A -> list B) (g : A -> B) (l : list A) :
  (forall a, f a = [g a]) -> flat_map f l = map g l.
Proof. intros Hf. induction l as [|a l IH]; simpl; [|rewrite Hf, IH]; reflexivity. Qed.

Section IterationIndex.
Context {F : Type} `{FloatOps F}.
Variable default_window : option nat.
Variable h : Hooks F.

(** C10, as amended.  The post-loss hook is called once per batch with
    [_iter = _epoch * len(loader_train) + i], for [_epoch] from
    [resume + 1] to [epochs] and [i] the batch index from 0, and with
    [total_iter = (epochs - resume) * len(loader_train)].  In a run that
    is not resumed the first call gets [_iter = len(loader_train)], the
    last gets [epochs * len(loader_train) + len(loader_train) - 1],
    which is at least [total_iter], and more than it exactly when the
    source has more than one batch. *)
Theorem after_loss_iteration_index (c : Config) (n : nat) :
  0 < epochs c -> well_formed c -> after_loss_fn c = true ->
  let calls := filter is_after_loss (trace (train default_window h c) n) in
  let call := fun _iter => EvAfterLoss (amp_enabled c) _iter (total_iterations c) in
  calls =
    flat_map
      (fun e => map (fun i => call (e * len_train c + i)) (range 0 (len_train c)))
      (epochs_run c) /\
  (resume c = 0 ->
   hd_error calls = Some (call (len_train c)) /\
   last calls EvModuleZeroGrad =
     call (epochs c * len_train c + len_train c - 1) /\
   total_iterations c <= epochs c * len_train c + len_train c - 1 /\
   (total_iterations c < epochs c * len_train c + len_train c - 1 <->
    1 < len_train c)).
Proof.
  intros Hpos Hwf Hal calls call.
  assert (Hcalls : calls =
    flat_map
      (fun e => map (fun i => call (e * len_train c + i)) (range 0 (len_train c)))
      (epochs_run c)).
  { subst calls.
    destruct (train_filter default_window h Hpos Hwf is_after_loss n)
      as (best & t & n' & _ & _ & Hall & Hf).
    { view_subset. }
    rewrite Hall, Hf. apply flat_map_ext. intros e.
    replace (filter is_after_loss
               ((if epoch_fn c then [EvEpochFn e] else []) ++ [EvActivateParams true]))
      with (@nil (Event F)) by (destruct (epoch_fn c); reflexivity).
    simpl. apply flat_map_singleton. intros i.
    rewrite batch_after_loss, Hal. reflexivity. }
  split; [exact Hcalls|]. intros Hres.
  assert (Hlen : 0 < len_train c) by (apply sum_sizes_nonempty, Hwf).
  unfold total_iterations. rewrite Hres.
  split; [|split; [|split; [nia | split; nia]]].
  - rewrite Hcalls. unfold epochs_run. rewrite Hres.
    rewrite (@range_cons (0 + 1) (epochs c + 1)) by lia. cbn [flat_map].
    rewrite (@range_cons 0 (len_train c)) by lia. cbn [map app hd_error].
    do 2 f_equal. lia.
  - rewrite Hcalls. unfold epochs_run. rewrite Hres.
    rewrite (@range_snoc (0 + 1) (epochs c + 1)) by lia.
    rewrite flat_map_app. cbn [flat_map]. rewrite app_nil_r.
    rewrite (@range_snoc 0 (len_train c)) by lia.
    rewrite map_app. cbn [map]. rewrite app_assoc, last_last.
    f_equal. lia.
Qed.
End IterationIndex.

Lemma after_loss_iteration_index_witness :
  0 < epochs Demo.config /\ well_formed Demo.config /\
  after_loss_fn Demo.config = true /\ resume Demo.config = 0 /\
  hd_error (filter is_after_loss (trace (train None Demo.improving Demo.config) 0%nat)) =
    Some (EvAfterLoss false 3 12) /\
  last (filter is_after_loss (trace (train None Demo.improving Demo.config) 0%nat))
    EvModuleZeroGrad = EvAfterLoss false (4 * 3 + 3 - 1) 12.
Proof.
  assert (Hwf : well_formed Demo.config).
  { split; [vm_compute; discriminate | intros _; vm_compute; discriminate]. }
  split; [reflexivity|]. split; [exact Hwf|]. split; [reflexivity|].
  split; [reflexivity|].
  destruct (proj2 (@after_loss_iteration_index _ _ None Demo.improving Demo.config 0%nat
                     eq_refl Hwf eq_refl) eq_refl) as (Hfirst & Hlast & _).
  split; [exact Hfirst | exact Hlast].
Defined.

(** C10, as stated, fails on a source of one batch: the only call of the
    hook gets [_iter = 1], which does not exceed [total_iter = 1]. *)
Lemma after_loss_index_counterexample :
  resume Demo.single_batch = 0 /\
  filter is_after_loss (trace (train None Demo.pretrained Demo.single_batch) 0%nat) =
    [EvAfterLoss false 1 1] /\
  epochs Demo.single_batch * len_train Demo.single_batch +
    len_train Demo.single_batch - 1 = 1 /\
  total_iterations Demo.single_batch = 1 /\
  ~ (total_iterations Demo.single_batch <
     epochs Demo.single_batch * len_train Demo.single_batch +
       len_train Demo.single_batch - 1).
Proof. repeat split; try reflexivity. vm_compute. discriminate. Qed.

Section ResumeWalk.
Context {F : Type} `{FloatOps F}.
Variable default_window : option nat.
Variable h : Hooks F.

(** C5.  A call of [train] with [resume > 0] and a schedule steps the
    schedule exactly [resume] times after the prelude (which does not
    step it) and before anything an epoch does, whatever the other
    arguments are; the epoch loop then runs the epochs
    [resume + 1 .. epochs], in order, and only them. *)
Theorem resume_walk_steps_schedule (c : Config) (n : nat) :
  0 < epochs c -> well_formed c -> 0 < resume c -> lr_scheduler c = true ->
  exists t_epochs,
    trace (train default_window h c) n =
      prelude_events c ++ repeat EvSchedulerStep (Z.to_nat (resume c)) ++
      t_epochs ++ [EvModuleZeroGrad] /\
    filter is_scheduler_step (prelude_events (F:=F) c) = [] /\
    Forall (fun ev => is_epoch_event ev = false) (prelude_events (F:=F) c) /\
    t_epochs =
      trace (foldM (train_epoch default_window h c (amp_enabled c) (len_train c)
                      (total_iterations c))
               (range (resume c) (epochs c)) (first_best h c n)) (first_calls c n) /\
    Forall (fun ev => is_epoch_event ev = true) t_epochs /\
    filter is_epoch_head t_epochs =
      flat_map
        (fun e => (if epoch_fn c then [EvEpochFn e] else []) ++ [EvActivateParams true])
        (epochs_run c) /\
    (forall e, In e (epochs_run c) <-> resume c + 1 <= e <= epochs c).
Proof.
  intros Hpos Hwf Hres Hsched.
  destruct (train_filter default_window h Hpos Hwf is_epoch_head n)
    as (best & t & n' & Hrun & Hloop & _ & Hf).
  { view_subset. }
  exists t. split.
  { unfold trace. rewrite Hrun. simpl. unfold resume_events.
    replace (resume c =? 0) with false by (symmetry; apply Z.eqb_neq; lia).
    rewrite Hsched. reflexivity. }
  split.
  { unfold prelude_events.
    destruct (amp_enabled c), (validate_interval c =? 0); reflexivity. }
  split.
  { unfold prelude_events.
    destruct (amp_enabled c), (validate_interval c =? 0); repeat constructor. }
  split; [symmetry; exact Hloop|].
  split.
  { rewrite <- Hloop. apply epochs_trace_Forall.
    - apply begin_epoch_events.
    - intros e i. unfold batch_events. apply batch_epoch_events.
    - apply end_epoch_events.
    - apply checkpoint_epoch_events. }
  split.
  { rewrite Hf. apply flat_map_ext. intros e.
    rewrite (flat_map_nil (fun i => filter is_epoch_head _)).
    - rewrite app_nil_r. destruct (epoch_fn c); reflexivity.
    - intros i. apply batch_no_head. }
  intros e. unfold epochs_run. rewrite range_In. lia.
Qed.
End ResumeWalk.

Lemma resume_walk_steps_schedule_witness :
  0 < epochs Demo.resumed /\ well_formed Demo.resumed /\
  0 < resume Demo.resumed /\ lr_scheduler Demo.resumed = true /\
  exists t_epochs,
    trace (train None Demo.pretrained Demo.resumed) 0%nat =
      [EvValidate false false 0] ++ repeat EvSchedulerStep 2 ++
      t_epochs ++ [EvModuleZeroGrad] /\
    filter is_epoch_head t_epochs =
      [EvEpochFn 3; EvActivateParams true; EvEpochFn 4; EvActivateParams true;
       EvEpochFn 5; EvActivateParams true].
Proof.
  assert (Hwf : well_formed Demo.resumed).
  { split; [vm_compute; discriminate | intros E; discriminate E]. }
  split; [reflexivity|]. split; [exact Hwf|]. split; [reflexivity|].
  split; [reflexivity|].
  destruct (@resume_walk_steps_schedule _ _ None Demo.pretrained Demo.resumed 0%nat
              eq_refl Hwf eq_refl eq_refl)
    as (t & Ht & _ & _ & _ & _ & Hh & _).
  exists t. split; [exact Ht | exact Hh].
Defined.

(** ** The checkpoint policy *)

Lemma filter_filter_sub {A} (p q : A -> bool) (l : list A) :
  (forall a, p a = true -> q a = true) -> filter p (filter q l) = filter p l.
Proof.
  intros Hpq. induction l as [|a l IH]; simpl; [reflexivity|].
  destruct (q a) eqn:Eq; simpl; rewrite IH; [reflexivity|].
  destruct (p a) eqn:Ep; [apply Hpq in Ep; congruence | reflexivity].
Qed.

Lemma saved_at_checkpoints {F : Type} (t : list (Event F)) k :
  saved_at (filter is_checkpoint_event t) k = saved_at t k.
Proof.
  revert k. induction t as [|ev t IH]; intros k; simpl; [reflexivity|].
  destruct ev as [| [|] ? ? | | | | | | | | | | | | | | | | | | | | | | | | | | | |];
    simpl; rewrite ?IH; reflexivity.
Qed.

Section PolicyFacts.
Context {F : Type} `{FloatOps F}.
Variable h : Hooks F.
Variable c : Config.

Lemma policy_skips es b n :
  checkpoint_policy h c (filter (validates_after c) es) b n =
  checkpoint_policy h c es b n.
Proof.
  revert b n. induction es as [|e es IH]; intros b n; simpl; [reflexivity|].
  destruct (validates_after c e) eqn:E; simpl; [rewrite E, IH; reflexivity | apply IH].
Qed.

Lemma policy_validations es b n :
  filter is_periodic_validate (fst (fst (checkpoint_policy h c es b n))) =
  map (fun e => EvValidate true (writer c) (e + start_epoch c))
    (filter (validates_after c) es).
Proof.
  revert b n. induction es as [|e es IH]; intros b n; simpl; [reflexivity|].
  destruct (validates_after c e); [|apply IH].
  specialize (IH (if fge (snd (validate_fn h n)) b then snd (validate_fn h n) else b)
                (S n)).
  destruct (checkpoint_policy h c es _ (S n)) as [[t b'] n']. simpl in *.
  rewrite filter_app, IH.
  destruct (fge (snd (validate_fn h n)) b && save c); reflexivity.
Qed.

(** A save the policy makes belongs to a checkpoint it has counted. *)
Lemma policy_saved_later es b n k x :
  In x (saved_at (fst (fst (checkpoint_policy h c es b n))) k) -> (k < x)%nat.
Proof.
  revert b n k. induction es as [|e es IH]; intros b n k; simpl; [intros []|].
  destruct (validates_after c e); [|apply IH].
  specialize (IH (if fge (snd (validate_fn h n)) b then snd (validate_fn h n) else b)
                (S n) (S k)).
  destruct (checkpoint_policy h c es _ (S n)) as [[t b'] n']. simpl in *.
  destruct (fge (snd (validate_fn h n)) b && save c); simpl.
  - intros [<- | Hin]; [lia | apply IH in Hin; lia].
  - intros Hin. apply IH in Hin. lia.
Qed.

Lemma never_validates es :
  validate_interval c = 0 -> filter (validates_after c) es = [].
Proof.
  intros Hv. induction es as [|e es IH]; simpl; [reflexivity|].
  unfold validates_after at 1. rewrite Hv. simpl. exact IH.
Qed.

Variable default_window : option nat.

(** Without periodic validation a run calls neither [validate_fn] nor
    [save_fn], however far it gets. *)
Lemma no_interval_no_checkpoint n :
  validate_interval c = 0 ->
  filter is_checkpoint_event (trace (train default_window h c) n) = [].
Proof.
  intros Hv. apply filter_nil_Forall. apply train_trace_Forall.
  - unfold prelude_events. rewrite Hv. simpl.
    destruct (amp_enabled c); repeat constructor.
  - unfold resume_events.
    destruct (negb (resume c =? 0) && lr_scheduler c); [|constructor].
    apply Forall_forall. intros ev Hev. apply repeat_spec in Hev. now subst.
  - reflexivity.
  - apply epochs_trace_Forall.
    + intros e. apply Forall_filter_nil. rewrite begin_filter by reflexivity.
      destruct (epoch_fn c); reflexivity.
    + intros e i. apply Forall_filter_nil, batch_no_checkpoint.
    + intros e lg m. apply Forall_filter_nil, end_filter.
      intros ev ->. reflexivity.
    + intros e best m. unfold trace. rewrite checkpoint_skip; [constructor|].
      unfold validates_after. rewrite Hv. reflexivity.
Qed.
End PolicyFacts.

Section ValidationTrigger.
Context {F : Type} `{FloatOps F}.
Variable default_window : option nat.
Variable h : Hooks F.

(** C2.  The checkpoint that closes epoch [e] calls [validate_fn] if and
    only if [validate_interval != 0] and ([e % validate_interval == 0]
    or [e == epochs]); otherwise it calls nothing and leaves [best_acc]
    as it is.  So a run validates after exactly those of its epochs, and
    a call of [train] with [validate_interval = 0] calls neither
    [validate_fn] nor [save_fn]. *)
Theorem validation_trigger (c : Config) (n : nat) :
  (forall e, validates_after c e = true <->
             validate_interval c <> 0 /\
             (e mod validate_interval c = 0 \/ e = epochs c)) /\
  (forall e b m, validates_after c e = true ->
     filter is_validate (trace (checkpoint h c e (Some b)) m) =
       [EvValidate true (writer c) (e + start_epoch c)]) /\
  (forall e best m, validates_after c e = false ->
     checkpoint h c e best m = (Ok best, [], m)) /\
  (0 < epochs c -> well_formed c ->
   filter is_periodic_validate (trace (train default_window h c) n) =
     map (fun e => EvValidate true (writer c) (e + start_epoch c))
       (filter (validates_after c) (epochs_run c))) /\
  (validate_interval c = 0 ->
   filter is_checkpoint_event (trace (train default_window h c) n) = []).
Proof.
  split; [|split; [|split; [|split]]].
  - intros e. unfold validates_after.
    rewrite andb_true_iff, negb_true_iff, orb_true_iff, Z.eqb_neq, !Z.eqb_eq.
    reflexivity.
  - intros e b m E.
    destruct (checkpoint_run h c e b m E) as (t & Ht & Hf).
    unfold trace. rewrite Ht. simpl.
    rewrite <- (filter_filter_sub is_validate is_checkpoint_event), Hf.
    + destruct (fge (snd (validate_fn h m)) b && save c); reflexivity.
    + intros ev E'. unfold is_checkpoint_event. rewrite E'. reflexivity.
  - intros e best m E. apply checkpoint_skip, E.
  - intros Hpos Hwf.
    rewrite <- (filter_filter_sub is_periodic_validate is_checkpoint_event)
      by (intros [] E; try discriminate E; reflexivity).
    destruct (Z.eq_dec (validate_interval c) 0) as [Hv|Hv].
    + rewrite no_interval_no_checkpoint, never_validates by exact Hv. reflexivity.
    + destruct (train_checkpoints default_window h Hpos Hwf n Hv) as (t & Ht & Hf).
      unfold trace. rewrite Ht. simpl. rewrite Hf. simpl.
      apply policy_validations.
  - apply no_interval_no_checkpoint.
Qed.
End ValidationTrigger.

Lemma validation_trigger_witness :
  0 < epochs Demo.resumed /\ well_formed Demo.resumed /\
  filter is_periodic_validate (trace (train None Demo.pretrained Demo.resumed) 0%nat) =
    [EvValidate true true 4; EvValidate true true 5] /\
  validate_interval Demo.ema_config = 0 /\
  filter is_checkpoint_event (trace (train None Demo.pretrained Demo.ema_config) 0%nat) = [] /\
  (* epoch 4 of 5, interval 2: validated; epoch 3: not *)
  validates_after Demo.resumed 4 = true /\
  filter is_validate
    (trace (checkpoint Demo.pretrained Demo.resumed 4 (Some (90#1)%Q)) 1%nat) =
    [EvValidate true true 4] /\
  validates_after Demo.resumed 3 = false /\
  checkpoint Demo.pretrained Demo.resumed 3 (Some (90#1)%Q) 1%nat =
    (Ok (Some (90#1)%Q), [], 1%nat).
Proof.
  assert (Hwf : well_formed Demo.resumed).
  { split; [vm_compute; discriminate | intros E; discriminate E]. }
  split; [reflexivity|]. split; [exact Hwf|].
  destruct (@validation_trigger _ _ None Demo.pretrained Demo.resumed 0%nat)
    as (_ & Hyes & Hno & Hrun & _).
  destruct (@validation_trigger _ _ None Demo.pretrained Demo.ema_config 0%nat)
    as (_ & _ & _ & _ & Hzero).
  split; [exact (Hrun eq_refl Hwf)|]. split; [reflexivity|].
  split; [exact (Hzero eq_refl)|]. split; [reflexivity|].
  split; [exact (Hyes 4 (90#1)%Q 1%nat eq_refl)|]. split; [reflexivity|].
  exact (Hno 3 (Some (90#1)%Q) 1%nat eq_refl).
Defined.

Section BestAccuracy.
Variable default_window : option nat.
Variable h : Hooks Q.

(** C1, as amended.  At a checkpoint that validates, an accuracy [>=]
    the best so far (ties included) becomes the best so far, and
    [save_fn] is called then if saving is on; a smaller one changes
    nothing and saves nothing.  The best so far starts as the accuracy of
    the validation that precedes training: in a run that saves, with four
    periodic checkpoints of accuracies 70, 65, 80, 75, [save_fn] is
    called exactly at checkpoints 1 and 3 and the best so far ends at 80
    provided that first accuracy is at most 70. *)
Theorem best_accuracy_tracking (c : Config) (n : nat) :
  (forall e b m, validates_after c e = true ->
     (b <= snd (validate_fn h m))%Q ->
     res (checkpoint h c e (Some b)) m = Ok (Some (snd (validate_fn h m))) /\
     filter is_save (trace (checkpoint h c e (Some b)) m) =
       (if save c then [EvSave] else [])) /\
  (forall e b m, validates_after c e = true ->
     ~ (b <= snd (validate_fn h m))%Q ->
     res (checkpoint h c e (Some b)) m = Ok (Some b) /\
     filter is_save (trace (checkpoint h c e (Some b)) m) = []) /\
  (0 < epochs c -> well_formed c -> save c = true ->
   List.length (filter (validates_after c) (epochs_run c)) = 4%nat ->
   map (fun k => snd (validate_fn h (k + S n))) [0; 1; 2; 3]%nat =
     [70#1; 65#1; 80#1; 75#1]%Q ->
   (snd (validate_fn h n) <= 70#1)%Q ->
   saved_at (trace (train default_window h c) n) 0 = [1; 3]%nat /\
   res (train default_window h c) n = Ok (Some (80#1)%Q)).
Proof.
  assert (Hsave : forall t : list (Event Q),
             filter is_save t = filter is_save (filter is_checkpoint_event t)).
  { intros t. symmetry. apply filter_filter_sub.
    intros ev E. unfold is_checkpoint_event. rewrite E. apply orb_true_r. }
  split; [|split].
  - intros e b m E Hle.
    destruct (checkpoint_run h c e b m E) as (t & Ht & Hf).
    apply Qle_bool_iff in Hle.
    unfold res, trace. rewrite Hsave, Ht. simpl fst. simpl snd. rewrite Hf.
    simpl fge. rewrite Hle. destruct (save c); split; reflexivity.
  - intros e b m E Hnle.
    destruct (checkpoint_run h c e b m E) as (t & Ht & Hf).
    assert (Hb : Qle_bool b (snd (validate_fn h m)) = false).
    { destruct (Qle_bool b (snd (validate_fn h m))) eqn:Eb; [|reflexivity].
      apply Qle_bool_iff in Eb. contradiction. }
    unfold res, trace. rewrite Hsave, Ht. simpl fst. simpl snd. rewrite Hf.
    simpl fge. rewrite Hb. split; reflexivity.
  - intros Hpos Hwf Hs Hlen Haccs Hfirst.
    assert (Hv : validate_interval c <> 0).
    { intros Hv. rewrite (never_validates c _ Hv) in Hlen. discriminate Hlen. }
    destruct (train_checkpoints default_window h Hpos Hwf n Hv) as (t & Ht & Hf).
    unfold res, trace. rewrite Ht. simpl fst. simpl snd.
    rewrite <- saved_at_checkpoints, Hf.
    rewrite <- policy_skips.
    assert (Hall : Forall (fun e => validates_after c e = true)
                     (filter (validates_after c) (epochs_run c))).
    { apply Forall_forall. intros e He. apply filter_In in He. apply He. }
    destruct (filter (validates_after c) (epochs_run c))
      as [|e1 [|e2 [|e3 [|e4 [|e5 l]]]]]; try discriminate Hlen.
    inversion Hall as [|? ? E1 Hall1]; subst.
    inversion Hall1 as [|? ? E2 Hall2]; subst.
    inversion Hall2 as [|? ? E3 Hall3]; subst.
    inversion Hall3 as [|? ? E4 _]; subst.
    simpl in Haccs. injection Haccs as A1 A2 A3 A4.
    apply Qle_bool_iff in Hfirst.
    simpl. rewrite E1, E2, E3, E4, A1, A2, A3, A4. simpl fge.
    rewrite Hfirst, Hs. simpl. split; reflexivity.
Qed.
End BestAccuracy.

Lemma best_accuracy_tracking_witness :
  0 < epochs Demo.config /\ well_formed Demo.config /\ save Demo.config = true /\
  (snd (validate_fn Demo.improving 0%nat) <= 70#1)%Q /\
  saved_at (trace (train None Demo.improving Demo.config) 0%nat) 0 = [1; 3]%nat /\
  res (train None Demo.improving Demo.config) 0%nat = Ok (Some (80#1)%Q) /\
  (* a tie: 70 after a best of 70 *)
  (validates_after Demo.config 2 = true /\
   (70#1 <= snd (validate_fn Demo.improving 1%nat))%Q /\
   res (checkpoint Demo.improving Demo.config 2 (Some (70#1)%Q)) 1%nat =
     Ok (Some (70#1)%Q) /\
   filter is_save (trace (checkpoint Demo.improving Demo.config 2 (Some (70#1)%Q)) 1%nat) =
     [EvSave]) /\
  (* no improvement: 65 after a best of 70 *)
  (~ (70#1 <= snd (validate_fn Demo.improving 2%nat))%Q /\
   res (checkpoint Demo.improving Demo.config 2 (Some (70#1)%Q)) 2%nat =
     Ok (Some (70#1)%Q) /\
   filter is_save (trace (checkpoint Demo.improving Demo.config 2 (Some (70#1)%Q)) 2%nat) =
     []).
Proof.
  assert (Hwf : well_formed Demo.config).
  { split; [vm_compute; discriminate | intros _; vm_compute; discriminate]. }
  assert (Hle : (snd (validate_fn Demo.improving 0%nat) <= 70#1)%Q).
  { vm_compute. discriminate. }
  assert (Htie : (70#1 <= snd (validate_fn Demo.improving 1%nat))%Q).
  { vm_compute. discriminate. }
  assert (Hless : ~ (70#1 <= snd (validate_fn Demo.improving 2%nat))%Q).
  { intros Hc. vm_compute in Hc. apply Hc. reflexivity. }
  destruct (best_accuracy_tracking None Demo.improving Demo.config 0%nat)
    as (Hup & Hkeep & Hrun).
  split; [reflexivity|]. split; [exact Hwf|]. split; [reflexivity|].
  split; [exact Hle|].
  destruct (Hrun eq_refl Hwf eq_refl eq_refl eq_refl Hle) as [Hs Hb].
  split; [exact Hs|]. split; [exact Hb|]. split.
  - split; [reflexivity|]. split; [exact Htie|].
    exact (Hup 2 (70#1)%Q 1%nat eq_refl Htie).
  - split; [exact Hless|].
    exact (Hkeep 2 (70#1)%Q 2%nat eq_refl Hless).
Defined.

(** C1, as stated, fails for a model that is better before training than
    at its checkpoints: with accuracies 70, 65, 80, 75 at the four
    checkpoints and 90 before training, [save_fn] is never called and the
    best so far ends at 90. *)
Lemma best_accuracy_counterexample :
  save Demo.config = true /\
  filter is_periodic_validate (trace (train None Demo.pretrained Demo.config) 0%nat) =
    [EvValidate true false 1; EvValidate true false 2;
     EvValidate true false 3; EvValidate true false 4] /\
  map (fun k => snd (validate_fn Demo.pretrained (S k))) [0; 1; 2; 3]%nat =
    [70#1; 65#1; 80#1; 75#1]%Q /\
  saved_at (trace (train None Demo.pretrained Demo.config) 0%nat) 0 = [] /\
  res (train None Demo.pretrained Demo.config) 0%nat = Ok (Some (90#1)%Q) /\
  ~ (saved_at (trace (train None Demo.pretrained Demo.config) 0%nat) 0 = [1; 3]%nat /\
     res (train None Demo.pretrained Demo.config) 0%nat = Ok (Some (80#1)%Q)).
Proof.
  repeat split; try reflexivity.
  intros [Hs _]. vm_compute in Hs. discriminate Hs.
Qed.

Section FirstValidation.
Context {F : Type} `{FloatOps F}.
Variable default_window : option nat.
Variable h : Hooks F.

(** C9.  A call of [train] with [validate_interval != 0] calls
    [validate_fn] once before training, without a writer, ahead of
    everything but the creation of the loss scaler; the accuracy it
    returns is the first best so far of the checkpoint policy.  So the
    first periodic checkpoint saves if and only if saving is on and its
    accuracy is [>=] that of the validation before training. *)
Theorem first_validation_sets_best (c : Config) (n : nat) :
  0 < epochs c -> well_formed c -> validate_interval c <> 0 ->
  (exists t,
     trace (train default_window h c) n =
       (if amp_enabled c then [EvGradScaler] else []) ++
       EvValidate false false (start_epoch c) :: t /\
     filter is_first_validate t = []) /\
  filter is_checkpoint_event (trace (train default_window h c) n) =
    EvValidate false false (start_epoch c) ::
    fst (fst (checkpoint_policy h c (epochs_run c) (snd (validate_fn h n)) (S n))) /\
  (resume c < epochs c ->
   (In 1%nat (saved_at (trace (train default_window h c) n) 0) <->
    save c = true /\
    fge (snd (validate_fn h (S n))) (snd (validate_fn h n)) = true)).
Proof.
  intros Hpos Hwf Hv.
  destruct (train_checkpoints default_window h Hpos Hwf n Hv) as (t & Ht & Hf).
  split; [|split].
  - destruct (train_filter default_window h Hpos Hwf is_epoch_head n)
      as (best & te & n' & Hrun & Hloop & _ & _).
    { view_subset. }
    exists (resume_events c ++ te ++ [EvModuleZeroGrad]). split.
    + unfold trace. rewrite Hrun. simpl. unfold prelude_events.
      apply Z.eqb_neq in Hv. rewrite Hv. rewrite <- app_assoc. reflexivity.
    + rewrite !filter_app.
      replace (filter is_first_validate (resume_events (F:=F) c)) with (@nil (Event F)).
      2:{ unfold resume_events.
          destruct (negb (resume c =? 0) && lr_scheduler c); [|reflexivity].
          symmetry. apply filter_repeat_false. reflexivity. }
      simpl. rewrite app_nil_r. apply filter_nil_Forall.
      rewrite <- Hloop.
      eapply Forall_impl;
        [| apply epochs_trace_Forall with (Q := fun ev => is_epoch_event ev = true)].
      * intros [] E; try reflexivity. simpl in E. subst. reflexivity.
      * apply begin_epoch_events.
      * intros e i. unfold batch_events. apply batch_epoch_events.
      * apply end_epoch_events.
      * apply checkpoint_epoch_events.
  - unfold trace. rewrite Ht. exact Hf.
  - intros Hres. unfold trace. rewrite Ht. simpl snd.
    rewrite <- saved_at_checkpoints, Hf. rewrite <- policy_skips.
    assert (Hin : In (epochs c) (filter (validates_after c) (epochs_run c))).
    { apply filter_In. split.
      - unfold epochs_run. apply range_In. lia.
      - unfold validates_after. apply Z.eqb_neq in Hv. rewrite Hv, Z.eqb_refl.
        apply orb_true_r. }
    assert (Hall : Forall (fun e => validates_after c e = true)
                     (filter (validates_after c) (epochs_run c))).
    { apply Forall_forall. intros e He. apply filter_In in He. apply He. }
    destruct (filter (validates_after c) (epochs_run c)) as [|e1 es]; [destruct Hin|].
    inversion Hall as [|? ? E1 _]; subst.
    simpl. rewrite E1.
    pose proof (@policy_saved_later _ _ h c es
                  (if fge (snd (validate_fn h (S n))) (snd (validate_fn h n))
                   then snd (validate_fn h (S n)) else snd (validate_fn h n))
                  (S (S n)) 1%nat 1%nat) as Hlater.
    destruct (checkpoint_policy h c es _ (S (S n))) as [[t2 b2] n2]. simpl in *.
    destruct (fge (snd (validate_fn h (S n))) (snd (validate_fn h n))), (save c);
      simpl; split;
      try (intros Hin1; apply Hlater in Hin1; lia);
      try (intros [E2 E3]; discriminate);
      auto.
Qed.
End FirstValidation.

Lemma first_validation_sets_best_witness :
  0 < epochs Demo.config /\ well_formed Demo.config /\
  validate_interval Demo.config <> 0 /\
  filter is_checkpoint_event (trace (train None Demo.pretrained Demo.config) 0%nat) =
    [EvValidate false false 0; EvValidate true false 1; EvValidate true false 2;
     EvValidate true false 3; EvValidate true false 4] /\
  ~ In 1%nat (saved_at (trace (train None Demo.pretrained Demo.config) 0%nat) 0).
Proof.
  assert (Hwf : well_formed Demo.config).
  { split; [vm_compute; discriminate | intros _; vm_compute; discriminate]. }
  assert (Hv : validate_interval Demo.config <> 0) by (vm_compute; discriminate).
  split; [reflexivity|]. split; [exact Hwf|]. split; [exact Hv|].
  destruct (@first_validation_sets_best _ _ None Demo.pretrained Demo.config 0%nat
              eq_refl Hwf Hv) as (_ & Hck & Hfirst).
  split; [exact Hck|].
  intros Hin. apply (Hfirst eq_refl) in Hin. destruct Hin as [_ Hge].
  vm_compute in Hge. discriminate Hge.
Defined.

(** * The claims about [validate] *)

Section ValidateClaims.
Context {F : Type} `{FloatOps F}.
Variables Data Input Label Output Params : Type.
Variable get_data_fn : Data -> Input * Label.
Variable forward_fn : Module Params -> Input -> Output.
Variable loss_fn : Input -> Label -> Output -> F.
Variable accuracy_fn : Output -> Label -> F * F.
Variable label_size : Label -> Z.

Lemma validate_loop_run loader lg m :
  exists lg',
    foldM (validate_batch get_data_fn forward_fn loss_fn accuracy_fn label_size)
      loader lg m =
      (Ok lg',
       flat_map (fun d => [VGetData d; VForward (fst (get_data_fn d)); VLoss; VAccuracy])
         loader,
       m) /\
    let l := map (batch_summary get_data_fn forward_fn loss_fn accuracy_fn label_size m)
               loader in
    total (meter_loss lg') = fold_left add_value (losses l) (total (meter_loss lg)) /\
    count (meter_loss lg') = fold_left add_weight (losses l) (count (meter_loss lg)) /\
    total (meter_top1 lg') = fold_left add_value (top1s l) (total (meter_top1 lg)) /\
    count (meter_top1 lg') = fold_left add_weight (top1s l) (count (meter_top1 lg)).
Proof.
  revert lg. induction loader as [|d l IH]; intros lg; simpl.
  - exists lg. repeat split; reflexivity.
  - destruct (get_data_fn d) as [x y] eqn:Ed.
    destruct (accuracy_fn (forward_fn m x) y) as [a1 a5] eqn:Ea.
    set (lg1 := log_batch lg (loss_fn x y (forward_fn m x)) a1 a5 (label_size y)).
    assert (Hb : validate_batch get_data_fn forward_fn loss_fn accuracy_fn label_size
                   lg d m =
                 (Ok lg1, [VGetData d; VForward x; VLoss; VAccuracy], m)).
    { unfold validate_batch, bind, emit, ret, call_forward.
      rewrite Ed. simpl. rewrite Ea. reflexivity. }
    erewrite bind_ok by exact Hb.
    destruct (IH lg1) as (lg' & Hrun & Ht & Hc & Ht1 & Hc1).
    exists lg'. rewrite Hrun. split; [reflexivity|].
    assert (Hs : batch_summary get_data_fn forward_fn loss_fn accuracy_fn label_size
                   m d = (loss_fn x y (forward_fn m x), a1, label_size y)).
    { unfold batch_summary. rewrite Ed, Ea. reflexivity. }
    cbv zeta in Ht, Hc, Ht1, Hc1 |- *. rewrite Ht, Hc, Ht1, Hc1, Hs.
    repeat split; reflexivity.
Qed.

Lemma same_weights (l : list (F * F * Z)) a :
  fold_left add_weight (top1s l) a = fold_left add_weight (losses l) a.
Proof.
  revert a. induction l as [|b l IH]; intros a; simpl; [reflexivity|]. apply IH.
Qed.

(** The whole of a call of [validate]. *)
Lemma validate_run default_window loader writer main_tag _epoch m :
  let v := validate get_data_fn forward_fn loss_fn accuracy_fn label_size
             default_window loader writer main_tag _epoch in
  let l := map (batch_summary get_data_fn forward_fn loss_fn accuracy_fn label_size
                  (eval_mode m)) loader in
  res v m = lifetime_averages l /\
  final v m = eval_mode m /\
  filter is_VGetData (trace v m) = map VGetData loader.
Proof.
  cbv zeta. unfold res, final, trace.
  destruct (validate_loop_run loader (new_MetricLogger default_window) (eval_mode m))
    as (lg & Hrun & Ht & Hc & Ht1 & Hc1).
  cbv zeta in Ht, Hc, Ht1, Hc1.
  assert (Hget : filter is_VGetData
                   (flat_map (fun d => [VGetData d; VForward (fst (get_data_fn d));
                                        VLoss (F:=F); VAccuracy]) loader) =
                 map VGetData loader).
  { clear. induction loader as [|d l IH]; simpl; [|rewrite IH]; reflexivity. }
  destruct (validate get_data_fn forward_fn loss_fn accuracy_fn label_size
              default_window loader writer main_tag _epoch m) as [[r t] m'] eqn:Ev.
  unfold validate in Ev.
  erewrite bind_ok in Ev by (unfold module_eval; reflexivity).
  erewrite bind_ok in Ev by exact Hrun.
  unfold lifetime_averages, weighted_average, weighted_sum, total_samples.
  rewrite same_weights in Hc1. simpl in Ht, Hc, Ht1, Hc1. rewrite <- Hc in Hc1.
  rewrite same_weights, <- Ht, <- Hc, <- Ht1.
  unfold bind, lift, global_avg, ret, whenM, emit in Ev. rewrite Hc1 in Ev.
  destruct (count (meter_loss lg) =? 0).
  - injection Ev as <- <- <-. simpl.
    rewrite app_nil_r, Hget. repeat split; reflexivity.
  - destruct _epoch as [g|]; [destruct (writer && negb (String.eqb main_tag ""))|];
      simpl in Ev; injection Ev as <- <- <-; simpl; rewrite ?filter_app, Hget;
      simpl; rewrite ?app_nil_r; repeat split; reflexivity.
Qed.

(** C6.  [validate] goes through the data source once, batch by batch
    in order, and returns the averages of the batch losses and of the
    batch top-1 accuracies weighted by the batch sizes: (sum of
    loss * size / number of samples, sum of top1 * size / number of
    samples), whatever the window of the meters is.  (The quotient, like
    [global_avg], has no value for a source without samples.) *)
Theorem validate_returns_lifetime_averages default_window loader writer
    main_tag _epoch m :
  let v := validate get_data_fn forward_fn loss_fn accuracy_fn label_size
             default_window loader writer main_tag _epoch in
  let l := map (batch_summary get_data_fn forward_fn loss_fn accuracy_fn label_size
                  (eval_mode m)) loader in
  res v m = lifetime_averages l /\
  filter is_VGetData (trace v m) = map VGetData loader /\
  (forall window,
     res (validate get_data_fn forward_fn loss_fn accuracy_fn label_size
            window loader writer main_tag _epoch) m = res v m) /\
  (total_samples (losses l) <> 0 ->
   res v m =
     Ok (fdiv (weighted_sum (losses l)) (of_int (total_samples (losses l))),
         fdiv (weighted_sum (top1s l)) (of_int (total_samples (losses l))))).
Proof.
  cbv zeta.
  destruct (validate_run default_window loader writer main_tag _epoch m)
    as (Hres & _ & Hget).
  cbv zeta in Hres, Hget.
  split; [exact Hres|]. split; [exact Hget|]. split.
  - intros window.
    destruct (validate_run window loader writer main_tag _epoch m) as (Hres' & _).
    cbv zeta in Hres'. rewrite Hres, Hres'. reflexivity.
  - intros Hn. rewrite Hres.
    unfold lifetime_averages, weighted_average, total_samples in *.
    rewrite same_weights.
    apply Z.eqb_neq in Hn. rewrite Hn. reflexivity.
Qed.

(** C7.  For a deterministic model and a fixed data source, a second
    call of [validate] with the same arguments returns what the first
    returned, and neither call changes a parameter of the model: all
    they change of it is the mode flag, which they clear. *)
Theorem validate_is_repeatable default_window loader writer main_tag _epoch m :
  let v := validate get_data_fn forward_fn loss_fn accuracy_fn label_size
             default_window loader writer main_tag _epoch in
  res v (final v m) = res v m /\
  params (final v m) = params m /\
  params (final v (final v m)) = params m /\
  training (final v m) = false /\
  training (final v (final v m)) = false.
Proof.
  cbv zeta.
  destruct (validate_run default_window loader writer main_tag _epoch m)
    as (Hres & Hfin & _).
  cbv zeta in Hres, Hfin. rewrite Hfin.
  destruct (validate_run default_window loader writer main_tag _epoch (eval_mode m))
    as (Hres2 & Hfin2 & _).
  cbv zeta in Hres2, Hfin2. rewrite Hfin2, Hres, Hres2.
  repeat split; reflexivity.
Qed.
End ValidateClaims.

Lemma validate_returns_lifetime_averages_witness :
  total_samples (losses DemoValidate.summaries) <> 0 /\
  res (DemoValidate.run (Some 1%nat)) DemoValidate.model =
    Ok (fdiv (weighted_sum (losses DemoValidate.summaries)) (of_int 5),
        fdiv (weighted_sum (top1s DemoValidate.summaries)) (of_int 5)) /\
  res (DemoValidate.run None) DemoValidate.model =
    res (DemoValidate.run (Some 1%nat)) DemoValidate.model.
Proof.
  assert (Hn : total_samples (losses DemoValidate.summaries) <> 0)
    by (vm_compute; discriminate).
  split; [exact Hn|].
  destruct (@validate_returns_lifetime_averages Q _ _ _ _ _ _
              DemoValidate.get_data_fn DemoValidate.forward_fn DemoValidate.loss_fn
              DemoValidate.accuracy_fn DemoValidate.label_size (Some 1%nat)
              DemoValidate.loader false "valid"%string None DemoValidate.model)
    as (_ & _ & Hwin & Hret).
  split; [exact (Hret Hn) | exact (Hwin None)].
Defined.

(** * Further properties of [train] *)

Section Projections.
Context {F : Type} `{FloatOps F}.
Variable default_window : option nat.
Variable h : Hooks F.
Variable c : Config.

(** A checkpoint shows nothing through a filter that lets pass none of
    its calls. *)
Lemma checkpoint_silent (p : Event F -> bool) e best n :
  (forall ev, is_checkpoint_call ev = true -> p ev = false) ->
  filter p (trace (checkpoint h c e best) n) = [].
Proof.
  intros Hp. apply filter_nil_Forall. unfold_piece.
  destruct (negb (validate_interval c =? 0)),
    ((e mod validate_interval c =? 0) || (e =? epochs c)); cbv beta iota;
    try (constructor; fail).
  destruct (validate_fn h n) as [l cur].
  destruct best as [b|]; cbv beta iota;
    [destruct (fge cur b), (verbose c), (save c)|];
    repeat constructor; apply Hp; reflexivity.
Qed.

Hypothesis Hpos : 0 < epochs c.
Hypothesis Hwf : well_formed c.

(** A well-formed run returns; through a filter that lets pass no call of
    a checkpoint it shows its prelude, the resume walk, then for each
    epoch [resume + 1 .. epochs] the head of the epoch, its batches in
    order and its tail, and the last [module.zero_grad()]. *)
Lemma train_project (p : Event F -> bool) n :
  (forall ev, is_checkpoint_call ev = true -> p ev = false) ->
  (exists best, res (train default_window h c) n = Ok best) /\
  filter p (trace (train default_window h c) n) =
    filter p (if amp_enabled c then [EvGradScaler] else []) ++
    filter p (resume_events c) ++
    flat_map
      (fun e =>
         filter p (begin_events c e) ++
         flat_map
           (fun i => filter p (batch_events h c (amp_enabled c) (len_train c)
                                 (total_iterations c) e i))
           (range 0 (len_train c)) ++
         filter p (end_events c e (epoch_logger default_window h c e)))
      (epochs_run c) ++
    filter p [EvModuleZeroGrad].
Proof.
  intros Hp.
  assert (Hloop : forall l best m, best_bound c best ->
            exists best' t m',
              foldM (train_epoch default_window h c (amp_enabled c) (len_train c)
                       (total_iterations c)) l best m = (Ok best', t, m') /\
              best_bound c best' /\
              filter p t =
                flat_map (fun e0 => filter p (work_events default_window h c
                                               (amp_enabled c) (len_train c)
                                               (total_iterations c) (e0 + 1))) l).
  { apply foldM_filter. intros best e0 m Hb.
    rewrite train_epoch_run by exact Hwf.
    destruct (checkpoint_ok h (e0 + 1) m Hb) as (best' & t & m' & Ht & Hb1).
    pose proof (checkpoint_silent p (e0 + 1) best m Hp) as Hf.
    unfold trace in Hf. rewrite Ht in *. simpl in Hf.
    do 3 eexists. split; [reflexivity|]. split; [exact Hb1|].
    rewrite filter_app, Hf, app_nil_r. reflexivity. }
  destruct (Hloop (range (resume c) (epochs c)) (first_best h c n) (first_calls c n)
              (first_best_bound h c n)) as (best & t & n' & Hrun & _ & Hf).
  pose proof (train_run default_window h c n Hpos Hrun) as Ht.
  split; [exists best; unfold res; rewrite Ht; reflexivity|].
  unfold trace. rewrite Ht. simpl. rewrite !filter_app, Hf.
  f_equal.
  { unfold prelude_events. rewrite filter_app.
    destruct (validate_interval c =? 0); simpl; [apply app_nil_r|].
    rewrite Hp by reflexivity. apply app_nil_r. }
  f_equal. f_equal.
  rewrite <- (epochs_run_shift c), flat_map_through.
  apply flat_map_ext. intros e0.
  unfold work_events. rewrite !filter_app, filter_flat_map. f_equal. f_equal.
  unfold enumerate, len_train.
  change (Z.of_nat (List.length (loader_train c)))
    with (0 + Z.of_nat (List.length (loader_train c))).
  rewrite <- (enumerate_from_fst (loader_train c) 0).
  symmetry.
  apply (@flat_map_through _ _ _ fst
           (fun i => filter p (batch_events h c (amp_enabled c)
                                 (Z.of_nat (List.length (loader_train c)))
                                 (total_iterations c) (e0 + 1) i))).
Qed.
End Projections.

Lemma flat_map_repeat {A B C} (x : C) (l1 : list A) (l2 : list B) :
  flat_map (fun _ => flat_map (fun _ => [x]) l2) l1 =
  repeat x (List.length l1 * List.length l2).
Proof.
  assert (Hin : flat_map (fun _ : B => [x]) l2 = repeat x (List.length l2)).
  { induction l2 as [|b l2 IH]; simpl; [|rewrite IH]; reflexivity. }
  induction l1 as [|a l1 IH]; simpl; [reflexivity|].
  rewrite IH, Hin, repeat_app. reflexivity.
Qed.

Lemma flat_map_const {A C} (x : C) (l : list A) :
  flat_map (fun _ => [x]) l = repeat x (List.length l).
Proof. induction l as [|a l IH]; simpl; [|rewrite IH]; reflexivity. Qed.

Lemma epochs_run_length c :
  List.length (epochs_run c) = Z.to_nat (epochs c - resume c).
Proof. unfold epochs_run. rewrite range_length. f_equal. lia. Qed.

Lemma len_train_range c :
  List.length (range 0 (len_train c)) = List.length (loader_train c).
Proof. unfold len_train. rewrite range_length. lia. Qed.

(** The cases of the head, of a batch and of the tail of an epoch. *)
Ltac crush_begin c :=
  unfold_piece; destruct (epoch_fn c), (change_train_eval c); reflexivity.

Ltac crush_end c lg :=
  unfold_piece;
  destruct (count (meter_loss lg) =? 0), (count (meter_top1 lg) =? 0),
    (lr_scheduler c), (String.eqb (lr_scheduler_freq c) "epochs"),
    (change_train_eval c), (writer c); reflexivity.

Ltac crush_batch h c e i :=
  unfold_piece;
  destruct (batch_stats h e i) as [[? ?] ?];
  destruct (model_ema c);
    [ destruct (model_ema_steps c =? 0);
      [ | cbv beta iota;
          destruct (i mod model_ema_steps c =? 0), (e <=? lr_warmup_epochs c) ]
    | ];
    destruct (pre_conditioner c), (amp_enabled c), (after_loss_fn c), (grad_clip c),
      (lr_scheduler c), (String.eqb (lr_scheduler_freq c) "step");
    reflexivity.

Lemma resume_events_silent {F : Type} (p : Event F -> bool) c :
  p EvSchedulerStep = false -> filter p (resume_events c) = [].
Proof.
  intros Hp. unfold resume_events.
  destruct (negb (resume c =? 0) && lr_scheduler c); [|reflexivity].
  apply filter_repeat_false, Hp.
Qed.

Section Updates.
Context {F : Type} `{FloatOps F}.
Variable default_window : option nat.
Variable h : Hooks F.

(** X1.  A run updates the parameters once per batch of each of its
    epochs, through the scaler under mixed precision and through the
    optimizer otherwise, never through both; when [resume <= epochs] that
    makes [total_iter] updates. *)
Theorem one_update_per_batch (c : Config) (n : nat) :
  0 < epochs c -> well_formed c ->
  filter is_param_update (trace (train default_window h c) n) =
    repeat (if amp_enabled c then EvScalerStep else EvOptimizerStep)
      (List.length (epochs_run c) * List.length (loader_train c)) /\
  (resume c <= epochs c ->
   Z.of_nat (List.length (epochs_run c) * List.length (loader_train c)) =
     total_iterations c).
Proof.
  intros Hpos Hwf. split.
  - destruct (train_project default_window h Hpos Hwf is_param_update n) as [_ Hf].
    { intros [] E; try discriminate E; reflexivity. }
    rewrite Hf.
    replace (filter is_param_update (if amp_enabled c then [EvGradScaler] else []))
      with (@nil (Event F)) by (destruct (amp_enabled c); reflexivity).
    rewrite resume_events_silent by reflexivity.
    simpl. rewrite app_nil_r.
    rewrite <- len_train_range, <- flat_map_repeat.
    apply flat_map_ext. intros e.
    replace (filter is_param_update (begin_events (F:=F) c e)) with (@nil (Event F))
      by crush_begin c.
    replace (filter is_param_update (end_events c e (epoch_logger default_window h c e)))
      with (@nil (Event F)) by crush_end c (epoch_logger default_window h c e).
    simpl. rewrite app_nil_r. apply flat_map_ext. intros i.
    crush_batch h c e i.
  - intros Hle. rewrite epochs_run_length. unfold total_iterations, len_train. nia.
Qed.
End Updates.

Lemma flat_map_repeat_each {A C} (x : C) (k : nat) (l : list A) :
  flat_map (fun _ => repeat x k) l = repeat x (List.length l * k).
Proof.
  induction l as [|a l IH]; simpl; [reflexivity|]. rewrite IH, repeat_app. reflexivity.
Qed.

Section Schedule.
Context {F : Type} `{FloatOps F}.
Variable default_window : option nat.
Variable h : Hooks F.

(** X2.  A run with a schedule steps it [resume] times in the resume
    walk, then once per batch if [lr_scheduler_freq] is ['step'], once per
    epoch if it is ['epochs'], and not at all for any other value.  So a
    per-epoch schedule has been stepped [epochs] times when a run resumed
    at [0 <= resume <= epochs] ends, as in a run that was not resumed. *)
Theorem scheduler_steps (c : Config) (n : nat) :
  0 < epochs c -> well_formed c -> lr_scheduler c = true ->
  let per_epoch :=
    if String.eqb (lr_scheduler_freq c) "step" then List.length (loader_train c)
    else if String.eqb (lr_scheduler_freq c) "epochs" then 1%nat
    else 0%nat in
  filter is_scheduler_step (trace (train default_window h c) n) =
    repeat EvSchedulerStep
      (Z.to_nat (resume c) + List.length (epochs_run c) * per_epoch) /\
  (lr_scheduler_freq c = "epochs"%string -> 0 <= resume c <= epochs c ->
   filter is_scheduler_step (trace (train default_window h c) n) =
     repeat EvSchedulerStep (Z.to_nat (epochs c))).
Proof.
  intros Hpos Hwf Hs per_epoch.
  assert (Hmain : filter is_scheduler_step (trace (train default_window h c) n) =
    repeat EvSchedulerStep
      (Z.to_nat (resume c) + List.length (epochs_run c) * per_epoch)).
  { destruct (train_project default_window h Hpos Hwf is_scheduler_step n) as [_ Hf].
    { intros [] E; try discriminate E; reflexivity. }
    rewrite Hf.
    replace (filter is_scheduler_step (if amp_enabled c then [EvGradScaler] else []))
      with (@nil (Event F)) by (destruct (amp_enabled c); reflexivity).
    simpl. rewrite app_nil_r, repeat_app. f_equal.
    - unfold resume_events. rewrite Hs, andb_true_r.
      destruct (Z.eqb_spec (resume c) 0) as [E|E]; simpl.
      + rewrite E. reflexivity.
      + clear. induction (Z.to_nat (resume c)) as [|k IH]; simpl; [|rewrite IH];
          reflexivity.
    - rewrite <- flat_map_repeat_each. apply flat_map_ext. intros e.
      replace (filter is_scheduler_step (begin_events (F:=F) c e)) with (@nil (Event F))
        by crush_begin c.
      simpl.
      replace (filter is_scheduler_step
                 (end_events c e (epoch_logger default_window h c e)))
        with (if String.eqb (lr_scheduler_freq c) "epochs"
              then [EvSchedulerStep (F:=F)] else []).
      2:{ unfold_piece. rewrite Hs.
          destruct (count (meter_loss (epoch_logger default_window h c e)) =? 0),
            (count (meter_top1 (epoch_logger default_window h c e)) =? 0),
            (String.eqb (lr_scheduler_freq c) "epochs"),
            (change_train_eval c), (writer c); reflexivity. }
      rewrite (flat_map_ext _
                 (fun _ => if String.eqb (lr_scheduler_freq c) "step"
                           then [EvSchedulerStep (F:=F)] else [])).
      2:{ intros i. pose proof (proj2 Hwf) as Hst. unfold_piece. rewrite Hs.
          destruct (batch_stats h e i) as [[? ?] ?].
          destruct (model_ema c);
            [ rewrite (proj2 (Z.eqb_neq _ _) (Hst eq_refl)); cbv beta iota;
              destruct (i mod model_ema_steps c =? 0), (e <=? lr_warmup_epochs c)
            | ];
            destruct (pre_conditioner c), (amp_enabled c), (after_loss_fn c),
              (grad_clip c), (String.eqb (lr_scheduler_freq c) "step");
            reflexivity. }
      subst per_epoch.
      destruct (String.eqb_spec (lr_scheduler_freq c) "step") as [E1|E1].
      + rewrite E1. simpl. rewrite app_nil_r, flat_map_const, len_train_range.
        reflexivity.
      + rewrite flat_map_nil by reflexivity.
        destruct (String.eqb (lr_scheduler_freq c) "epochs"); reflexivity. }
  split; [exact Hmain|].
  intros Hfreq Hres. rewrite Hmain. subst per_epoch. rewrite Hfreq. simpl.
  rewrite epochs_run_length. f_equal. lia.
Qed.
End Schedule.


Section BatchProtocol.
Context {F : Type} `{FloatOps F}.
Variable default_window : option nat.
Variable h : Hooks F.

(** A view that is empty outside the batches: what a run shows through
    it is what its batches show. *)
Lemma train_project_batches (p : Event F -> bool) (c : Config) (n : nat) :
  0 < epochs c -> well_formed c ->
  (forall ev, p ev = true ->
     is_preconditioner_call ev || is_scaler_protocol ev = true) ->
  filter p (trace (train default_window h c) n) =
  flat_map
    (fun e =>
       flat_map
         (fun i => filter p (batch_events h c (amp_enabled c) (len_train c)
                               (total_iterations c) e i))
         (range 0 (len_train c)))
    (epochs_run c).
Proof.
  intros Hpos Hwf Hp.
  assert (Hn : forall ev, is_preconditioner_call ev || is_scaler_protocol ev = false ->
                          p ev = false).
  { intros ev E. destruct (p ev) eqn:Ep; [apply Hp in Ep; congruence | reflexivity]. }
  destruct (train_project default_window h Hpos Hwf p n) as [_ Hf].
  { intros [] E; try discriminate E; apply Hn; reflexivity. }
  rewrite Hf.
  replace (filter p (if amp_enabled c then [EvGradScaler] else []))
    with (@nil (Event F))
    by (destruct (amp_enabled c); simpl; rewrite ?Hn by reflexivity; reflexivity).
  rewrite resume_events_silent by (apply Hn; reflexivity).
  simpl. rewrite (Hn EvModuleZeroGrad) by reflexivity. rewrite app_nil_r.
  apply flat_map_ext. intros e.
  replace (filter p (begin_events (F:=F) c e)) with (@nil (Event F)).
  2:{ unfold_piece. destruct (epoch_fn c), (change_train_eval c); simpl;
        rewrite ?Hn by reflexivity; reflexivity. }
  replace (filter p (end_events c e (epoch_logger default_window h c e)))
    with (@nil (Event F)).
  2:{ symmetry. apply filter_nil_Forall. unfold_piece.
      destruct (count (meter_loss (epoch_logger default_window h c e)) =? 0),
        (count (meter_top1 (epoch_logger default_window h c e)) =? 0),
        (lr_scheduler c), (String.eqb (lr_scheduler_freq c) "epochs"),
        (change_train_eval c), (writer c);
        repeat constructor; apply Hn; reflexivity. }
  simpl. apply app_nil_r.
Qed.


(** X4.  Between the loss and the update of the parameters a batch under
    mixed precision scales the loss for the backward pass, unscales the
    gradients before the post-loss hook and once more before clipping,
    and updates through the scaler, never through [optimizer.step()];
    without mixed precision it never calls the scaler. *)
Theorem gradient_protocol (c : Config) (n : nat) :
  0 < epochs c -> well_formed c ->
  filter is_scaler_protocol (trace (train default_window h c) n) =
  flat_map
    (fun e =>
       flat_map
         (fun i =>
            let hook := EvAfterLoss (amp_enabled c) (e * len_train c + i)
                          (total_iterations c) in
            if amp_enabled c then
              EvBackward true ::
              (if after_loss_fn c then [EvUnscale; hook] else []) ++
              (if grad_clip c then [EvUnscale; EvClipGrad] else []) ++
              [EvScalerStep; EvScalerUpdate]
            else
              EvBackward false ::
              (if after_loss_fn c then [hook] else []) ++
              (if grad_clip c then [EvClipGrad] else []) ++
              [EvOptimizerStep])
         (range 0 (len_train c)))
    (epochs_run c).
Proof.
  intros Hpos Hwf.
  rewrite train_project_batches by
    (try assumption; intros ev E; rewrite E; apply orb_true_r).
  apply flat_map_ext. intros e. apply flat_map_ext. intros i.
  cbv zeta. crush_batch h c e i.
Qed.

End BatchProtocol.

Section EpochMetrics.
Context {F : Type} `{FloatOps F}.
Variable default_window : option nat.
Variable h : Hooks F.
Variable c : Config.

Lemma log_step_totals e (l : list (Z * Z)) lg :
  let stats := map (fun ib => (fst (fst (batch_stats h e (fst ib))),
                               snd (fst (batch_stats h e (fst ib))),
                               snd ib)) l in
  total (meter_loss (fold_left (log_step h e) l lg)) =
    fold_left add_value (losses stats) (total (meter_loss lg)) /\
  count (meter_loss (fold_left (log_step h e) l lg)) =
    fold_left add_weight (losses stats) (count (meter_loss lg)) /\
  total (meter_top1 (fold_left (log_step h e) l lg)) =
    fold_left add_value (top1s stats) (total (meter_top1 lg)) /\
  count (meter_top1 (fold_left (log_step h e) l lg)) =
    fold_left add_weight (top1s stats) (count (meter_top1 lg)).
Proof.
  cbv zeta. revert lg. induction l as [|ib l IH]; intros lg; simpl.
  - repeat split; reflexivity.
  - destruct (IH (log_step h e lg ib)) as (-> & -> & -> & ->).
    unfold log_step. destruct (batch_stats h e (fst ib)) as [[? ?] ?].
    repeat split; reflexivity.
Qed.

(** The averages an epoch reads from its meters are the lifetime
    averages of its own batches. *)
Lemma epoch_logger_averages e :
  match global_avg (meter_loss (epoch_logger default_window h c e)),
        global_avg (meter_top1 (epoch_logger default_window h c e)) with
  | Ok l, Ok a => lifetime_averages (epoch_stats h c e) = Ok (l, a)
  | Raise x, _ => lifetime_averages (epoch_stats h c e) = Raise x
  | Ok _, Raise x => lifetime_averages (epoch_stats h c e) = Raise x
  end.
Proof.
  unfold epoch_logger, epoch_stats.
  destruct (log_step_totals e (enumerate (loader_train c))
              (new_MetricLogger default_window)) as (Ht & Hc & Ht1 & Hc1).
  cbv zeta in Ht, Hc, Ht1, Hc1. simpl in Ht, Hc, Ht1, Hc1.
  unfold global_avg, lifetime_averages, weighted_average, weighted_sum, total_samples.
  rewrite Ht, Hc, Ht1, Hc1.
  destruct (fold_left add_weight (losses _) 0 =? 0); [reflexivity|].
  destruct (fold_left add_weight (top1s _) 0 =? 0); reflexivity.
Qed.

(** X6.  With a metrics sink a run logs, after the batches of every
    epoch [e], the loss and then the top-1 accuracy of that epoch at
    step [e + start_epoch]: the averages over the batches of epoch [e]
    alone, weighted by their sizes, since the meters are made anew for
    each epoch.  Without a sink it logs nothing. *)
Theorem epoch_scalars (n : nat) :
  0 < epochs c -> well_formed c ->
  filter is_add_scalars (trace (train default_window h c) n) =
    (if writer c then
       flat_map
         (fun e =>
            match lifetime_averages (epoch_stats h c e) with
            | Ok (loss, acc) =>
                [EvAddScalars Loss loss (e + start_epoch c);
                 EvAddScalars Acc acc (e + start_epoch c)]
            | Raise _ => []
            end)
         (epochs_run c)
     else []) /\
  (forall e, exists loss acc, lifetime_averages (epoch_stats h c e) = Ok (loss, acc)).
Proof.
  intros Hpos Hwf.
  assert (Hok : forall e, exists loss acc,
             global_avg (meter_loss (epoch_logger default_window h c e)) = Ok loss /\
             global_avg (meter_top1 (epoch_logger default_window h c e)) = Ok acc /\
             lifetime_averages (epoch_stats h c e) = Ok (loss, acc)).
  { intros e. pose proof (epoch_logger_averages e) as Ha.
    destruct (epoch_logger_counts default_window h Hwf e) as [H1 H2].
    apply Z.eqb_neq in H1, H2.
    unfold global_avg in *. rewrite H1, H2 in *.
    do 2 eexists. split; [reflexivity|]. split; [reflexivity|]. exact Ha. }
  split.
  - destruct (train_project default_window h Hpos Hwf is_add_scalars n) as [_ Hf].
    { intros [] E; try discriminate E; reflexivity. }
    rewrite Hf.
    replace (filter is_add_scalars (if amp_enabled c then [EvGradScaler] else []))
      with (@nil (Event F)) by (destruct (amp_enabled c); reflexivity).
    rewrite resume_events_silent by reflexivity.
    simpl. rewrite app_nil_r.
    destruct (writer c) eqn:Ew.
    + apply flat_map_ext. intros e.
      replace (filter is_add_scalars (begin_events (F:=F) c e)) with (@nil (Event F))
        by crush_begin c.
      rewrite (flat_map_nil (fun i => filter is_add_scalars _))
        by (intros i; crush_batch h c e i).
      simpl. destruct (Hok e) as (l & a & Hl & Ha & Hlife). rewrite Hlife.
      unfold end_events, trace, epoch_end, bind, lift, whenM, emit, ret.
      rewrite Hl, Ha, Ew.
      destruct (lr_scheduler c && String.eqb (lr_scheduler_freq c) "epochs"),
        (change_train_eval c); reflexivity.
    + apply flat_map_nil. intros e.
      replace (filter is_add_scalars (begin_events (F:=F) c e)) with (@nil (Event F))
        by crush_begin c.
      rewrite (flat_map_nil (fun i => filter is_add_scalars _))
        by (intros i; crush_batch h c e i).
      simpl. destruct (Hok e) as (l & a & Hl & Ha & Hlife).
      unfold end_events, trace, epoch_end, bind, lift, whenM, emit, ret.
      rewrite Hl, Ha, Ew.
      destruct (lr_scheduler c && String.eqb (lr_scheduler_freq c) "epochs"),
        (change_train_eval c); reflexivity.
  - intros e. destruct (Hok e) as (l & a & _ & _ & Hlife). eauto.
Qed.
End EpochMetrics.

Section SavedIsBest.
Context {F : Type} `{FloatOps F}.
Variable default_window : option nat.
Variable h : Hooks F.
Variable c : Config.

(** With saving on, the policy saves whenever it replaces the best so
    far: the best it ends with is the accuracy of its last save. *)
Lemma policy_last_save base es b k :
  save c = true ->
  snd (fst (checkpoint_policy h c es b (base + S k))) =
  match saved_at (fst (fst (checkpoint_policy h c es b (base + S k)))) k with
  | [] => b
  | j :: js => snd (validate_fn h (base + last (j :: js) 0%nat))
  end.
Proof.
  intros Hs. revert b k. induction es as [|e es IH]; intros b k; simpl; [reflexivity|].
  destruct (validates_after c e); [|apply IH].
  specialize (IH (if fge (snd (validate_fn h (base + S k))) b
                  then snd (validate_fn h (base + S k)) else b) (S k)).
  replace (S (base + S k)) with (base + S (S k))%nat by lia.
  destruct (checkpoint_policy h c es _ (base + S (S k))) as [[t b'] m']. simpl in *.
  rewrite Hs, andb_true_r.
  destruct (fge (snd (validate_fn h (base + S k))) b); simpl.
  - rewrite IH. destruct (saved_at t (S k)); reflexivity.
  - exact IH.
Qed.

(** X7.  With saving on, the accuracy [train] ends with as the best is
    that of the last checkpoint at which it called [save_fn], and that of
    the validation before training if it never did: what was saved last
    is the best model seen. *)
Theorem last_save_is_best (n : nat) :
  0 < epochs c -> well_formed c -> validate_interval c <> 0 -> save c = true ->
  res (train default_window h c) n =
    Ok (Some
          match saved_at (trace (train default_window h c) n) 0 with
          | [] => snd (validate_fn h n)
          | j :: js => snd (validate_fn h (n + last (j :: js) 0%nat))
          end).
Proof.
  intros Hpos Hwf Hv Hs.
  destruct (train_checkpoints default_window h Hpos Hwf n Hv) as (t & Ht & Hf).
  unfold res, trace. rewrite Ht. simpl fst. simpl snd.
  rewrite <- saved_at_checkpoints, Hf. simpl saved_at.
  replace (S n) with (n + 1)%nat by lia.
  rewrite (policy_last_save n (epochs_run c) (snd (validate_fn h n)) 0 Hs).
  reflexivity.
Qed.
End SavedIsBest.

Section BestIsMaximum.
Variable default_window : option nat.
Variable h : Hooks Q.
Variable c : Config.

Lemma policy_maximum es b m :
  let '(_, b', m') := checkpoint_policy h c es b m in
  m' = (m + List.length (filter (validates_after c) es))%nat /\
  (b <= b')%Q /\
  (forall k, (m <= k < m')%nat -> (snd (validate_fn h k) <= b')%Q) /\
  (b' = b \/ exists k, (m <= k < m')%nat /\ b' = snd (validate_fn h k)).
Proof.
  revert b m. induction es as [|e es IH]; intros b m; simpl.
  - split; [lia|]. split; [apply Qle_refl|]. split; [intros k Hk; lia | left; reflexivity].
  - destruct (validates_after c e); [|apply IH].
    specialize (IH (if Qle_bool b (snd (validate_fn h m))
                    then snd (validate_fn h m) else b) (S m)).
    destruct (checkpoint_policy h c es _ (S m)) as [[t b'] m'].
    destruct IH as (Hm & Hle & Hall & Hex). simpl.
    assert (Hcur : (snd (validate_fn h m) <=
                    (if Qle_bool b (snd (validate_fn h m))
                     then snd (validate_fn h m) else b))%Q /\
                   (b <= (if Qle_bool b (snd (validate_fn h m))
                          then snd (validate_fn h m) else b))%Q).
    { destruct (Qle_bool b (snd (validate_fn h m))) eqn:E.
      - apply Qle_bool_iff in E. split; [apply Qle_refl | exact E].
      - split; [|apply Qle_refl].
        apply Qlt_le_weak, Qnot_le_lt. intros Hc. apply Qle_bool_iff in Hc. congruence. }
    destruct Hcur as [Hc1 Hc2].
    split; [simpl; lia|]. split; [eapply Qle_trans; eassumption|]. split.
    + intros k Hk. destruct (Nat.eq_dec k m) as [->|Hne].
      * eapply Qle_trans; eassumption.
      * apply Hall. lia.
    + destruct Hex as [Heq | (k & Hk & Heq)].
      * destruct (Qle_bool b (snd (validate_fn h m))).
        -- right. exists m. split; [lia | exact Heq].
        -- left. exact Heq.
      * right. exists k. split; [lia | exact Heq].
Qed.

(** X8.  The accuracy [train] ends with as the best is the greatest of
    the accuracies [validate_fn] returned during the run, the validation
    before training included; [validate_fn] is called once before
    training and once after each epoch that validates. *)
Theorem best_is_maximum (n : nat) :
  0 < epochs c -> well_formed c -> validate_interval c <> 0 ->
  let n' := final (train default_window h c) n in
  n' = (n + 1 + List.length (filter (validates_after c) (epochs_run c)))%nat /\
  exists best,
    res (train default_window h c) n = Ok (Some best) /\
    (forall k, (n <= k < n')%nat -> (snd (validate_fn h k) <= best)%Q) /\
    (exists k, (n <= k < n')%nat /\ best = snd (validate_fn h k)).
Proof.
  intros Hpos Hwf Hv. cbv zeta.
  destruct (train_checkpoints default_window h Hpos Hwf n Hv) as (t & Ht & _).
  unfold res, final. rewrite Ht. simpl fst. simpl snd.
  pose proof (policy_maximum (epochs_run c) (snd (validate_fn h n)) (S n)) as Hp.
  destruct (checkpoint_policy h c (epochs_run c) (snd (validate_fn h n)) (S n))
    as [[tp b'] m'].
  destruct Hp as (Hm & Hle & Hall & Hex). simpl.
  split; [lia|]. exists b'. split; [reflexivity|]. split.
  - intros k Hk. destruct (Nat.eq_dec k n) as [->|Hne]; [exact Hle | apply Hall; lia].
  - destruct Hex as [Heq | (k & Hk & Heq)].
    + exists n. split; [lia | exact Heq].
    + exists k. split; [lia | exact Heq].
Qed.
End BestIsMaximum.

Lemma bind_raise {St Ev A B} (m : M St Ev A) (f : A -> M St Ev B) s e t1 s1 :
  m s = (Raise e, t1, s1) -> bind m f s = (Raise e, t1, s1).
Proof. intros E. unfold bind. rewrite E. reflexivity. Qed.

Lemma whenM_emit {St Ev} (b : bool) (ev : Ev) (s : St) :
  whenM b (emit ev) s = (Ok tt, if b then [ev] else [], s).
Proof. destruct b; reflexivity. Qed.

(** Lines 61-65. *)
Lemma first_validation_run {F : Type} (h : Hooks F) (c : Config) (n : nat) :
  (if negb (validate_interval c =? 0)
   then bind (call_validate_fn h false false (start_epoch c))
          (fun '(_, best_acc) => ret (Some best_acc))
   else ret None) n =
  (Ok (first_best h c n),
   if validate_interval c =? 0 then []
   else [EvValidate false false (start_epoch c)],
   first_calls c n).
Proof.
  unfold first_best, first_calls, bind, call_validate_fn, ret.
  destruct (validate_interval c =? 0); simpl; [reflexivity|].
  destruct (validate_fn h n); reflexivity.
Qed.

Section ZeroStride.
Context {F : Type} `{FloatOps F}.
Variable default_window : option nat.
Variable h : Hooks F.
Variable c : Config.

Hypothesis Hema : model_ema c = true.
Hypothesis Hzero : model_ema_steps c = 0.

Lemma batch_raises amp_on len ti e lg ib m :
  train_batch h c amp_on len ti e lg ib m =
  (Raise ZeroDivisionError, batch_events h c amp_on len ti e (fst ib), m).
Proof.
  destruct ib as [i bs]. unfold_piece. rewrite Hema, Hzero. simpl.
  destruct (batch_stats h e i) as [[? ?] ?].
  destruct (pre_conditioner c), amp_on, (after_loss_fn c), (grad_clip c);
    reflexivity.
Qed.

(** The run up to the exception. *)
Lemma zero_stride_run n :
  0 < epochs c -> resume c < epochs c -> loader_train c <> [] ->
  train default_window h c n =
  (Raise ZeroDivisionError,
   prelude_events c ++ resume_events c ++ begin_events c (resume c + 1) ++
   batch_events h c (amp_enabled c) (len_train c) (total_iterations c) (resume c + 1) 0,
   first_calls c n).
Proof.
  intros Hpos Hres Hne.
  assert (Hepoch : forall best m,
            train_epoch default_window h c (amp_enabled c) (len_train c)
              (total_iterations c) best (resume c) m =
            (Raise ZeroDivisionError,
             begin_events c (resume c + 1) ++
             batch_events h c (amp_enabled c) (len_train c) (total_iterations c)
               (resume c + 1) 0, m)).
  { intros best m. unfold train_epoch. apply bind_raise.
    unfold train_epoch_work. erewrite bind_ok by apply epoch_begin_run.
    destruct (loader_train c) as [|bs l]; [contradiction|].
    unfold enumerate. cbn [enumerate_from foldM].
    erewrite (bind_raise _ _ _ (bind_raise _ _ _ (batch_raises _ _ _ _ _ _ _))).
    reflexivity. }
  unfold train. apply Z.leb_gt in Hpos. rewrite Hpos.
  rewrite (@range_cons (resume c) (epochs c)) by lia. cbn [foldM].
  fold (len_train c). fold (total_iterations c).
  erewrite bind_ok by apply whenM_emit.
  erewrite bind_ok by apply first_validation_run.
  erewrite bind_ok by apply resume_walk_run.
  erewrite (bind_raise _ _ _ (bind_raise _ _ _ (Hepoch _ _))).
  unfold prelude_events.
  destruct (amp_enabled c), (validate_interval c =? 0); reflexivity.
Qed.

(** X9.  With an EMA tracker of stride 0 a run that has a batch to train
    on raises [ZeroDivisionError] in its first batch: after the update of
    the parameters of that batch, before any call on the tracker, and
    without reaching a checkpoint. *)
Theorem zero_stride_stops_first_batch (n : nat) :
  0 < epochs c -> resume c < epochs c -> loader_train c <> [] ->
  res (train default_window h c) n = Raise ZeroDivisionError /\
  filter is_get_data (trace (train default_window h c) n) = [EvGetData] /\
  filter is_param_update (trace (train default_window h c) n) =
    [if amp_enabled c then EvScalerStep else EvOptimizerStep] /\
  filter is_ema_event (trace (train default_window h c) n) = [] /\
  filter (fun ev => is_periodic_validate ev || is_save ev)
    (trace (train default_window h c) n) = [].
Proof.
  intros Hpos Hres Hne.
  pose proof (zero_stride_run n Hpos Hres Hne) as Hrun.
  unfold res, trace. rewrite Hrun. simpl fst. simpl snd.
  split; [reflexivity|].
  rewrite !filter_app.
  unfold prelude_events. rewrite !filter_app.
  rewrite !resume_events_silent by reflexivity.
  unfold_piece. rewrite Hema, Hzero. simpl.
  destruct (batch_stats h (resume c + 1) 0) as [[? ?] ?].
  destruct (amp_enabled c), (validate_interval c =? 0), (epoch_fn c),
    (change_train_eval c), (pre_conditioner c), (after_loss_fn c), (grad_clip c);
    repeat split; reflexivity.
Qed.
End ZeroStride.

(** * Further properties of [validate] *)

Section ValidateCalls.
Context {F : Type} `{FloatOps F}.
Variables Data Input Label Output Params : Type.
Variable get_data_fn : Data -> Input * Label.
Variable forward_fn : Module Params -> Input -> Output.
Variable loss_fn : Input -> Label -> Output -> F.
Variable accuracy_fn : Output -> Label -> F * F.
Variable label_size : Label -> Z.

(** X10.  [validate] switches the model to inference mode before it
    touches the data, then takes the batches in order (data extraction,
    forward pass, loss, accuracy), and only then, if a writer, a step
    [_epoch] and a non-empty [main_tag] are all given, logs the loss and
    the accuracy it returns at that step; it logs nothing when one of them
    is missing or when the source has no sample. *)
Theorem validate_calls default_window loader writer main_tag _epoch m :
  let v := validate get_data_fn forward_fn loss_fn accuracy_fn label_size
             default_window loader writer main_tag _epoch in
  let l := map (batch_summary get_data_fn forward_fn loss_fn accuracy_fn label_size
                  (eval_mode m)) loader in
  trace v m =
    VModuleEval ::
    flat_map (fun d => [VGetData d; VForward (fst (get_data_fn d)); VLoss; VAccuracy])
      loader ++
    match lifetime_averages l, _epoch with
    | Ok (loss, acc), Some global_step =>
        if writer && negb (String.eqb main_tag "")
        then [VAddScalars Loss loss global_step; VAddScalars Acc acc global_step]
        else []
    | _, _ => []
    end.
Proof.
  cbv zeta. unfold trace.
  destruct (validate_loop_run get_data_fn forward_fn loss_fn accuracy_fn label_size
              loader (new_MetricLogger default_window) (eval_mode m))
    as (lg & Hrun & Ht & Hc & Ht1 & Hc1).
  cbv zeta in Ht, Hc, Ht1, Hc1.
  destruct (validate get_data_fn forward_fn loss_fn accuracy_fn label_size
              default_window loader writer main_tag _epoch m) as [[r t] m'] eqn:Ev.
  unfold validate in Ev.
  erewrite bind_ok in Ev by (unfold module_eval; reflexivity).
  erewrite bind_ok in Ev by exact Hrun.
  unfold lifetime_averages, weighted_average, weighted_sum, total_samples.
  rewrite same_weights in Hc1. simpl in Ht, Hc, Ht1, Hc1. rewrite <- Hc in Hc1.
  rewrite same_weights, <- Ht, <- Hc, <- Ht1.
  unfold bind, lift, global_avg, ret, whenM, emit in Ev. rewrite Hc1 in Ev.
  destruct (count (meter_loss lg) =? 0).
  - injection Ev as <- <- <-. simpl. destruct _epoch; reflexivity.
  - destruct _epoch as [g|]; [destruct (writer && negb (String.eqb main_tag ""))|];
      simpl in Ev; injection Ev as <- <- <-; simpl; rewrite ?app_nil_r; reflexivity.
Qed.

(** X11.  What [validate] returns does not depend on the mode the model
    was left in, nor on the writer, the tag, the step or the window of the
    meters: a model in training mode is validated as the same model in
    inference mode. *)
Theorem validate_ignores_mode window window' loader writer writer' main_tag main_tag'
    _epoch _epoch' m mode :
  res (validate get_data_fn forward_fn loss_fn accuracy_fn label_size
         window loader writer main_tag _epoch)
      {| params := params m; training := mode |} =
  res (validate get_data_fn forward_fn loss_fn accuracy_fn label_size
         window' loader writer' main_tag' _epoch') m.
Proof.
  destruct (validate_run get_data_fn forward_fn loss_fn accuracy_fn label_size
              window loader writer main_tag _epoch
              {| params := params m; training := mode |}) as (-> & _).
  destruct (validate_run get_data_fn forward_fn loss_fn accuracy_fn label_size
              window' loader writer' main_tag' _epoch' m) as (-> & _).
  reflexivity.
Qed.
End ValidateCalls.

(** * Properties of [compare] *)

Lemma final_bind {St Ev A B} (m : M St Ev A) (f : A -> M St Ev B) s :
  final (bind m f) s =
  match res m s with
  | Ok a => final (f a) (final m s)
  | Raise _ => final m s
  end.
Proof.
  unfold final, res, bind.
  destruct (m s) as [[[a|e] t1] s1]; simpl; [|reflexivity].
  destruct (f a s1) as [[r t2] s2]; reflexivity.
Qed.

Lemma foldM_final {St Ev A S} (body : S -> A -> M St Ev S) :
  (forall s a st, final (body s a) st = st) ->
  forall l s st, final (foldM body l s) st = st.
Proof.
  intros Hb l. induction l as [|a l IH]; intros s st; simpl; [reflexivity|].
  rewrite final_bind, Hb. destruct (res (body s a) st); [apply IH | reflexivity].
Qed.

Section CompareFacts.
Context {F : Type} `{FloatOps F}.
Variables Data Input Label Output Params : Type.
Variable get_data_fn : Data -> Input * Label.
Variable forward1 : Module Params -> Input -> Output.
Variable forward2 : Module Params -> Input -> Output.
Variable softmax : Output -> result Output.
Variable criterion : Output -> Output -> F.
Variable label_size : Label -> Z.

Lemma compare_batch_final meter d s :
  final (compare_batch get_data_fn forward1 forward2 softmax criterion label_size
           meter d) s = s.
Proof.
  unfold final, compare_batch, bind, emit, ret, call_module1, call_module2,
    call_softmax.
  destruct (get_data_fn d) as [x y]. simpl.
  destruct (softmax (forward2 (snd s) x)); reflexivity.
Qed.

(** Whatever happens in its loop, [compare] leaves both models in
    inference mode. *)
Lemma compare_leaves_models_in_eval default_window loader s :
  final (compare get_data_fn forward1 forward2 softmax criterion label_size
           default_window loader) s =
  (eval_mode (fst s), eval_mode (snd s)).
Proof.
  unfold compare. rewrite !final_bind.
  rewrite foldM_final by apply compare_batch_final.
  change (res (module1_eval Data Input (Params:=Params)) s) with (@Ok unit tt).
  change (final (module1_eval Data Input (Params:=Params)) s)
    with (eval_mode (fst s), snd s).
  cbv beta iota.
  change (res (module2_eval Data Input (Params:=Params)) (eval_mode (fst s), snd s))
    with (@Ok unit tt).
  change (final (module2_eval Data Input (Params:=Params)) (eval_mode (fst s), snd s))
    with (eval_mode (fst s), eval_mode (snd s)).
  cbv beta iota.
  destruct (res _ _) as [meter|e]; [|reflexivity].
  unfold final, lift. destruct (global_avg meter); reflexivity.
Qed.

Lemma compare_loop_run (soft : Output -> Output) loader meter s :
  (forall o, softmax o = Ok (soft o)) ->
  exists meter' t,
    foldM (compare_batch get_data_fn forward1 forward2 softmax criterion label_size)
      loader meter s = (Ok meter', t, s) /\
    let l := map (batch_divergence get_data_fn forward1 forward2 criterion label_size
                    soft s) loader in
    total meter' = fold_left add_value l (total meter) /\
    count meter' = fold_left add_weight l (count meter).
Proof.
  intros Hsoft. revert meter. induction loader as [|d l IH]; intros meter; simpl.
  - exists meter, []. repeat split; reflexivity.
  - destruct (get_data_fn d) as [x y] eqn:Ed.
    set (loss := criterion (forward1 (fst s) x) (soft (forward2 (snd s) x))).
    assert (Hb : exists t1,
               compare_batch get_data_fn forward1 forward2 softmax criterion label_size
                 meter d s = (Ok (update meter loss (label_size y)), t1, s)).
    { unfold compare_batch, bind, emit, ret, call_module1, call_module2, call_softmax.
      rewrite Ed. simpl. rewrite Hsoft. eexists. reflexivity. }
    destruct Hb as (t1 & Hb).
    erewrite bind_ok by exact Hb.
    destruct (IH (update meter loss (label_size y))) as (meter' & t2 & Hrun & Ht & Hc).
    rewrite Hrun. exists meter', (t1 ++ t2). split; [reflexivity|].
    assert (Hs : batch_divergence get_data_fn forward1 forward2 criterion label_size
                   soft s d = (loss, label_size y)).
    { unfold batch_divergence. rewrite Ed. reflexivity. }
    cbv zeta in Ht, Hc |- *. rewrite Ht, Hc. cbn [map fold_left]. rewrite Hs.
    split; reflexivity.
Qed.

(** X12.  When the normalisation of the second output returns,
    [compare] returns the average over the batches of the criterion
    between the first model's output and the normalised output of the
    second, both computed in inference mode and weighted by the batch
    sizes, whatever the window of the meter.  (The quotient, like
    [global_avg], has no value for a source without samples.) *)
Theorem compare_returns_weighted_divergence (soft : Output -> Output)
    default_window loader s :
  (forall o, softmax o = Ok (soft o)) ->
  res (compare get_data_fn forward1 forward2 softmax criterion label_size
         default_window loader) s =
  weighted_average
    (map (batch_divergence get_data_fn forward1 forward2 criterion label_size soft
            (eval_mode (fst s), eval_mode (snd s))) loader).
Proof.
  intros Hsoft.
  destruct (compare_loop_run soft loader (new_SmoothedValue default_window)
              (eval_mode (fst s), eval_mode (snd s)) Hsoft)
    as (meter & t & Hrun & Ht & Hc).
  cbv zeta in Ht, Hc. simpl in Ht, Hc.
  unfold res, compare.
  erewrite bind_ok by (unfold module1_eval; reflexivity).
  erewrite bind_ok by (unfold module2_eval; reflexivity).
  simpl fst; simpl snd.
  erewrite bind_ok by exact Hrun.
  unfold lift, global_avg, weighted_average, weighted_sum, total_samples.
  rewrite Ht, Hc. reflexivity.
Qed.

(** X13.  When the normalisation of the second output raises on the
    first batch, [compare] raises the same exception there: the criterion
    is never computed and no metric is read. *)
Theorem compare_stops_at_softmax default_window d loader s e :
  softmax (forward2 (eval_mode (snd s)) (fst (get_data_fn d))) = Raise e ->
  res (compare get_data_fn forward1 forward2 softmax criterion label_size
         default_window (d :: loader)) s = Raise e /\
  filter is_CCriterion
    (trace (compare get_data_fn forward1 forward2 softmax criterion label_size
              default_window (d :: loader)) s) = [].
Proof.
  intros Hs. unfold res, trace, compare.
  erewrite bind_ok by (unfold module1_eval; reflexivity).
  erewrite bind_ok by (unfold module2_eval; reflexivity).
  simpl fst; simpl snd. cbn [foldM].
  assert (Hb : exists t1,
             compare_batch get_data_fn forward1 forward2 softmax criterion label_size
               (new_SmoothedValue default_window) d
               (eval_mode (fst s), eval_mode (snd s)) =
             (Raise e, t1, (eval_mode (fst s), eval_mode (snd s))) /\
             filter is_CCriterion t1 = []).
  { unfold compare_batch, bind, emit, ret, call_module1, call_module2, call_softmax.
    destruct (get_data_fn d) as [x y]. simpl in *. rewrite Hs.
    eexists. split; reflexivity. }
  destruct Hb as (t1 & Hb & Hf).
  erewrite (bind_raise _ _ _ (bind_raise _ _ _ Hb)).
  simpl. rewrite Hf. split; reflexivity.
Qed.
End CompareFacts.

(** * Properties of [ImageSet.make_folder] *)

Lemma str_inj a b : str a = str b -> a = b.
Proof.
  unfold str. intros E.
  assert (Hn : forall z, Z.to_int z <> Decimal.Pos Decimal.Nil /\
                         Z.to_int z <> Decimal.Neg Decimal.Nil).
  { intros z. pose proof (DecimalZ.to_of (Z.to_int z)) as Hz.
    rewrite DecimalZ.of_to in Hz.
    split; intros Hc; rewrite Hc in Hz; discriminate Hz. }
  apply (f_equal NilZero.int_of_string) in E.
  rewrite !NilZero.isi in E by apply Hn.
  injection E as E. now apply DecimalZ.to_int_inj.
Qed.

Lemma length_append (s t : string) :
  String.length (s ++ t) = (String.length s + String.length t)%nat.
Proof. induction s as [|c s IH]; simpl; [reflexivity | now rewrite IH]. Qed.

Lemma append_inv_tail (s1 s2 t : string) :
  (s1 ++ t)%string = (s2 ++ t)%string -> s1 = s2.
Proof.
  revert s2. induction s1 as [|c s1 IH]; intros [|c2 s2] E; simpl in E.
  - reflexivity.
  - apply (f_equal String.length) in E. simpl in E. rewrite length_append in E. lia.
  - apply (f_equal String.length) in E. simpl in E. rewrite length_append in E. lia.
  - injection E as -> E. f_equal. now apply IH.
Qed.

Section DictFacts.
Variables K V : Type.
Variable eqb : K -> K -> bool.
Hypothesis eqb_eq : forall a b, eqb a b = true <-> a = b.

Lemma eqb_refl a : eqb a a = true.
Proof. now apply eqb_eq. Qed.

Lemma eqb_neq a b : a <> b -> eqb a b = false.
Proof.
  intros Hn. destruct (eqb a b) eqn:E; [|reflexivity].
  apply eqb_eq in E. contradiction.
Qed.

Lemma dict_set_fresh (d : dict K V) k v :
  ~ In k (map fst d) -> dict_set eqb d k v = d ++ [(k, v)].
Proof.
  induction d as [|[k' v'] d IH]; simpl; intros Hn; [reflexivity|].
  rewrite eqb_neq by (intros ->; apply Hn; now left).
  f_equal. apply IH. intros Hc. apply Hn. now right.
Qed.

Lemma fold_set_nodup (items d : dict K V) :
  NoDup (map fst (d ++ items)) ->
  fold_left (fun d kv => dict_set eqb d (fst kv) (snd kv)) items d = d ++ items.
Proof.
  revert d. induction items as [|[k v] items IH]; intros d Hd; simpl.
  - now rewrite app_nil_r.
  - assert (Hk : ~ In k (map fst d)).
    { rewrite map_app in Hd. simpl in Hd. apply NoDup_remove_2 in Hd.
      intros Hc. apply Hd. apply in_or_app. now left. }
    rewrite dict_set_fresh by exact Hk.
    rewrite IH; rewrite <- app_assoc; [reflexivity | exact Hd].
Qed.

(** A comprehension over items of distinct keys keeps them all, in order. *)
Lemma dict_of_items_nodup (items : list (K * V)) :
  NoDup (map fst items) -> dict_of_items eqb items = items.
Proof. intros Hd. unfold dict_of_items. now rewrite fold_set_nodup. Qed.

Lemma dict_get_in (d : dict K V) k v : dict_get eqb d k = Some v -> In (k, v) d.
Proof.
  induction d as [|[k' v'] d IH]; simpl; [discriminate|].
  destruct (eqb k' k) eqn:E.
  - intros [= ->]. apply eqb_eq in E. subst. now left.
  - intros Hg. right. now apply IH.
Qed.

Lemma dict_get_notin (d : dict K V) k :
  ~ In k (map fst d) -> dict_get eqb d k = None.
Proof.
  induction d as [|[k' v'] d IH]; simpl; intros Hn; [reflexivity|].
  rewrite eqb_neq by (intros ->; apply Hn; now left).
  apply IH. intros Hc. apply Hn. now right.
Qed.

Lemma in_dict_set (d : dict K V) k v x :
  In x (dict_set eqb d k v) -> In x d \/ x = (k, v).
Proof.
  induction d as [|[k' v'] d IH]; simpl.
  - intros [<- | []]. now right.
  - destruct (eqb k' k) eqn:E; simpl.
    + intros [<- | Hx]; [right | left; now right].
      apply eqb_eq in E. now subst.
    + intros [<- | Hx]; [left; now left|].
      destruct (IH Hx) as [Hd | ->]; [left; now right | now right].
Qed.

Lemma in_fold_set (items d : dict K V) x :
  In x (fold_left (fun d kv => dict_set eqb d (fst kv) (snd kv)) items d) ->
  In x d \/ In x items.
Proof.
  revert d. induction items as [|[k v] items IH]; intros d; simpl; [now left|].
  intros Hx. destruct (IH _ Hx) as [Hd|Hi]; [|right; now right].
  destruct (in_dict_set _ _ _ _ Hd) as [Hd' | ->]; [now left | right; now left].
Qed.

(** Whatever a comprehension holds under a key was among its items. *)
Lemma dict_of_items_get (items : list (K * V)) k v :
  dict_get eqb (dict_of_items eqb items) k = Some v -> In (k, v) items.
Proof.
  intros Hg. apply dict_get_in in Hg.
  destruct (in_fold_set _ _ _ Hg) as [[]|Hi]. exact Hi.
Qed.
End DictFacts.

Lemma nodup_keys_functional {K V} (d : list (K * V)) k v1 v2 :
  NoDup (map fst d) -> In (k, v1) d -> In (k, v2) d -> v1 = v2.
Proof.
  induction d as [|[k' v'] d IH]; simpl; intros Hd H1 H2; [contradiction|].
  inversion Hd as [|? ? Hn Hd']; subst.
  destruct H1 as [H1|H1], H2 as [H2|H2].
  - congruence.
  - exfalso. apply Hn. apply (in_map fst) in H2. injection H1 as -> _. exact H2.
  - exfalso. apply Hn. apply (in_map fst) in H1. injection H2 as -> _. exact H1.
  - now apply IH.
Qed.

Lemma range_nodup lo hi : NoDup (range lo hi).
Proof.
  unfold range. apply NoDup_map_NoDup_ForallPairs; [|apply seq_NoDup].
  intros a b _ _ E. lia.
Qed.

Lemma in_range lo hi x : In x (range lo hi) <-> lo <= x < hi.
Proof.
  unfold range. rewrite in_map_iff. split.
  - intros (n & <- & Hn). apply in_seq in Hn. lia.
  - intros Hx. exists (Z.to_nat (x - lo)). split; [lia|]. apply in_seq. lia.
Qed.

Lemma set_nth_length {A} k (x : A) l : List.length (set_nth k x l) = List.length l.
Proof.
  revert k. induction l as [|a l IH]; intros [|k]; simpl; try reflexivity.
  now rewrite IH.
Qed.

Lemma nth_set_nth_eq {A} k (x d : A) l :
  (k < List.length l)%nat -> nth k (set_nth k x l) d = x.
Proof.
  revert k. induction l as [|a l IH]; intros [|k] Hk; simpl in *; try lia.
  - reflexivity.
  - apply IH. lia.
Qed.

Lemma nth_set_nth_neq {A} k j (x d : A) l :
  j <> k -> nth j (set_nth k x l) d = nth j l d.
Proof.
  revert k j. induction l as [|a l IH]; intros [|k] [|j] Hn; simpl; try reflexivity.
  - contradiction.
  - apply IH. congruence.
Qed.

Lemma py_index_bound {A} (l : list A) i k :
  py_index l i = Some k -> (k < List.length l)%nat.
Proof.
  unfold py_index.
  destruct ((0 <=? i) && (i <? Z.of_nat (List.length l))) eqn:E1.
  - intros [= <-]. apply andb_true_iff in E1. lia.
  - destruct ((- Z.of_nat (List.length l) <=? i) && (i <? 0)) eqn:E2; [|discriminate].
    intros [= <-]. apply andb_true_iff in E2. lia.
Qed.

Lemma py_index_same_length {A} (l l' : list A) i :
  List.length l = List.length l' -> py_index l i = py_index l' i.
Proof. unfold py_index. now intros ->. Qed.

Lemma py_index_in_range {A} (l : list A) i :
  0 <= i < Z.of_nat (List.length l) -> py_index l i = Some (Z.to_nat i).
Proof.
  intros Hi. unfold py_index.
  replace ((0 <=? i) && (i <? Z.of_nat (List.length l))) with true; [reflexivity|].
  symmetry. apply andb_true_iff. lia.
Qed.

Section MakeFolderFacts.
Variables Image FS : Type.
Variable path_exists : FS -> path -> bool.
Variable makedirs : FS -> path -> FS.
Variable image_save : FS -> Image -> path -> FS.
Variable self : ImageSet Image.

Lemma saved_files_app (t1 t2 : list (FEvent Image)) :
  saved_files (t1 ++ t2) = saved_files t1 ++ saved_files t2.
Proof. unfold saved_files. apply flat_map_app. Qed.

Lemma saved_images_app (t1 t2 : list (FEvent Image)) :
  saved_images (t1 ++ t2) = saved_images t1 ++ saved_images t2.
Proof. unfold saved_images. apply flat_map_app. Qed.


Lemma saved_files_dirs (w : FS) (_dir : path) :
  saved_files
    (fst (if path_exists w _dir then ([], w)
          else ([FMakedirs Image _dir], makedirs w _dir))) = [].
Proof. destruct (path_exists w _dir); reflexivity. Qed.

Lemma saved_images_dirs (w : FS) (_dir : path) :
  saved_images
    (fst (if path_exists w _dir then ([], w)
          else ([FMakedirs Image _dir], makedirs w _dir))) = [].
Proof. destruct (path_exists w _dir); reflexivity. Qed.

(** The inverse of a class map names every class index once. *)
Lemma idx_to_class_injective a b s :
  (forall d, class_to_idx self = Some d -> NoDup (map fst d)) ->
  dict_get Z.eqb (idx_to_class self) a = Some s ->
  dict_get Z.eqb (idx_to_class self) b = Some s ->
  a = b.
Proof.
  intros Hd Ha Hb. unfold idx_to_class in Ha, Hb.
  apply (dict_of_items_get Z.eqb Z.eqb_eq) in Ha, Hb.
  apply in_map_iff in Ha, Hb.
  destruct Ha as ([s1 a1] & [= <- <-] & Ha), Hb as ([s2 b1] & [= <- E] & Hb).
  simpl in E. subst s2.
  assert (Hk : NoDup (map fst (get_class_to_idx self))).
  { unfold get_class_to_idx in *. destruct (class_to_idx self) as [d|].
    - now apply Hd.
    - assert (Hn : NoDup (map fst (map (fun i => (str i, i))
                                     (range 0 (num_classes self))))).
      { rewrite map_map. simpl.
        apply NoDup_map_NoDup_ForallPairs; [|apply range_nodup].
        intros x y _ _. apply str_inj. }
      rewrite (dict_of_items_nodup String.eqb String.eqb_eq _ Hn). exact Hn. }
  exact (nodup_keys_functional _ _ _ _ Hk Ha Hb).
Qed.

(** Every file written in a pass over one data set lies in the directory
    of a class, under a number not below the counter of the class at the
    start of the pass; and no file is written twice. *)
Lemma save_images_files img_type mode dataset :
  (forall d, class_to_idx self = Some d -> NoDup (map fst d)) ->
  forall class_counters w,
    let t := snd (fst (save_images path_exists makedirs image_save self img_type mode
                         (idx_to_class self) dataset class_counters w)) in
    NoDup (saved_files t) /\
    forall file, In file (saved_files t) ->
      exists target_class class_name k c,
        file = [folder_path self; name self; mode; class_name;
                (str c ++ img_type)%string] /\
        dict_get Z.eqb (idx_to_class self) target_class = Some class_name /\
        py_index class_counters target_class = Some k /\
        nth k class_counters 0 <= c.
Proof.
  intros Hd. induction dataset as [|[image target] rest IH]; intros cc w; simpl.
  - split; [constructor | intros ? []].
  - destruct (dict_get Z.eqb (idx_to_class self) target) as [cls|] eqn:Ecls;
      [|split; [constructor | intros ? []]].
    pose proof (saved_files_dirs w [folder_path self; name self; mode; cls]) as Hdirs.
    destruct (if path_exists w [folder_path self; name self; mode; cls]
              then ([], w)
              else ([FMakedirs Image [folder_path self; name self; mode; cls]],
                    makedirs w [folder_path self; name self; mode; cls]))
      as [t1 w1].
    simpl in Hdirs.
    destruct (py_index cc target) as [k|] eqn:Ek; simpl;
      [|rewrite Hdirs; split; [constructor | intros ? []]].
    set (c0 := nth k cc 0).
    set (file0 := [folder_path self; name self; mode; cls; (str c0 ++ img_type)%string]).
    specialize (IH (set_nth k (c0 + 1) cc) (image_save w1 image file0)).
    destruct (save_images path_exists makedirs image_save self img_type mode
                (idx_to_class self) rest (set_nth k (c0 + 1) cc)
                (image_save w1 image file0)) as [[e t2] w2].
    simpl in IH |- *. destruct IH as (Hnd & Hin).
    rewrite saved_files_app, Hdirs. simpl.
    pose proof (py_index_bound _ _ Ek) as Hk.
    split.
    + constructor; [|exact Hnd].
      intros Hc. destruct (Hin _ Hc) as (tc & cn & k' & c & Hf & Hcn & Hk' & Hle).
      unfold file0 in Hf. injection Hf as Hcls Hstr.
      apply append_inv_tail, str_inj in Hstr. subst cn.
      assert (tc = target) by exact (idx_to_class_injective _ _ Hd Hcn Ecls).
      subst tc.
      rewrite (py_index_same_length (set_nth k (c0 + 1) cc) cc target
                 (set_nth_length _ _ _)) in Hk'.
      rewrite Ek in Hk'. injection Hk' as <-.
      rewrite nth_set_nth_eq in Hle by exact Hk. lia.
    + intros file [<-|Hf].
      * exists target, cls, k, c0. repeat split; try assumption. unfold c0. lia.
      * destruct (Hin _ Hf) as (tc & cn & k' & c & Hfile & Hcn & Hk' & Hle).
        exists tc, cn, k', c. repeat split; try assumption.
        -- rewrite <- Hk'. apply py_index_same_length. symmetry. apply set_nth_length.
        -- destruct (Nat.eq_dec k' k) as [->|Hne].
           ++ rewrite nth_set_nth_eq in Hle by exact Hk. fold c0. lia.
           ++ now rewrite nth_set_nth_neq in Hle by exact Hne.
Qed.

Lemma save_modes_files img_type modes :
  (forall d, class_to_idx self = Some d -> NoDup (map fst d)) ->
  NoDup modes ->
  forall w,
    let t := snd (fst (save_modes path_exists makedirs image_save self img_type
                         (idx_to_class self) modes w)) in
    NoDup (saved_files t) /\
    forall file, In file (saved_files t) -> In (nth 2 file EmptyString) modes.
Proof.
  intros Hd. induction modes as [|mode rest IH]; intros Hm w; simpl.
  - split; [constructor | intros ? []].
  - inversion Hm as [|? ? Hfresh Hrest]; subst.
    pose proof (save_images_files img_type mode (get_org_dataset self mode) Hd
                  (repeat 0 (Z.to_nat (num_classes self))) w) as Himg.
    destruct (save_images path_exists makedirs image_save self img_type mode
                (idx_to_class self) (get_org_dataset self mode)
                (repeat 0 (Z.to_nat (num_classes self))) w) as [[[e|] t] w1].
    + simpl in Himg |- *. destruct Himg as (Hnd & Hin). split; [exact Hnd|].
      intros file Hf. destruct (Hin _ Hf) as (? & ? & ? & ? & -> & _). now left.
    + specialize (IH Hrest w1).
      destruct (save_modes path_exists makedirs image_save self img_type
                  (idx_to_class self) rest w1) as [[e2 t2] w2].
      simpl in Himg, IH |- *. destruct Himg as (Hnd & Hin), IH as (Hnd2 & Hin2).
      rewrite saved_files_app. split.
      * apply NoDup_app; [exact Hnd | exact Hnd2 |].
        intros file Hf Hf2. destruct (Hin _ Hf) as (? & ? & ? & ? & -> & _).
        apply Hin2 in Hf2. simpl in Hf2. contradiction.
      * intros file Hf. apply in_app_or in Hf. destruct Hf as [Hf|Hf].
        -- destruct (Hin _ Hf) as (? & ? & ? & ? & -> & _). now left.
        -- right. now apply Hin2.
Qed.

Lemma mode_list_nodup : NoDup (mode_list self).
Proof.
  unfold mode_list. destruct (valid_set self).
  - constructor; [|constructor; [intros [] | constructor]].
    intros [E|[]]. discriminate E.
  - constructor; [intros [] | constructor].
Qed.

(** X14.  [make_folder] never writes two images to the same file of one
    class directory, whatever the class map, the data sets and the state of
    the file system, and whether or not it runs to its end: the directory
    and file names it hands to [Image.save] are pairwise distinct. *)
Theorem make_folder_never_overwrites img_type w :
  (forall d, class_to_idx self = Some d -> NoDup (map fst d)) ->
  NoDup (saved_files
           (snd (fst (make_folder path_exists makedirs image_save self img_type w)))).
Proof.
  intros Hd. unfold make_folder.
  exact (proj1 (save_modes_files img_type Hd mode_list_nodup w)).
Qed.

(** The inverse of the default class map *)
Lemma idx_to_class_default target_class :
  class_to_idx self = None ->
  dict_get Z.eqb (idx_to_class self) target_class =
  if (0 <=? target_class) && (target_class <? num_classes self)
  then Some (str target_class) else None.
Proof.
  intros Hnone. unfold idx_to_class, get_class_to_idx. rewrite Hnone.
  assert (Hn : NoDup (map fst (map (fun i => (str i, i))
                                 (range 0 (num_classes self))))).
  { rewrite map_map. simpl.
    apply NoDup_map_NoDup_ForallPairs; [|apply range_nodup].
    intros x y _ _. apply str_inj. }
  rewrite (dict_of_items_nodup String.eqb String.eqb_eq _ Hn).
  rewrite map_map. simpl.
  assert (Hi : NoDup (map fst (map (fun i => (i, str i))
                                 (range 0 (num_classes self))))).
  { rewrite map_map. simpl. rewrite map_id. apply range_nodup. }
  rewrite (dict_of_items_nodup Z.eqb Z.eqb_eq _ Hi).
  destruct ((0 <=? target_class) && (target_class <? num_classes self)) eqn:E.
  - assert (Hin : In target_class (range 0 (num_classes self))).
    { apply in_range. apply andb_true_iff in E. lia. }
    clear Hi Hn E. induction (range 0 (num_classes self)) as [|i l IH]; [destruct Hin|].
    simpl. destruct (Z.eqb_spec i target_class) as [->|Hne]; [reflexivity|].
    apply IH. destruct Hin as [Hin|Hin]; [contradiction | exact Hin].
  - apply dict_get_notin; [apply Z.eqb_eq|].
    rewrite map_map. simpl. rewrite map_id. rewrite in_range.
    apply andb_false_iff in E. lia.
Qed.

(** X15.  Without a class map of its own, a data set names the class of
    index [i] by the numeral of [i], for the indices below [num_classes],
    and knows no other class; and the class map takes every such name back
    to its index. *)
Theorem default_class_names target_class :
  class_to_idx self = None ->
  dict_get Z.eqb (idx_to_class self) target_class =
    (if (0 <=? target_class) && (target_class <? num_classes self)
     then Some (str target_class) else None) /\
  (forall class_name,
     dict_get Z.eqb (idx_to_class self) target_class = Some class_name ->
     dict_get String.eqb (get_class_to_idx self) class_name = Some target_class).
Proof.
  intros Hnone. split; [now apply idx_to_class_default|].
  intros class_name. rewrite (idx_to_class_default target_class Hnone).
  destruct ((0 <=? target_class) && (target_class <? num_classes self)) eqn:E;
    [|discriminate].
  intros [= <-]. unfold get_class_to_idx. rewrite Hnone.
  assert (Hn : NoDup (map fst (map (fun i => (str i, i))
                                 (range 0 (num_classes self))))).
  { rewrite map_map. simpl.
    apply NoDup_map_NoDup_ForallPairs; [|apply range_nodup].
    intros x y _ _. apply str_inj. }
  rewrite (dict_of_items_nodup String.eqb String.eqb_eq _ Hn).
  assert (Hin : In target_class (range 0 (num_classes self))).
  { apply in_range. apply andb_true_iff in E. lia. }
  clear Hn E. induction (range 0 (num_classes self)) as [|i l IH]; [destruct Hin|].
  simpl. destruct (String.eqb_spec (str i) (str target_class)) as [Heq|Hne].
  - apply str_inj in Heq. now subst.
  - apply IH. destruct Hin as [Hin|Hin]; [|exact Hin]. now subst.
Qed.

(** A pass over a data set under the default class map, from counters
    that hold the numbers of images [seen] per class: the images of [pre],
    whose classes are known, are written under their numbers; the pass
    ends there, or stops at the first image of an unknown class. *)
Lemma save_images_default img_type mode pre tail :
  class_to_idx self = None ->
  (forall image target_class, In (image, target_class) pre ->
     0 <= target_class < num_classes self) ->
  (forall image target_class post, tail = (image, target_class) :: post ->
     ~ 0 <= target_class < num_classes self) ->
  forall seen class_counters w,
    List.length class_counters = Z.to_nat (num_classes self) ->
    (forall c, 0 <= c < num_classes self ->
       nth (Z.to_nat c) class_counters 0 = Z.of_nat (count_occ Z.eq_dec seen c)) ->
    let r := save_images path_exists makedirs image_save self img_type mode
               (idx_to_class self) (pre ++ tail) class_counters w in
    fst (fst r) = match tail with
                  | [] => None
                  | (_, target_class) :: _ => Some (KeyError target_class)
                  end /\
    saved_images (snd (fst r)) = numbered self img_type mode seen pre.
Proof.
  intros Hnone Hpre Htail. induction pre as [|[image target] rest IH];
    intros seen cc w Hlen Hcc.
  - simpl. destruct tail as [|[image target] post]; [split; reflexivity|].
    simpl. rewrite (idx_to_class_default target Hnone).
    specialize (Htail image target post eq_refl).
    replace ((0 <=? target) && (target <? num_classes self)) with false;
      [split; reflexivity|].
    symmetry. apply andb_false_iff. lia.
  - assert (Hr : 0 <= target < num_classes self) by (apply (Hpre image); now left).
    cbn [app save_images numbered]. rewrite (idx_to_class_default target Hnone).
    replace ((0 <=? target) && (target <? num_classes self)) with true
      by (symmetry; apply andb_true_iff; lia).
    pose proof (saved_images_dirs w [folder_path self; name self; mode; str target])
      as Hdirs.
    destruct (if path_exists w [folder_path self; name self; mode; str target]
              then ([], w)
              else ([FMakedirs Image [folder_path self; name self; mode; str target]],
                    makedirs w [folder_path self; name self; mode; str target]))
      as [t1 w1].
    simpl in Hdirs.
    rewrite py_index_in_range by lia.
    rewrite (Hcc target Hr).
    set (c0 := Z.of_nat (count_occ Z.eq_dec seen target)).
    set (file0 := [folder_path self; name self; mode; str target;
                   (str c0 ++ img_type)%string]).
    specialize (IH (fun i t Hin => Hpre i t (or_intror Hin)) (target :: seen)
                  (set_nth (Z.to_nat target) (c0 + 1) cc)
                  (image_save w1 image file0)).
    destruct (save_images path_exists makedirs image_save self img_type mode
                (idx_to_class self) (rest ++ tail)
                (set_nth (Z.to_nat target) (c0 + 1) cc)
                (image_save w1 image file0)) as [[e t2] w2].
    cbv zeta in IH. simpl fst in IH |- *. simpl snd in IH |- *.
    assert (Hlen' : List.length (set_nth (Z.to_nat target) (c0 + 1) cc) =
                    Z.to_nat (num_classes self)) by now rewrite set_nth_length.
    assert (Hcc' : forall c, 0 <= c < num_classes self ->
              nth (Z.to_nat c) (set_nth (Z.to_nat target) (c0 + 1) cc) 0 =
              Z.of_nat (count_occ Z.eq_dec (target :: seen) c)).
    { intros c Hc. simpl count_occ.
      destruct (Z.eq_dec target c) as [->|Hne].
      - rewrite nth_set_nth_eq by lia. unfold c0. lia.
      - rewrite nth_set_nth_neq by lia. now apply Hcc. }
    destruct (IH Hlen' Hcc') as (He & Hs).
    split; [exact He|].
    rewrite saved_images_app, Hdirs. simpl. now rewrite Hs.
Qed.

Lemma initial_counters (c : Z) :
  0 <= c < num_classes self ->
  nth (Z.to_nat c) (repeat 0 (Z.to_nat (num_classes self))) 0 =
  Z.of_nat (count_occ Z.eq_dec [] c).
Proof. intros _. simpl. apply nth_repeat. Qed.

Lemma save_modes_default img_type modes w :
  class_to_idx self = None ->
  (forall mode image target_class,
     In mode modes -> In (image, target_class) (get_org_dataset self mode) ->
     0 <= target_class < num_classes self) ->
  let r := save_modes path_exists makedirs image_save self img_type
             (idx_to_class self) modes w in
  fst (fst r) = None /\
  saved_images (snd (fst r)) =
  flat_map (fun mode => numbered self img_type mode [] (get_org_dataset self mode))
    modes.
Proof.
  intros Hnone. revert w. induction modes as [|mode rest IH]; intros w Hin.
  - split; reflexivity.
  - cbn [save_modes flat_map].
    pose proof (@save_images_default img_type mode (get_org_dataset self mode) []
                  Hnone (fun i t H => Hin mode i t (or_introl eq_refl) H)
                  ltac:(discriminate) [] _ w
                  (repeat_length 0 (Z.to_nat (num_classes self)))
                  initial_counters) as Himg.
    rewrite app_nil_r in Himg.
    destruct (save_images path_exists makedirs image_save self img_type mode
                (idx_to_class self) (get_org_dataset self mode)
                (repeat 0 (Z.to_nat (num_classes self))) w) as [[e t] w1].
    cbv zeta in Himg. simpl in Himg. destruct Himg as (-> & Hs).
    specialize (IH w1 (fun m i t H => Hin m i t (or_intror H))).
    destruct (save_modes path_exists makedirs image_save self img_type
                (idx_to_class self) rest w1) as [[e2 t2] w2].
    cbv zeta in IH. simpl in IH |- *. destruct IH as (-> & Hs2).
    split; [reflexivity|]. now rewrite saved_images_app, Hs, Hs2.
Qed.

(** X16.  Under the default class map, when every image of the data sets
    has a class below [num_classes], [make_folder] runs to its end and
    writes every image, in the order of its data set, to the directory
    named by the numeral of its class, under the number of images of that
    class before it: the files of a class are numbered 0, 1, 2, ... *)
Theorem make_folder_numbers_by_class img_type w :
  class_to_idx self = None ->
  (forall mode image target_class,
     In mode (mode_list self) ->
     In (image, target_class) (get_org_dataset self mode) ->
     0 <= target_class < num_classes self) ->
  fst (fst (make_folder path_exists makedirs image_save self img_type w)) = None /\
  saved_images (snd (fst (make_folder path_exists makedirs image_save self img_type w))) =
  flat_map (fun mode => numbered self img_type mode [] (get_org_dataset self mode))
    (mode_list self).
Proof. intros Hnone Hin. now apply save_modes_default. Qed.

(** X17.  Under the default class map, the first training image whose
    class is not below [num_classes] stops [make_folder] with a
    [KeyError] on that class: the images before it have been written, and
    neither the images after it nor the validation set are. *)
Theorem make_folder_unknown_class img_type w pre image target_class post :
  class_to_idx self = None ->
  get_org_dataset self "train" = pre ++ (image, target_class) :: post ->
  (forall image' target', In (image', target') pre ->
     0 <= target' < num_classes self) ->
  ~ 0 <= target_class < num_classes self ->
  fst (fst (make_folder path_exists makedirs image_save self img_type w)) =
    Some (KeyError target_class) /\
  saved_images (snd (fst (make_folder path_exists makedirs image_save self img_type w))) =
  numbered self img_type "train" [] pre.
Proof.
  intros Hnone Hds Hpre Hbad.
  assert (Hm : exists rest, mode_list self = "train"%string :: rest).
  { unfold mode_list. destruct (valid_set self); eexists; reflexivity. }
  destruct Hm as (rest & Hm). unfold make_folder. rewrite Hm.
  cbn [save_modes]. rewrite Hds.
  assert (Htail : forall i t p,
             (image, target_class) :: post = (i, t) :: p ->
             ~ 0 <= t < num_classes self).
  { intros i t p [= <- <- <-]. exact Hbad. }
  pose proof (@save_images_default img_type "train" pre _ Hnone Hpre Htail [] _ w
                (repeat_length 0 (Z.to_nat (num_classes self)))
                initial_counters) as Himg.
  destruct (save_images path_exists makedirs image_save self img_type "train"
              (idx_to_class self) (pre ++ (image, target_class) :: post)
              (repeat 0 (Z.to_nat (num_classes self))) w) as [[e t] w1].
  cbv zeta in Himg. simpl in Himg. destruct Himg as (-> & Hs).
  split; [reflexivity | exact Hs].
Qed.
End MakeFolderFacts.

(** * Properties of the documented version *)

Lemma index_a_cons (c : Ascii.ascii) (r : string) :
  index 0 "a" (String c r) =
  if Ascii.eqb c "a"%char then Some 0%nat
  else match index 0 "a" r with Some n => Some (S n) | None => None end.
Proof.
  cbn [index prefix].
  destruct (Ascii.ascii_dec "a"%char c) as [<-|Hne].
  - destruct r; reflexivity.
  - rewrite (proj2 (Ascii.eqb_neq c "a"%char)) by congruence. reflexivity.
Qed.

Lemma index_a_split (s : string) (k : nat) :
  index 0 "a" s = Some k ->
  (k <= String.length s)%nat /\
  index 0 "a" (substring 0 k s) = None /\
  exists r, s = (substring 0 k s ++ String "a"%char r)%string.
Proof.
  revert k. induction s as [|c s IH]; intros k.
  - discriminate.
  - rewrite index_a_cons. destruct (Ascii.eqb c "a"%char) eqn:Ec.
    + intros [= <-]. apply Ascii.eqb_eq in Ec. subst c.
      split; [simpl; lia|]. split; [reflexivity|]. exists s. reflexivity.
    + destruct (index 0 "a" s) as [n|] eqn:Ei; [|discriminate].
      intros [= <-]. destruct (IH n eq_refl) as (Hl & Hn & r & Hr).
      split; [simpl; lia|]. cbn [substring]. split.
      * rewrite index_a_cons, Ec, Hn. reflexivity.
      * exists r. simpl. now rewrite <- Hr.
Qed.

(** X18.  The documented version is the part of the release before its
    first letter a: it is a prefix of the release, holds no a, and what
    follows it in the release is nothing or starts with a. *)
Theorem version_is_release_before_a (release : string) :
  index 0 "a" (version release) = None /\
  exists rest,
    release = (version release ++ rest)%string /\
    (rest = EmptyString \/ exists r, rest = String "a"%char r).
Proof.
  unfold version, str_find.
  destruct (index 0 "a" release) as [k|] eqn:Ei.
  - replace (Z.of_nat k =? -1) with false by (symmetry; apply Z.eqb_neq; lia).
    destruct (index_a_split _ Ei) as (Hl & Hn & r & Hr).
    unfold slice_to.
    replace (Z.of_nat k <? 0) with false by (symmetry; apply Z.ltb_ge; lia).
    replace (Z.to_nat (Z.min (Z.of_nat k) (Z.of_nat (String.length release))))
      with k by lia.
    split; [exact Hn|]. exists (String "a"%char r). split; [exact Hr|].
    right. now exists r.
  - simpl. split; [exact Ei|]. exists EmptyString. split; [|now left].
    clear Ei. induction release as [|c s IH]; simpl; [reflexivity | now rewrite <- IH].
Qed.

(** * The properties on concrete runs *)

Lemma one_update_per_batch_witness :
  0 < epochs Demo.config /\ well_formed Demo.config /\
  filter is_param_update (trace (train None Demo.improving Demo.config) 0%nat) =
    repeat EvOptimizerStep 12.
Proof.
  assert (Hwf : well_formed Demo.config).
  { split; [vm_compute; discriminate | intros _; vm_compute; discriminate]. }
  split; [reflexivity|]. split; [exact Hwf|].
  exact (proj1 (@one_update_per_batch _ _ None Demo.improving Demo.config 0%nat
                  eq_refl Hwf)).
Defined.

Lemma scheduler_steps_witness :
  0 < epochs Demo.config /\ well_formed Demo.config /\
  lr_scheduler Demo.config = true /\
  filter is_scheduler_step (trace (train None Demo.improving Demo.config) 0%nat) =
    repeat EvSchedulerStep 4.
Proof.
  assert (Hwf : well_formed Demo.config).
  { split; [vm_compute; discriminate | intros _; vm_compute; discriminate]. }
  split; [reflexivity|]. split; [exact Hwf|]. split; [reflexivity|].
  refine (proj2 (@scheduler_steps _ _ None Demo.improving Demo.config 0%nat
                   eq_refl Hwf eq_refl) eq_refl _).
  simpl. lia.
Defined.


Lemma gradient_protocol_witness :
  0 < epochs Demo.single_batch /\ well_formed Demo.single_batch /\
  filter is_scaler_protocol
    (trace (train None Demo.improving Demo.single_batch) 0%nat) =
    [EvBackward false; EvAfterLoss false 1 1; EvOptimizerStep].
Proof.
  assert (Hwf : well_formed Demo.single_batch).
  { split; [vm_compute; discriminate | intros E; discriminate E]. }
  split; [reflexivity|]. split; [exact Hwf|].
  exact (@gradient_protocol _ _ None Demo.improving Demo.single_batch 0%nat
           eq_refl Hwf).
Defined.


Lemma epoch_scalars_witness :
  0 < epochs Demo.resumed /\ well_formed Demo.resumed /\
  filter is_add_scalars (trace (train None Demo.pretrained Demo.resumed) 0%nat) =
    flat_map
      (fun e =>
         match lifetime_averages (epoch_stats Demo.pretrained Demo.resumed e) with
         | Ok (loss, acc) => [EvAddScalars Loss loss e; EvAddScalars Acc acc e]
         | Raise _ => []
         end)
      [3; 4; 5].
Proof.
  assert (Hwf : well_formed Demo.resumed).
  { split; [vm_compute; discriminate | intros E; discriminate E]. }
  split; [reflexivity|]. split; [exact Hwf|].
  exact (proj1 (@epoch_scalars _ _ None Demo.pretrained Demo.resumed 0%nat
                  eq_refl Hwf)).
Defined.

Lemma last_save_is_best_witness :
  0 < epochs Demo.config /\ well_formed Demo.config /\
  validate_interval Demo.config <> 0 /\ save Demo.config = true /\
  saved_at (trace (train None Demo.improving Demo.config) 0%nat) 0 = [1; 3]%nat /\
  res (train None Demo.improving Demo.config) 0%nat = Ok (Some (80#1)%Q).
Proof.
  assert (Hwf : well_formed Demo.config).
  { split; [vm_compute; discriminate | intros _; vm_compute; discriminate]. }
  assert (Hv : validate_interval Demo.config <> 0) by (vm_compute; discriminate).
  split; [reflexivity|]. split; [exact Hwf|]. split; [exact Hv|].
  split; [reflexivity|]. split; [reflexivity|].
  exact (@last_save_is_best _ _ None Demo.improving Demo.config 0%nat
           eq_refl Hwf Hv eq_refl).
Defined.

Lemma best_is_maximum_witness :
  0 < epochs Demo.config /\ well_formed Demo.config /\
  validate_interval Demo.config <> 0 /\
  final (train None Demo.improving Demo.config) 0%nat = 5%nat /\
  exists best,
    res (train None Demo.improving Demo.config) 0%nat = Ok (Some best) /\
    forall k, (0 <= k < 5)%nat -> (snd (validate_fn Demo.improving k) <= best)%Q.
Proof.
  assert (Hwf : well_formed Demo.config).
  { split; [vm_compute; discriminate | intros _; vm_compute; discriminate]. }
  assert (Hv : validate_interval Demo.config <> 0) by (vm_compute; discriminate).
  split; [reflexivity|]. split; [exact Hwf|]. split; [exact Hv|].
  destruct (@best_is_maximum None Demo.improving Demo.config 0%nat eq_refl Hwf Hv)
    as (Hn & best & Hres & Hmax & _).
  split; [exact Hn|]. exists best. split; [exact Hres|].
  intros k Hk. apply Hmax. rewrite Hn. exact Hk.
Defined.

Lemma zero_stride_stops_first_batch_witness :
  model_ema Demo.zero_stride = true /\ model_ema_steps Demo.zero_stride = 0 /\
  0 < epochs Demo.zero_stride /\ resume Demo.zero_stride < epochs Demo.zero_stride /\
  loader_train Demo.zero_stride <> [] /\
  res (train None Demo.improving Demo.zero_stride) 0%nat = Raise ZeroDivisionError /\
  filter is_param_update (trace (train None Demo.improving Demo.zero_stride) 0%nat) =
    [EvOptimizerStep].
Proof.
  assert (Hl : loader_train Demo.zero_stride <> []) by (vm_compute; discriminate).
  do 4 (split; [reflexivity|]). split; [exact Hl|].
  destruct (@zero_stride_stops_first_batch _ _ None Demo.improving Demo.zero_stride
              eq_refl eq_refl 0%nat eq_refl eq_refl Hl) as (Hr & _ & Hu & _).
  split; [exact Hr | exact Hu].
Defined.

Lemma compare_returns_weighted_divergence_witness :
  (forall o, DemoCompare.softmax o = Ok (id o)) /\
  res (compare DemoValidate.get_data_fn DemoCompare.forward1 DemoCompare.forward2
         DemoCompare.softmax DemoCompare.criterion DemoValidate.label_size None
         DemoValidate.loader) DemoCompare.models =
  weighted_average [(((3#4) - (1#2) * (1#2))%Q, 3); (((3#4) - (1#2) * (1#2))%Q, 2)].
Proof.
  split; [reflexivity|].
  exact (@compare_returns_weighted_divergence _ _ _ _ _ _ _
           DemoValidate.get_data_fn DemoCompare.forward1 DemoCompare.forward2
           DemoCompare.softmax DemoCompare.criterion DemoValidate.label_size id
           None DemoValidate.loader DemoCompare.models (fun o => eq_refl)).
Defined.

Lemma compare_stops_at_softmax_witness :
  DemoCompare.failing
    (DemoCompare.forward2 (eval_mode (snd DemoCompare.models))
       (fst (DemoValidate.get_data_fn [1; 2; 3]))) = Raise ZeroDivisionError /\
  res (compare DemoValidate.get_data_fn DemoCompare.forward1 DemoCompare.forward2
         DemoCompare.failing DemoCompare.criterion DemoValidate.label_size None
         [[1; 2; 3]; [4; 5]]) DemoCompare.models = Raise ZeroDivisionError.
Proof.
  split; [reflexivity|].
  exact (proj1 (@compare_stops_at_softmax _ _ _ _ _ _ _
                  DemoValidate.get_data_fn DemoCompare.forward1 DemoCompare.forward2
                  DemoCompare.failing DemoCompare.criterion DemoValidate.label_size
                  None [1; 2; 3] [[4; 5]] DemoCompare.models _ eq_refl)).
Defined.

Lemma make_folder_never_overwrites_witness :
  (forall d, class_to_idx DemoFolder.pets = Some d -> NoDup (map fst d)) /\
  NoDup
    (saved_files
       (snd (fst (make_folder DemoFolder.path_exists DemoFolder.makedirs
                    DemoFolder.image_save DemoFolder.pets ".png" [])))).
Proof.
  assert (Hd : forall d, class_to_idx DemoFolder.pets = Some d -> NoDup (map fst d)).
  { intros d E. injection E as <-. simpl.
    constructor; [|constructor; [intros [] | constructor]].
    intros [E|[]]. discriminate E. }
  split; [exact Hd|].
  exact (@make_folder_never_overwrites _ _ DemoFolder.path_exists DemoFolder.makedirs
           DemoFolder.image_save DemoFolder.pets ".png" [] Hd).
Defined.

Lemma default_class_names_witness :
  class_to_idx DemoFolder.digits = None /\
  dict_get Z.eqb (idx_to_class DemoFolder.digits) 2 = Some "2"%string /\
  dict_get Z.eqb (idx_to_class DemoFolder.digits) 3 = None.
Proof.
  split; [reflexivity|]. split.
  - exact (proj1 (@default_class_names _ DemoFolder.digits 2 eq_refl)).
  - exact (proj1 (@default_class_names _ DemoFolder.digits 3 eq_refl)).
Defined.

Lemma make_folder_numbers_by_class_witness :
  class_to_idx DemoFolder.digits = None /\
  (forall mode image target_class,
     In mode (mode_list DemoFolder.digits) ->
     In (image, target_class) (get_org_dataset DemoFolder.digits mode) ->
     0 <= target_class < num_classes DemoFolder.digits) /\
  saved_images
    (snd (fst (make_folder DemoFolder.path_exists DemoFolder.makedirs
                 DemoFolder.image_save DemoFolder.digits ".png" []))) =
  [("a", ["/data"; "digits"; "train"; "1"; "0.png"]);
   ("b", ["/data"; "digits"; "train"; "0"; "0.png"]);
   ("c", ["/data"; "digits"; "train"; "1"; "1.png"]);
   ("d", ["/data"; "digits"; "valid"; "2"; "0.png"])]%string.
Proof.
  assert (Hin : forall mode image target_class,
             In mode (mode_list DemoFolder.digits) ->
             In (image, target_class) (get_org_dataset DemoFolder.digits mode) ->
             0 <= target_class < num_classes DemoFolder.digits).
  { intros mode image t Hm Hi. simpl in Hm.
    destruct Hm as [<-|[<-|[]]]; simpl in Hi;
      repeat (destruct Hi as [Hi|Hi]; [injection Hi as _ <-; simpl; lia|]);
      destruct Hi. }
  split; [reflexivity|]. split; [exact Hin|].
  exact (proj2 (@make_folder_numbers_by_class _ _ DemoFolder.path_exists
                  DemoFolder.makedirs DemoFolder.image_save DemoFolder.digits
                  ".png" [] eq_refl Hin)).
Defined.

Lemma make_folder_unknown_class_witness :
  class_to_idx DemoFolder.mislabelled = None /\
  get_org_dataset DemoFolder.mislabelled "train" =
    [("a", 1)]%string ++ ("b", 7)%string :: [("c", 1)]%string /\
  ~ 0 <= 7 < num_classes DemoFolder.mislabelled /\
  fst (fst (make_folder DemoFolder.path_exists DemoFolder.makedirs
              DemoFolder.image_save DemoFolder.mislabelled ".png" [])) =
    Some (KeyError 7) /\
  saved_images
    (snd (fst (make_folder DemoFolder.path_exists DemoFolder.makedirs
                 DemoFolder.image_save DemoFolder.mislabelled ".png" []))) =
  [("a", ["/data"; "digits"; "train"; "1"; "0.png"])]%string.
Proof.
  assert (Hbad : ~ 0 <= 7 < num_classes DemoFolder.mislabelled) by (simpl; lia).
  assert (Hpre : forall (image' : string) target',
             In (image', target') [("a", 1)]%string ->
             0 <= target' < num_classes DemoFolder.mislabelled).
  { intros i t [Hi|[]]. injection Hi as _ <-. simpl. lia. }
  split; [reflexivity|]. split; [reflexivity|]. split; [exact Hbad|].
  exact (@make_folder_unknown_class _ _ DemoFolder.path_exists DemoFolder.makedirs
           DemoFolder.image_save DemoFolder.mislabelled ".png" []
           [("a", 1)]%string "b"%string 7 [("c", 1)]%string eq_refl eq_refl Hpre Hbad).
Defined.
